(** * bartpy: Target cache, leaf-value sampler and the sklearn facade

    A shallow embedding of [bartpy/data/target.py],
    [bartpy/samplers/leafnode.py] and [bartpy/sklearnmodel.py].

    Numbers.  numpy's float64 is idealised: a finite value is a real number
    (no rounding), and every non-finite value (nan, +inf, -inf) is the single
    value [NonFinite], which absorbs every operation.  That is exact for nan;
    the theorems below that conclude a finite result assume enough to keep
    every intermediate value finite, so they do not depend on the arithmetic
    of infinities.  Rounding, overflow and underflow are outside this
    reading; where a property of the normalization depends on them, the
    module [Binary64] gives the same formulas on IEEE binary64 numbers.

    Effects.  Python exceptions are the [Raise] branch of [result]; methods
    that mutate [self] return the new object next to their value; objects
    that are shared by reference (the default scalar sampler) live in a
    store addressed by location. *)

From Stdlib Require Import PrimFloat String Reals Lra Psatz ZArith Bool Lia List.
Import ListNotations.

Set Warnings "-inexact-float".

Open Scope R_scope.

(** ** Exceptions *)

Inductive exn : Type :=
| ValueError
| AttributeError
| IndexError
| KeyError
| TypeError
| ConfigurationError.

Inductive result (A : Type) : Type :=
| Ok (a : A)
| Raise (e : exn).

Arguments Ok {A} a.
Arguments Raise {A} e.

Definition bind {A B : Type} (c : result A) (k : A -> result B) : result B :=
  match c with
  | Ok a => k a
  | Raise e => Raise e
  end.

Notation "x <- c ;; k" := (bind c (fun x => k))
  (at level 61, c at next level, right associativity).
Notation "' pat <- c ;; k" := (bind c (fun x => match x with pat => k end))
  (at level 61, pat pattern, c at next level, right associativity).

Fixpoint mapM {A B : Type} (f : A -> result B) (l : list A) : result (list B) :=
  match l with
  | [] => Ok []
  | a :: l' => b <- f a ;; bs <- mapM f l' ;; Ok (b :: bs)
  end.

(** ** numpy scalars *)

Inductive float64 : Type :=
| Finite (r : R)
| NonFinite.

Definition is_finite (a : float64) : Prop :=
  match a with Finite _ => True | NonFinite => False end.

Definition of_int (n : Z) : float64 := Finite (IZR n).

Definition fadd (a b : float64) : float64 :=
  match a, b with
  | Finite x, Finite y => Finite (x + y)
  | _, _ => NonFinite
  end.

Definition fsub (a b : float64) : float64 :=
  match a, b with
  | Finite x, Finite y => Finite (x - y)
  | _, _ => NonFinite
  end.

Definition fmul (a b : float64) : float64 :=
  match a, b with
  | Finite x, Finite y => Finite (x * y)
  | _, _ => NonFinite
  end.

(** [a / b] on numpy floats: a zero divisor gives nan or an infinity (with a
    RuntimeWarning, no exception). *)
Definition fdiv (a b : float64) : float64 :=
  match a, b with
  | Finite x, Finite y => if Req_dec_T y 0 then NonFinite else Finite (x / y)
  | _, _ => NonFinite
  end.

(** [np.sqrt(a)] and [np.power(a, 0.5)]: nan on a negative argument. *)
Definition fsqrt (a : float64) : float64 :=
  match a with
  | Finite x => if Rle_dec 0 x then Finite (sqrt x) else NonFinite
  | NonFinite => NonFinite
  end.

Definition fmin (a b : float64) : float64 :=
  match a, b with
  | Finite x, Finite y => Finite (Rmin x y)
  | _, _ => NonFinite
  end.

Definition fmax (a b : float64) : float64 :=
  match a, b with
  | Finite x, Finite y => Finite (Rmax x y)
  | _, _ => NonFinite
  end.

(** ** One-dimensional numpy arrays *)

Definition array := list float64.

(** [np.sum] *)
Definition np_sum (a : array) : float64 :=
  fold_right fadd (Finite 0) a.

(** [np.mean]: the sum over the size; nan on the empty array. *)
Definition np_mean (a : array) : float64 :=
  fdiv (np_sum a) (of_int (Z.of_nat (length a))).

(** [np.min] / [ndarray.min]: ValueError on the empty array. *)
Definition np_min (a : array) : result float64 :=
  match a with
  | [] => Raise ValueError
  | x :: a' => Ok (fold_right fmin x a')
  end.

Definition np_max (a : array) : result float64 :=
  match a with
  | [] => Raise ValueError
  | x :: a' => Ok (fold_right fmax x a')
  end.

Fixpoint zip_with {A B C : Type} (f : A -> B -> C) (a : list A) (b : list B) : list C :=
  match a, b with
  | x :: a', y :: b' => f x y :: zip_with f a' b'
  | _, _ => []
  end.

(** Binary operators on two one-dimensional arrays follow numpy's
    broadcasting: equal sizes combine element by element, an operand of
    size one is stretched over the other, any other pair of sizes raises
    ValueError. *)
Definition broadcast {A B C : Type} (f : A -> B -> C)
    (a : list A) (b : list B) : result (list C) :=
  if Nat.eqb (length a) (length b) then Ok (zip_with f a b)
  else match a, b with
       | [x], _ => Ok (map (f x) b)
       | _, [y] => Ok (map (fun x => f x y) a)
       | _, _ => Raise ValueError
       end.

(** ** bartpy/data/target.py *)

Module Target.

(** The instance attributes.  [original_y_min] and [original_y_max] exist
    only on an instance built with [normalize]; an absent attribute is
    [None] and reading it raises AttributeError.  [_summed_y] holds a
    Python value that may be [None]. *)
Record t : Type := mk {
  original_y_min : option float64;
  original_y_max : option float64;
  _y : array;
  _mask : list bool;
  _inverse_mask_int : list Z;
  _n_obsv : Z;
  y_sum_cache_up_to_date : bool;
  _summed_y : option float64
}.

Definition getattr (a : option float64) : result float64 :=
  match a with
  | Some v => Ok v
  | None => Raise AttributeError
  end.

(** [-0.5 + ((y - y_min) / (y_max - y_min))] *)
Definition normalize_y (y : array) : result array :=
  y_min <- np_min y ;;
  y_max <- np_max y ;;
  Ok (map (fun v => fadd (Finite (-0.5)) (fdiv (fsub v y_min) (fsub y_max y_min))) y).

(** [(~self._mask).astype(int)] *)
Definition inverse_mask_int (mask : list bool) : list Z :=
  map (fun b => if negb b then 1%Z else 0%Z) mask.

Definition init (y : array) (mask : list bool) (n_obsv : Z)
    (normalize : bool) (y_sum : option float64) : result t :=
  '(omin, omax, y') <-
     (if normalize then
        y_min <- np_min y ;;
        y_max <- np_max y ;;
        y' <- normalize_y y ;;
        Ok (Some y_min, Some y_max, y')
      else Ok (None, None, y)) ;;
  Ok (match y_sum with
      | None => mk omin omax y' mask (inverse_mask_int mask) n_obsv false None
      | Some s => mk omin omax y' mask (inverse_mask_int mask) n_obsv true (Some s)
      end).

Definition unnormalize_y (self : t) (y : array) : result array :=
  let distance_from_min := map (fun v => fsub v (Finite (-0.5))) y in
  y_max <- getattr (original_y_max self) ;;
  y_min <- getattr (original_y_min self) ;;
  let total_distance := fsub y_max y_min in
  Ok (map (fun d => fadd y_min (fmul d total_distance)) distance_from_min).

Definition values (self : t) : array := _y self.

Definition unnormalized_y (self : t) : result array :=
  unnormalize_y self (values self).

Definition normalizing_scale (self : t) : result float64 :=
  y_max <- getattr (original_y_max self) ;;
  y_min <- getattr (original_y_min self) ;;
  Ok (fsub y_max y_min).

Definition set_cache (self : t) (s : option float64) (flag : bool) : t :=
  mk (original_y_min self) (original_y_max self) (_y self) (_mask self)
     (_inverse_mask_int self) (_n_obsv self) flag s.

(** Returns the value and the instance after the call. *)
Definition summed_y (self : t) : result (option float64 * t) :=
  if y_sum_cache_up_to_date self then Ok (_summed_y self, self)
  else
    prod <- broadcast (fun v m => fmul v (of_int m)) (_y self) (_inverse_mask_int self) ;;
    let s := np_sum prod in
    Ok (Some s, set_cache self (Some s) true).

Definition update_y (self : t) (y : array) : t :=
  mk (original_y_min self) (original_y_max self) y (_mask self)
     (_inverse_mask_int self) (_n_obsv self) false (_summed_y self).

End Target.

(** ** bartpy/data/target.py on binary64

    The normalization once more, on IEEE binary64 numbers with their
    rounding, overflow and nan, as numpy evaluates it.  The properties of
    [Target] that depend on the values computed, not only on which formula
    is applied, are checked against these definitions. *)

Module Binary64.

Definition array := list PrimFloat.float.

(** [np.minimum] and [np.maximum] of two scalars: a nan wins. *)
Definition minimum (a b : PrimFloat.float) : PrimFloat.float :=
  if (PrimFloat.ltb a b || PrimFloat.is_nan a)%bool then a else b.

Definition maximum (a b : PrimFloat.float) : PrimFloat.float :=
  if (PrimFloat.ltb b a || PrimFloat.is_nan a)%bool then a else b.

(** [ndarray.min] / [ndarray.max]: ValueError on the empty array. *)
Definition np_min (a : array) : result PrimFloat.float :=
  match a with
  | [] => Raise ValueError
  | x :: a' => Ok (fold_left minimum a' x)
  end.

Definition np_max (a : array) : result PrimFloat.float :=
  match a with
  | [] => Raise ValueError
  | x :: a' => Ok (fold_left maximum a' x)
  end.

(** [-0.5 + ((y - y_min) / (y_max - y_min))] *)
Definition normalize_y (y : array) : result array :=
  y_min <- np_min y ;;
  y_max <- np_max y ;;
  Ok (map (fun v => (-0.5 + ((v - y_min) / (y_max - y_min)))%float) y).

(** [unnormalize_y] on a Target whose [original_y_min] and
    [original_y_max] are the two given numbers. *)
Definition unnormalize_y (original_y_min original_y_max : PrimFloat.float)
    (y : array) : array :=
  let distance_from_min := map (fun v => (v - -0.5)%float) y in
  let total_distance := (original_y_max - original_y_min)%float in
  map (fun d => (original_y_min + (d * total_distance))%float) distance_from_min.

(** [Target(y, mask, n_obsv, normalize=True).unnormalized_y()]: the
    constructor keeps [y.min()], [y.max()] and [normalize_y(y)], and
    [unnormalized_y] un-normalizes the values kept. *)
Definition unnormalized_y (y : array) : result array :=
  original_y_min <- np_min y ;;
  original_y_max <- np_max y ;;
  values <- normalize_y y ;;
  Ok (unnormalize_y original_y_min original_y_max values).

End Binary64.

(** ** The process state: numpy's generator and the objects shared by reference *)

Definition loc := nat.

(** Modelled from the spec: the scalar sampler
    ([bartpy.samplers.scalar.NormalScalarSampler], not part of the sources).
    Section 4.2: it maintains a finite pool of pre-drawn standard-normal
    samples of a configurable size and an index cursor; [sample()] returns
    the next pooled value and refills the pool with a fresh batch when it is
    exhausted. *)
Module NormalScalarSampler.

(** Modelled from the spec: the state of a scalar sampler (section 4.2), its
    configured pool size, the pool and the cursor into it. *)
Record t : Type := mk {
  cache_size : Z;
  pool : array;
  cursor : nat
}.

End NormalScalarSampler.

(** [randn] is the sequence of standard-normal values numpy's global
    generator yields in this process, [drawn] how many of them were taken,
    [heap] the scalar-sampler objects, addressed by position. *)
Record World : Type := mkWorld {
  randn : nat -> R;
  drawn : nat;
  heap : list NormalScalarSampler.t
}.

(** [np.random.normal(size=k)] *)
Definition np_random_normal (k : Z) (w : World) : array * World :=
  (map (fun i => Finite (randn w (drawn w + i))) (seq 0 (Z.to_nat k)),
   mkWorld (randn w) (drawn w + Z.to_nat k) (heap w)).

Definition alloc (s : NormalScalarSampler.t) (w : World) : loc * World :=
  (length (heap w), mkWorld (randn w) (drawn w) (heap w ++ [s])).

Fixpoint set_nth {A : Type} (l : list A) (i : nat) (a : A) : list A :=
  match l, i with
  | [], _ => []
  | _ :: l', O => a :: l'
  | x :: l', S i' => x :: set_nth l' i' a
  end.

Definition store (l : loc) (s : NormalScalarSampler.t) (w : World) : World :=
  mkWorld (randn w) (drawn w) (set_nth (heap w) l s).

(** Modelled from the spec: construction of the scalar sampler (section
    4.2): the pool is pre-drawn from the generator and the object placed in
    the store.  A reference to an object that was never allocated cannot be
    built by the code; [sample] raises AttributeError there. *)
Definition NormalScalarSampler_init (cache_size : Z) (w : World) : loc * World :=
  let '(batch, w1) := np_random_normal cache_size w in
  alloc (NormalScalarSampler.mk cache_size batch 0) w1.

(** Modelled from the spec: [sample()] of the scalar sampler (section 4.2):
    when the cursor is past the pool, the pool is refilled with a fresh batch
    of the configured size and the cursor reset; the value under the cursor
    is returned and the cursor moves on. *)
Definition NormalScalarSampler_sample (l : loc) (w : World) : result (float64 * World) :=
  match nth_error (heap w) l with
  | None => Raise AttributeError
  | Some s =>
      let '(s1, w1) :=
        if Nat.ltb (NormalScalarSampler.cursor s) (length (NormalScalarSampler.pool s))
        then (s, w)
        else let '(batch, w') := np_random_normal (NormalScalarSampler.cache_size s) w in
             (NormalScalarSampler.mk (NormalScalarSampler.cache_size s) batch 0, w') in
      match nth_error (NormalScalarSampler.pool s1) (NormalScalarSampler.cursor s1) with
      | None => Raise IndexError
      | Some v =>
          Ok (v, store l (NormalScalarSampler.mk (NormalScalarSampler.cache_size s1)
                            (NormalScalarSampler.pool s1)
                            (S (NormalScalarSampler.cursor s1))) w1)
      end
  end.

(** ** Collaborator objects whose classes are not part of the sources *)

Definition Covariates := list array.

(** Modelled from the spec: the data container ([bartpy.data.Data]).
    Section 6: the core consumes from the Data/Target component the
    [values], [update_values], [summed_masked_value] and
    [normalize]/[unnormalize]; the container holds the covariates and the
    Target and hands these calls to the Target. *)
Module Data.

(** Modelled from the spec: the container of section 6, the covariates and
    the Target. *)
Record t : Type := mk {
  X : Covariates;
  target : Target.t
}.

(** Modelled from the spec: [Data(X, y, normalize)] builds the Target of all
    observations, none masked. *)
Definition init (X : Covariates) (y : array) (normalize : bool) : result t :=
  tgt <- Target.init y (repeat false (length y)) (Z.of_nat (length y)) normalize None ;;
  Ok (mk X tgt).

(** Modelled from the spec: the accessors the sources call on a Data, each
    handed to the Target (section 6). *)
Definition y (self : t) : array := Target.values (target self).

(** Modelled from the spec: see [y]. *)
Definition n_obsv (self : t) : Z := Target._n_obsv (target self).

(** Modelled from the spec: see [y]. *)
Definition unnormalize_y (self : t) (v : array) : result array :=
  Target.unnormalize_y (target self) v.

(** Modelled from the spec: see [y]. *)
Definition unnormalized_y (self : t) : result array :=
  Target.unnormalized_y (target self).

(** Modelled from the spec: see [y]. *)
Definition normalizing_scale (self : t) : result float64 :=
  Target.normalizing_scale (target self).

End Data.

(** [bartpy.sigma.Sigma]: the attributes the sources read. *)
Module Sigma.

Record t : Type := mk {
  a : R;
  b : R;
  scaling_factor : float64;
  current_value : float64
}.

End Sigma.

(** [bartpy.model.Model]: the attributes and the method the sources use. *)
Module Model.

Record t : Type := mk {
  data : Data.t;
  sigma : Sigma.t;
  sigma_m : float64;
  n_trees : Z;
  predict : Covariates -> array
}.

End Model.

(** [bartpy.node.LeafNode]: its data and its current value. *)
Module LeafNode.

Record t : Type := mk {
  data : Data.t;
  current_value : float64
}.

Definition set_value (self : t) (v : float64) : t := mk (data self) v.

End LeafNode.

(** ** bartpy/samplers/leafnode.py *)

Module LeafNodeSampler.

Record t : Type := mk {
  _scalar_sampler : loc
}.

(** Executing the module evaluates the default of [__init__] once:
    [scalar_sampler=NormalScalarSampler(50000)].  The location of that object
    is what the function keeps as its default. *)
Definition import (w : World) : loc * World :=
  NormalScalarSampler_init 50000 w.

(** [__init__]: [defaults] is the default fixed at import, [scalar_sampler]
    the argument of the call when one is given. *)
Definition init (defaults : loc) (scalar_sampler : option loc) : t :=
  mk (match scalar_sampler with
      | Some l => l
      | None => defaults
      end).

Definition sample (self : t) (model : Model.t) (node : LeafNode.t) (w : World)
    : result (float64 * World) :=
  let prior_var := fmul (Model.sigma_m model) (Model.sigma_m model) in
  let n := Data.n_obsv (LeafNode.data node) in
  let sigma := Sigma.current_value (Model.sigma model) in
  let likihood_var := fdiv (fmul sigma sigma) (of_int n) in
  let likihood_mean := np_mean (Data.y (LeafNode.data node)) in
  let posterior_variance :=
    fdiv (Finite 1) (fadd (fdiv (Finite 1) prior_var) (fdiv (Finite 1) likihood_var)) in
  let posterior_mean :=
    fmul likihood_mean (fdiv prior_var (fadd likihood_var prior_var)) in
  '(eps, w') <- NormalScalarSampler_sample (_scalar_sampler self) w ;;
  Ok (fadd posterior_mean
        (fmul eps (fsqrt (fdiv posterior_variance (of_int (Model.n_trees model))))),
      w').

(** Returns the drawn value, the node after [set_value] and the process
    state. *)
Definition step (self : t) (model : Model.t) (node : LeafNode.t) (w : World)
    : result (float64 * LeafNode.t * World) :=
  '(sampled_value, w') <- sample self model node w ;;
  Ok (sampled_value, LeafNode.set_value node sampled_value, w').

End LeafNodeSampler.

(** ** Python lists, dicts and the arrays [np.concatenate] builds *)

(** What the lists of a chain extract hold: a model snapshot, the acceptance
    mapping of one iteration, or one row of in-sample predictions. *)
Inductive pyobj : Type :=
| PModel (m : Model.t)
| PAccept (a : list (string * bool))
| PRow (r : array).

Definition pylist := list pyobj.

(** A one-dimensional array of objects, or a two-dimensional float array of
    [w] columns given by its rows. *)
Inductive ndarray : Type :=
| Arr1 (l : list pyobj)
| Arr2 (w : nat) (rows : list array).

(** A dict with string keys, in insertion order. *)
Definition dict (V : Type) := list (string * V).

Fixpoint getitem {V : Type} (d : dict V) (key : string) : result V :=
  match d with
  | [] => Raise KeyError
  | (k, v) :: d' => if String.eqb k key then Ok v else getitem d' key
  end.

Definition keys {V : Type} (d : dict V) : list string := map fst d.

Definition is_row (o : pyobj) : bool :=
  match o with PRow _ => true | _ => false end.

Fixpoint rows_of (l : pylist) : option (list array) :=
  match l with
  | [] => Some []
  | PRow r :: l' => option_map (cons r) (rows_of l')
  | _ :: _ => None
  end.

(** The array numpy makes of a list: a list of rows of one width becomes a
    two-dimensional array, a list of other objects (and the empty list) a
    one-dimensional one; rows of different widths, or rows mixed with other
    objects, raise ValueError. *)
Definition asarray (l : pylist) : result ndarray :=
  match rows_of l with
  | Some (r :: rs) =>
      if forallb (fun r' => Nat.eqb (length r') (length r)) rs
      then Ok (Arr2 (length r) (r :: rs))
      else Raise ValueError
  | Some [] => Ok (Arr1 [])
  | None => if existsb is_row l then Raise ValueError else Ok (Arr1 l)
  end.

Definition concat2 (a b : ndarray) : result ndarray :=
  match a, b with
  | Arr1 x, Arr1 y => Ok (Arr1 (x ++ y))
  | Arr2 w x, Arr2 w' y =>
      if Nat.eqb w w' then Ok (Arr2 w (x ++ y)) else Raise ValueError
  | _, _ => Raise ValueError
  end.

Fixpoint concat_from (acc : ndarray) (rest : list ndarray) : result ndarray :=
  match rest with
  | [] => Ok acc
  | b :: rest' => ab <- concat2 acc b ;; concat_from ab rest'
  end.

(** [np.concatenate(arrs, axis=0)]: at least one array, all of one number of
    dimensions and one width. *)
Definition np_concatenate (arrs : list pylist) : result ndarray :=
  converted <- mapM asarray arrs ;;
  match converted with
  | [] => Raise ValueError
  | a :: rest => concat_from a rest
  end.

(** The size of an array along axis 0. *)
Definition len (a : ndarray) : nat :=
  match a with
  | Arr1 l => length l
  | Arr2 _ rows => length rows
  end.

(** A float array of zero or one dimension, as [mean(axis=0)] returns. *)
Inductive farray : Type :=
| Scalar0 (v : float64)
| Vector (a : array).

Definition column (j : nat) (rows : list array) : array :=
  map (fun r => nth j r NonFinite) rows.

(** [a.mean(axis=0)]: the mean of every column of a two-dimensional array;
    nan for the empty one-dimensional array; an array of objects has no
    mean. *)
Definition mean_axis0 (a : ndarray) : result farray :=
  match a with
  | Arr1 [] => Ok (Scalar0 NonFinite)
  | Arr1 (_ :: _) => Raise TypeError
  | Arr2 w rows => Ok (Vector (map (fun j => np_mean (column j rows)) (seq 0 w)))
  end.

(** [range(n)] *)
Definition range (n : Z) : list Z :=
  map Z.of_nat (seq 0 (Z.to_nat n)).

(** ** bartpy/sklearnmodel.py *)

Definition ChainExtract := dict pylist.

(** Modelled from the spec: the proposer of tree mutations
    ([bartpy.samplers.treemutation.uniform.proposer]).  Section 4.5: it
    chooses grow or prune with the configured probabilities, which must sum
    to 1; it fails fast otherwise, with the ConfigurationError of
    section 7. *)
Module UniformMutationProposer.

(** Modelled from the spec: the configured probabilities. *)
Record t : Type := mk { prob_method : list R }.

(** Modelled from the spec: the constructor; section 4.5, "must sum to 1;
    fail fast otherwise". *)
Definition init (prob_method : list R) : result t :=
  if Req_dec_T (fold_right Rplus 0 prob_method) 1
  then Ok (mk prob_method)
  else Raise ConfigurationError.

End UniformMutationProposer.

(** Modelled from the spec: the likelihood ratio of a proposed mutation
    (section 4.5); it is given the same probabilities and keeps them. *)
Module UniformTreeMutationLikihoodRatio.
Record t : Type := mk { prob_method : list R }.
End UniformTreeMutationLikihoodRatio.

(** Modelled from the spec: the Metropolis-Hastings step on a tree
    (section 4.5), made of a proposer and a likelihood ratio. *)
Module TreeMutationSampler.
Record t : Type := mk {
  proposer : UniformMutationProposer.t;
  likihood_ratio : UniformTreeMutationLikihoodRatio.t
}.
End TreeMutationSampler.

(** Modelled from the spec: the sampler of the noise variance (section 4.4);
    it is constructed without arguments. *)
Module SigmaSampler.
Record t : Type := mk { }.
End SigmaSampler.

(** Modelled from the spec: the order of the steps of one sweep
    (section 4.6), over the three samplers it is given. *)
Module SampleSchedule.
Record t : Type := mk {
  tree_sampler : TreeMutationSampler.t;
  leaf_sampler : LeafNodeSampler.t;
  sigma_sampler : SigmaSampler.t
}.
End SampleSchedule.

(** Modelled from the spec: the sampler of one chain
    ([bartpy.samplers.modelsampler]), section 4.7. *)
Module ModelSampler.

(** Modelled from the spec: the chain sampler holds its schedule. *)
Record t : Type := mk { schedule : SampleSchedule.t }.

Section Samples.

(** One sweep of the schedule over the model (section 4.6), with the
    acceptance indicators of its steps, and the thinning rule, which
    decides from [thin] and the number of the iteration whether the
    iteration is recorded.  Section 4.7 fixes neither; [samples] is stated
    over whatever they are. *)
Variable sweep :
  SampleSchedule.t -> Model.t -> World ->
  result (Model.t * list (string * bool) * World).
Variable keep : R -> nat -> bool.

(** Modelled from the spec: the probabilities of the proposer the schedule
    was built on. *)
Definition probabilities (self : t) : list R :=
  UniformMutationProposer.prob_method
    (TreeMutationSampler.proposer (SampleSchedule.tree_sampler (schedule self))).

(** Modelled from the spec: section 4.7, "malformed hyperparameters
    (n_burn<0, thin outside (0,1], grow+prune probabilities not summing
    to 1)". *)
Definition well_formed (self : t) (n_burn : Z) (thin : R) : bool :=
  (0 <=? n_burn)%Z
  && (if Rlt_dec 0 thin then true else false)
  && (if Rle_dec thin 1 then true else false)
  && (if Req_dec_T (fold_right Rplus 0 (probabilities self)) 1 then true else false).

(** Modelled from the spec: BURN_IN, "n_burn iterations, sweep applied,
    nothing recorded". *)
Fixpoint burn_in (self : t) (k : nat) (model : Model.t) (w : World)
    : result (Model.t * World) :=
  match k with
  | O => Ok (model, w)
  | S k' =>
      '(model1, _, w1) <- sweep (schedule self) model w ;;
      burn_in self k' model1 w1
  end.

(** Modelled from the spec: SAMPLING, "n_samples iterations, each sweep
    applied"; a recorded iteration keeps the model, its in-sample
    predictions if they are stored and its acceptance indicators if they
    are.  [i] is the number of the iteration. *)
Fixpoint sampling (self : t) (k i : nat) (model : Model.t) (thin : R)
    (store_in_sample_predictions store_acceptance : bool) (w : World)
    : result (list Model.t * list (list (string * bool)) * list array * World) :=
  match k with
  | O => Ok ([], [], [], w)
  | S k' =>
      '(model1, accepted, w1) <- sweep (schedule self) model w ;;
      '(ms, accs, rows, w2) <-
         sampling self k' (S i) model1 thin store_in_sample_predictions
           store_acceptance w1 ;;
      if keep thin i
      then Ok (model1 :: ms,
               (if store_acceptance then accepted :: accs else accs),
               (if store_in_sample_predictions
                then Model.predict model1 (Data.X (Model.data model1)) :: rows
                else rows),
               w2)
      else Ok (ms, accs, rows, w2)
  end.

(** Modelled from the spec: [samples], section 4.7.  Malformed
    hyperparameters "must fail before any sampling begins, not mid-chain":
    the check comes before the first sweep.  The extract is the dict of
    section 3. *)
Definition samples (self : t) (model : Model.t) (n_samples n_burn : Z) (thin : R)
    (store_in_sample_predictions store_acceptance : bool) (w : World)
    : result (ChainExtract * World) :=
  if well_formed self n_burn thin then
    '(model1, w1) <- burn_in self (Z.to_nat n_burn) model w ;;
    '(ms, accs, rows, w2) <-
       sampling self (Z.to_nat n_samples) 0 model1 thin store_in_sample_predictions
         store_acceptance w1 ;;
    Ok ([("model"%string, map PModel ms);
         ("acceptance"%string, map PAccept accs);
         ("in_sample_predictions"%string, map PRow rows)],
        w2)
  else Raise ConfigurationError.

End Samples.

End ModelSampler.

Module SklearnModel.

(** The arguments of [__init__]. *)
Record params : Type := mk_params {
  n_trees : Z;
  n_chains : Z;
  sigma_a : R;
  sigma_b : R;
  n_samples : Z;
  n_burn : Z;
  thin : R;
  p_grow : R;
  p_prune : R;
  alpha : R;
  beta : R;
  store_in_sample_predictions : bool;
  store_acceptance_trace : bool;
  n_jobs : Z
}.

(** The defaults of the signature. *)
Definition default_params : params :=
  mk_params 50 4 0.001 0.001 200 200 0.1 0.5 0.5 0.95 2 true true (-1).

(** The attributes set after fitting; [None] is Python's [None]. *)
Record fitted : Type := mk_fitted {
  sigma : option Sigma.t;
  data : option Data.t;
  model : option Model.t;
  _prediction_samples : option ndarray;
  _model_samples : option ndarray;
  extract : option (list ChainExtract);
  combined_chains : option (dict ndarray);
  _acceptance_trace : option ndarray
}.

(** The instance: the hyperparameters as given, the sampler objects built by
    [__init__] and the attributes of the fit. *)
Record t : Type := mk {
  hyper : params;
  proposer : UniformMutationProposer.t;
  likihood_ratio : UniformTreeMutationLikihoodRatio.t;
  tree_sampler : TreeMutationSampler.t;
  schedule : SampleSchedule.t;
  sampler : ModelSampler.t;
  state : fitted
}.

Definition with_state (self : t) (s : fitted) : t :=
  mk (hyper self) (proposer self) (likihood_ratio self) (tree_sampler self)
     (schedule self) (sampler self) s.

(** The instance that the body of [__init__] builds when every constructor
    it calls returns.  [leaf_defaults] is the default scalar sampler that
    [LeafNodeSampler()] receives.  The constructors keep their
    arguments. *)
Definition new (leaf_defaults : loc) (p : params) : t :=
  let proposer := UniformMutationProposer.mk [p_grow p; p_prune p] in
  let likihood_ratio := UniformTreeMutationLikihoodRatio.mk [p_grow p; p_prune p] in
  let tree_sampler := TreeMutationSampler.mk proposer likihood_ratio in
  let schedule :=
    SampleSchedule.mk tree_sampler (LeafNodeSampler.init leaf_defaults None) SigmaSampler.mk in
  let sampler := ModelSampler.mk schedule in
  mk p proposer likihood_ratio tree_sampler schedule sampler
     (mk_fitted None None None None None None None None).

(** [__init__].  The body has no [raise] and no check of its own; it fails
    when a constructor it calls does, and of those only the proposer's can
    (section 4.5). *)
Definition init (leaf_defaults : loc) (p : params) : result t :=
  proposer <- UniformMutationProposer.init [p_grow p; p_prune p] ;;
  let likihood_ratio := UniformTreeMutationLikihoodRatio.mk [p_grow p; p_prune p] in
  let tree_sampler := TreeMutationSampler.mk proposer likihood_ratio in
  let schedule :=
    SampleSchedule.mk tree_sampler (LeafNodeSampler.init leaf_defaults None) SigmaSampler.mk in
  let sampler := ModelSampler.mk schedule in
  Ok (mk p proposer likihood_ratio tree_sampler schedule sampler
        (mk_fitted None None None None None None None None)).

Definition _combine_chains (extract : list ChainExtract) : result (dict ndarray) :=
  match extract with
  | [] => Raise IndexError
  | first :: _ =>
      mapM (fun key =>
              parts <- mapM (fun chain => getitem chain key) extract ;;
              joined <- np_concatenate parts ;;
              Ok (key, joined))
           (keys first)
  end.

Definition _convert_covariates_to_data (X : Covariates) (y : array) : result Data.t :=
  Data.init X y true.

Section Collaborators.

(** The code of [Sigma], [Model] and [ModelSampler.samples] is not part of
    the sources: the facade is stated over whatever they do. *)
Variable Sigma_init : R -> R -> float64 -> Sigma.t.
Variable Model_init : Data.t -> Sigma.t -> Z -> R -> R -> Model.t.
Variable samples :
  ModelSampler.t -> Model.t -> Z -> Z -> R -> bool -> bool ->
  World -> result (ChainExtract * World).

Definition _construct_model (self : t) (X : Covariates) (y : array)
    : result (t * Model.t) :=
  d <- _convert_covariates_to_data X y ;;
  scale <- Data.normalizing_scale d ;;
  let sg := Sigma_init (sigma_a (hyper self)) (sigma_b (hyper self)) scale in
  let m := Model_init d sg (n_trees (hyper self)) (alpha (hyper self)) (beta (hyper self)) in
  let st := state self in
  Ok (with_state self
        (mk_fitted (Some sg) (Some d) (Some m) (_prediction_samples st)
           (_model_samples st) (extract st) (combined_chains st)
           (_acceptance_trace st)),
      m).

(** [run_chain]: works on the copy of the facade that the worker receives. *)
Definition run_chain (model : t) (X : Covariates) (y : array) (w : World)
    : result (ChainExtract * World) :=
  '(model', m) <- _construct_model model X y ;;
  samples (sampler model') m (n_samples (hyper model')) (n_burn (hyper model'))
    (thin (hyper model')) (store_in_sample_predictions (hyper model'))
    (store_acceptance_trace (hyper model')) w.

Definition delayed_run_chain (_ : unit) := run_chain.

Definition f_chains (self : t) :=
  map (fun _ => delayed_run_chain tt) (range (n_chains (hyper self))).

Definition f_delayed_chains (self : t) (X : Covariates) (y : array) :=
  map (fun x => x self X y) (f_chains self).

(** [Parallel(n_jobs)(tasks)]: the results in the order of the tasks, the
    first exception propagated.  The tasks run here one after the other on
    the process state. *)
Fixpoint Parallel {A : Type} (tasks : list (World -> result (A * World))) (w : World)
    : result (list A * World) :=
  match tasks with
  | [] => Ok ([], w)
  | task :: tasks' =>
      '(a, w1) <- task w ;;
      '(rest, w2) <- Parallel tasks' w1 ;;
      Ok (a :: rest, w2)
  end.

Definition fit (self : t) (X : Covariates) (y : array) (w : World)
    : result (t * World) :=
  '(self1, _) <- _construct_model self X y ;;
  '(ex, w') <- Parallel (f_delayed_chains self1 X y) w ;;
  combined <- _combine_chains ex ;;
  ms <- getitem combined "model" ;;
  ps <- getitem combined "in_sample_predictions" ;;
  acc <- getitem combined "acceptance" ;;
  let st := state self1 in
  Ok (with_state self1
        (mk_fitted (sigma st) (data st) (model st) (Some ps) (Some ms)
           (Some ex) (Some combined) (Some acc)),
      w').

End Collaborators.

Definition attr {A : Type} (a : option A) : result A :=
  match a with
  | Some v => Ok v
  | None => Raise AttributeError
  end.

(** [self.data.unnormalize_y(a)] on an array of zero or one dimension. *)
Definition unnormalize (d : Data.t) (a : farray) : result farray :=
  match a with
  | Vector v => r <- Data.unnormalize_y d v ;; Ok (Vector r)
  | Scalar0 v => r <- Data.unnormalize_y d [v] ;; Ok (Scalar0 (hd NonFinite r))
  end.

(** [[x.predict(X) for x in self._model_samples]] *)
Definition predictions_on (ms : option ndarray) (X : Covariates) : result pylist :=
  match ms with
  | None => Raise TypeError
  | Some (Arr2 _ []) => Ok []
  | Some (Arr2 _ (_ :: _)) => Raise AttributeError
  | Some (Arr1 l) =>
      mapM (fun o => match o with
                     | PModel m => Ok (PRow (Model.predict m X))
                     | _ => Raise AttributeError
                     end) l
  end.

Definition _out_of_sample_predict (self : t) (X : Covariates) : result farray :=
  d <- attr (data (state self)) ;;
  ps <- predictions_on (_model_samples (state self)) X ;;
  arr <- asarray ps ;;
  m <- mean_axis0 arr ;;
  unnormalize d m.

Definition predict (self : t) (X : option Covariates) : result farray :=
  match X, store_in_sample_predictions (hyper self) with
  | None, true =>
      d <- attr (data (state self)) ;;
      ps <- attr (_prediction_samples (state self)) ;;
      m <- mean_axis0 ps ;;
      unnormalize d m
  | None, false => Raise ValueError
  | Some X, _ => _out_of_sample_predict self X
  end.

(** [a - b] for a one-dimensional [a]. *)
Definition minus (a : array) (b : farray) : result array :=
  match b with
  | Scalar0 v => Ok (map (fun x => fsub x v) a)
  | Vector p => broadcast fsub a p
  end.

Definition residuals (self : t) (X : option Covariates) (y : option array)
    : result array :=
  match y with
  | None =>
      m <- attr (model (state self)) ;;
      u <- Data.unnormalized_y (Model.data m) ;;
      p <- predict self X ;;
      minus u p
  | Some y => p <- predict self X ;; minus y p
  end.

Definition l2_error (self : t) (X : option Covariates) (y : option array)
    : result array :=
  r <- residuals self X y ;;
  Ok (map (fun e => fmul e e) r).

Definition rmse (self : t) (X : option Covariates) (y : option array)
    : result float64 :=
  e <- l2_error self X y ;;
  Ok (fsqrt (np_sum e)).

(** [fit_predict]: the prediction, the fitted instance and the process
    state. *)
Definition fit_predict
    (Sigma_init : R -> R -> float64 -> Sigma.t)
    (Model_init : Data.t -> Sigma.t -> Z -> R -> R -> Model.t)
    (samples : ModelSampler.t -> Model.t -> Z -> Z -> R -> bool -> bool ->
               World -> result (ChainExtract * World))
    (self : t) (X : Covariates) (y : array) (w : World)
    : result (farray * t * World) :=
  '(self', w') <- fit Sigma_init Model_init samples self X y w ;;
  p <- (if store_in_sample_predictions (hyper self')
        then predict self' None
        else predict self' (Some X)) ;;
  Ok (p, self', w').

(** The property [model_samples]: [self._model_samples], [None] before the
    fit. *)
Definition model_samples (self : t) : option ndarray :=
  _model_samples (state self).

(** The property [acceptance_trace]: [__init__] does not set
    [_acceptance_trace], so the attribute is absent before the fit. *)
Definition acceptance_trace (self : t) : result ndarray :=
  attr (_acceptance_trace (state self)).

(** What evaluating an expression ends in: a value or an exception, or the
    interpreter's RecursionError when the frames run out. *)
Inductive outcome (A : Type) : Type :=
| Completes (r : result A)
| RecursionError.

Arguments Completes {A} r.
Arguments RecursionError {A}.

(** The property [prediction_samples] returns [self.prediction_samples],
    that is, itself; [frames] is the number of frames left below the
    recursion limit. *)
Fixpoint prediction_samples (frames : nat) (self : t) : outcome ndarray :=
  match frames with
  | O => RecursionError
  | S frames' => prediction_samples frames' self
  end.

(** [from_extract]: the copy made on entry, with the new data, and [self]
    after the call.  [combined_chains] is not set by [__init__]: the
    attribute is absent before the fit. *)
Definition from_extract (self : t) (extract : list ChainExtract)
    (X : Covariates) (y : array) : result (t * t) :=
  let new_model := self in
  cc <- attr (combined_chains (state self)) ;;
  ms <- getitem cc "model" ;;
  ps <- getitem cc "in_sample_predictions" ;;
  acc <- getitem cc "acceptance" ;;
  let st := state self in
  let self' :=
    with_state self
      (mk_fitted (sigma st) (data st) (model st) (Some ps) (Some ms)
         (SklearnModel.extract st) (combined_chains st) (Some acc)) in
  d <- _convert_covariates_to_data X y ;;
  let nst := state new_model in
  Ok (with_state new_model
        (mk_fitted (sigma nst) (Some d) (model nst) (_prediction_samples nst)
           (_model_samples nst) (SklearnModel.extract nst) (combined_chains nst)
           (_acceptance_trace nst)),
      self').

End SklearnModel.

(** ** Reference definitions

    What the specification says in its own words, over real numbers, to
    compare the code with. *)

Definition Rsum (l : list R) : R := fold_right Rplus 0 l.

Definition min_of (ys : list R) : R :=
  match ys with
  | [] => 0
  | x :: l => fold_right Rmin x l
  end.

Definition max_of (ys : list R) : R :=
  match ys with
  | [] => 0
  | x :: l => fold_right Rmax x l
  end.

(** A vector is constant when all its entries are equal. *)
Definition constant (ys : list R) : Prop :=
  forall a b, In a ys -> In b ys -> a = b.

(** [normalize(y) = -0.5 + (y - min(y)) / (max(y) - min(y))] *)
Definition spec_normalize (ys : list R) : list R :=
  map (fun v => -0.5 + (v - min_of ys) / (max_of ys - min_of ys)) ys.

(** [unnormalize(y) = min + (y + 0.5) * (max - min)] *)
Definition spec_unnormalize (lo hi : R) (vs : list R) : list R :=
  map (fun v => lo + (v + 0.5) * (hi - lo)) vs.

(** The sum of the target values over the observations whose mask entry is
    false. *)
Fixpoint masked_sum (ys : list R) (mask : list bool) : R :=
  match ys, mask with
  | v :: ys', b :: mask' => (if b then 0 else v) + masked_sum ys' mask'
  | _, _ => 0
  end.

(** The method calls that change a Target, and a Target after a sequence of
    them (a call that raises leaves the instance as it was). *)
Inductive target_call : Type :=
| Call_update_y (y : array)
| Call_summed_y.

Fixpoint after_calls (calls : list target_call) (self : Target.t) : Target.t :=
  match calls with
  | [] => self
  | Call_update_y y :: rest => after_calls rest (Target.update_y self y)
  | Call_summed_y :: rest =>
      after_calls rest
        (match Target.summed_y self with
         | Ok (_, self') => self'
         | Raise _ => self
         end)
  end.

(** Section 4.3: the draw of a leaf value, with
    [likelihood_var = sigma^2 / n],
    [posterior_variance = 1 / (1/prior_var + n/sigma^2)],
    [posterior_mean = likelihood_mean * prior_var / (likelihood_var + prior_var)]
    and [draw = posterior_mean + eps * sqrt(posterior_variance / n_trees)]. *)
Definition spec_leaf_draw (prior_var sigma : float64) (n : Z)
    (likelihood_mean eps : float64) (n_trees : Z) : float64 :=
  let sigma2 := fmul sigma sigma in
  let likelihood_var := fdiv sigma2 (of_int n) in
  let posterior_variance :=
    fdiv (Finite 1) (fadd (fdiv (Finite 1) prior_var) (fdiv (of_int n) sigma2)) in
  let posterior_mean :=
    fdiv (fmul likelihood_mean prior_var) (fadd likelihood_var prior_var) in
  fadd posterior_mean (fmul eps (fsqrt (fdiv posterior_variance (of_int n_trees)))).

(** The same draw over the reals, for positive variances. *)
Definition real_leaf_draw (prior_var sigma : R) (n : Z) (likelihood_mean eps : R)
    (n_trees : Z) : R :=
  likelihood_mean * prior_var / (sigma * sigma / IZR n + prior_var)
  + eps * sqrt (1 / (1 / prior_var + IZR n / (sigma * sigma)) / IZR n_trees).

(** The mean of entry [j] over a list of prediction vectors. *)
Definition mean_at (j : nat) (rows : list (list R)) : R :=
  Rsum (map (fun r => nth j r 0) rows) / INR (length rows).

(** The point prediction of section 4.8: the mean of the retained
    predictions, un-normalized with the stored minimum and maximum. *)
Definition spec_point_prediction (lo hi : R) (w : nat) (rows : list (list R)) : list R :=
  map (fun j => lo + (mean_at j rows + 0.5) * (hi - lo)) (seq 0 w).

(** Hyperparameters the specification calls malformed. *)
Definition malformed (p : SklearnModel.params) : Prop :=
  (SklearnModel.n_burn p < 0)%Z
  \/ ~ (0 < SklearnModel.thin p <= 1)
  \/ SklearnModel.p_grow p + SklearnModel.p_prune p <> 1.

(** The sequence of the entries of an array along axis 0. *)
Definition items (a : ndarray) : pylist :=
  match a with
  | Arr1 l => l
  | Arr2 _ rows => map PRow rows
  end.

(** The extract of one chain (section 3): the retained model snapshots, the
    acceptance trace and the rows of in-sample predictions. *)
Definition chain_extract (ms : list Model.t) (accs : list (list (string * bool)))
    (rows : list array) : ChainExtract :=
  [("model"%string, map PModel ms);
   ("acceptance"%string, map PAccept accs);
   ("in_sample_predictions"%string, map PRow rows)].

(** What one chain retained, and the extract made of it. *)
Definition retained : Type :=
  (list Model.t * list (list (string * bool)) * list array)%type.

Definition models_of (c : retained) : list Model.t := fst (fst c).
Definition accepts_of (c : retained) : list (list (string * bool)) := snd (fst c).
Definition rows_of_chain (c : retained) : list array := snd c.

Definition extract_of (c : retained) : ChainExtract :=
  chain_extract (models_of c) (accepts_of c) (rows_of_chain c).

(** A chain sampler that accepts whatever it is given and retains
    [n_samples] snapshots: a stand-in to run the facade on. *)
Definition retaining_samples (template : Model.t) (row : array)
    (_ : ModelSampler.t) (_ : Model.t) (n_samples _ : Z) (_ : R) (_ _ : bool)
    (w : World) : result (ChainExtract * World) :=
  Ok (chain_extract (repeat template (Z.to_nat n_samples))
        (repeat [] (Z.to_nat n_samples))
        (repeat row (Z.to_nat n_samples)),
      w).

(** The width of a two-dimensional array; [None] for a one-dimensional
    one. *)
Definition width_of (a : ndarray) : option nat :=
  match a with
  | Arr1 _ => None
  | Arr2 w _ => Some w
  end.

(** The cached sum is trustworthy: when the flag is set, [_summed_y] is the
    sum of the current values times the inverse mask. *)
Definition cache_coherent (self : Target.t) : Prop :=
  Target.y_sum_cache_up_to_date self = true ->
  exists products,
    broadcast (fun v m => fmul v (of_int m)) (Target._y self)
      (Target._inverse_mask_int self) = Ok products
    /\ Target._summed_y self = Some (np_sum products).

(** ** Example objects

    A generator whose k-th value is k, a store holding one scalar sampler
    with the pool (1, 2), and a leaf with the targets (1, 3) under a model
    with [sigma = sigma_m = 1] and one tree. *)

Definition example_world : World :=
  mkWorld INR 0 [NormalScalarSampler.mk 2 [Finite 1; Finite 2] 0].

Definition example_data : Data.t :=
  Data.mk [] (Target.mk None None [Finite 1; Finite 3] [false; false]
                (Target.inverse_mask_int [false; false]) 2 false None).

Definition example_model : Model.t :=
  Model.mk example_data (Sigma.mk 1 1 (Finite 1) (Finite 1)) (Finite 1) 1
    (fun X => map (fun _ => Finite 0) X).

Definition example_node : LeafNode.t := LeafNode.mk example_data (Finite 0).

(** A fitted facade: the training targets ranged over [0, 2], two prediction
    samples (0, 1) and (1, 0) were retained, and one model snapshot. *)

Definition example_normalizing_data : Data.t :=
  Data.mk [] (Target.mk (Some (Finite 0)) (Some (Finite 2))
                [Finite (-1 / 2); Finite (1 / 2)] [false; false]
                (Target.inverse_mask_int [false; false]) 2 false None).

Definition example_fitted : SklearnModel.t :=
  SklearnModel.with_state (SklearnModel.new 0%nat SklearnModel.default_params)
    (SklearnModel.mk_fitted None (Some example_normalizing_data) (Some example_model)
       (Some (Arr2 2 (map (map Finite) [[0; 1]; [1; 0]])))
       (Some (Arr1 (map PModel [example_model])))
       None None None).

(** Stand-ins for the absent constructors, and the hyperparameters of three
    chains of four samples with [thin = 1.0]. *)

Definition example_Sigma_init (a b : R) (scale : float64) : Sigma.t :=
  Sigma.mk a b scale (Finite 1).

Definition example_Model_init (d : Data.t) (sg : Sigma.t) (n_trees : Z)
    (_ _ : R) : Model.t :=
  Model.mk d sg (Finite 1) n_trees (fun X => map (fun _ => Finite 0) X).

Definition three_chains_params : SklearnModel.params :=
  SklearnModel.mk_params 50 3 0.001 0.001 4 200 1 0.5 0.5 0.95 2 true true (-1).

(** Hyperparameters with a negative [n_burn] and a [thin] above one; the
    other values are the defaults. *)
Definition malformed_params : SklearnModel.params :=
  SklearnModel.mk_params 50 4 0.001 0.001 200 (-1) 2 0.5 0.5 0.95 2 true true (-1).

(** * Properties *)

(** ** Arithmetic of the scalar model *)

(** Division and square root decide a real comparison: they are rewritten
    with the lemmas below, never unfolded by simplification. *)
Arguments fdiv : simpl never.
Arguments fsqrt : simpl never.

Lemma fdiv_finite (x y : R) : y <> 0 -> fdiv (Finite x) (Finite y) = Finite (x / y).
Proof.
  intros Hy. unfold fdiv. destruct (Req_dec_T y 0) as [E | _]; [contradiction | reflexivity].
Qed.

Lemma fdiv_zero (a : float64) : fdiv a (Finite 0) = NonFinite.
Proof.
  destruct a as [x |]; unfold fdiv; [| reflexivity].
  destruct (Req_dec_T 0 0) as [_ | N]; [reflexivity | exfalso; apply N; reflexivity].
Qed.

Lemma fdiv_same_zero (a : float64) (y : R) : y = 0 -> fdiv a (Finite y) = NonFinite.
Proof. intros ->. apply fdiv_zero. Qed.

Lemma fsqrt_finite (x : R) : 0 <= x -> fsqrt (Finite x) = Finite (sqrt x).
Proof.
  intros Hx. unfold fsqrt. destruct (Rle_dec 0 x) as [_ | N]; [reflexivity | contradiction].
Qed.

Lemma np_sum_finite (l : list R) : np_sum (map Finite l) = Finite (Rsum l).
Proof.
  induction l as [| x l IH]; [reflexivity |].
  unfold np_sum in *. simpl. rewrite IH. reflexivity.
Qed.

Lemma broadcast_same {A B C : Type} (f : A -> B -> C) (a : list A) (b : list B) :
  length a = length b -> broadcast f a b = Ok (zip_with f a b).
Proof.
  intros H. unfold broadcast. rewrite H, Nat.eqb_refl. reflexivity.
Qed.

Lemma zip_with_length {A B C : Type} (f : A -> B -> C) (a : list A) (b : list B) :
  length a = length b -> length (zip_with f a b) = length a.
Proof.
  revert b. induction a as [| x a IH]; intros [| y b] H; simpl in *; try discriminate; auto.
Qed.

(** ** Minimum and maximum of a vector *)

Lemma fold_min_finite (x : R) (l : list R) :
  fold_right fmin (Finite x) (map Finite l) = Finite (fold_right Rmin x l).
Proof.
  induction l as [| y l IH]; simpl; [reflexivity |].
  rewrite IH. reflexivity.
Qed.

Lemma fold_max_finite (x : R) (l : list R) :
  fold_right fmax (Finite x) (map Finite l) = Finite (fold_right Rmax x l).
Proof.
  induction l as [| y l IH]; simpl; [reflexivity |].
  rewrite IH. reflexivity.
Qed.

Lemma np_min_finite (ys : list R) :
  ys <> [] -> np_min (map Finite ys) = Ok (Finite (min_of ys)).
Proof.
  destruct ys as [| x l]; [congruence |]. intros _. simpl.
  rewrite fold_min_finite. reflexivity.
Qed.

Lemma np_max_finite (ys : list R) :
  ys <> [] -> np_max (map Finite ys) = Ok (Finite (max_of ys)).
Proof.
  destruct ys as [| x l]; [congruence |]. intros _. simpl.
  rewrite fold_max_finite. reflexivity.
Qed.

Lemma fold_min_le (x : R) (l : list R) :
  fold_right Rmin x l <= x /\ forall a, In a l -> fold_right Rmin x l <= a.
Proof.
  induction l as [| y l [IHx IHl]]; simpl.
  - split; [lra | tauto].
  - split.
    + eapply Rle_trans; [apply Rmin_r | exact IHx].
    + intros a [<- | Ha]; [apply Rmin_l |].
      eapply Rle_trans; [apply Rmin_r | auto].
Qed.

Lemma fold_max_ge (x : R) (l : list R) :
  x <= fold_right Rmax x l /\ forall a, In a l -> a <= fold_right Rmax x l.
Proof.
  induction l as [| y l [IHx IHl]]; simpl.
  - split; [lra | tauto].
  - split.
    + eapply Rle_trans; [exact IHx | apply Rmax_r].
    + intros a [<- | Ha]; [apply Rmax_l |].
      eapply Rle_trans; [| apply Rmax_r]. auto.
Qed.

Lemma min_of_le (ys : list R) (a : R) : In a ys -> min_of ys <= a.
Proof.
  destruct ys as [| x l]; [contradiction |]. simpl.
  destruct (fold_min_le x l) as [Hx Hl].
  intros [<- | Ha]; auto.
Qed.

Lemma max_of_ge (ys : list R) (a : R) : In a ys -> a <= max_of ys.
Proof.
  destruct ys as [| x l]; [contradiction |]. simpl.
  destruct (fold_max_ge x l) as [Hx Hl].
  intros [<- | Ha]; auto.
Qed.

Lemma min_eq_max_constant (ys : list R) : min_of ys = max_of ys -> constant ys.
Proof.
  intros E a b Ha Hb.
  pose proof (min_of_le ys a Ha). pose proof (max_of_ge ys a Ha).
  pose proof (min_of_le ys b Hb). pose proof (max_of_ge ys b Hb).
  lra.
Qed.

Lemma fold_min_constant (x : R) (l : list R) :
  (forall a, In a l -> a = x) -> fold_right Rmin x l = x.
Proof.
  induction l as [| y l IH]; simpl; intros H; [reflexivity |].
  rewrite IH by auto. rewrite (H y) by auto.
  unfold Rmin. destruct (Rle_dec x x); reflexivity.
Qed.

Lemma fold_max_constant (x : R) (l : list R) :
  (forall a, In a l -> a = x) -> fold_right Rmax x l = x.
Proof.
  induction l as [| y l IH]; simpl; intros H; [reflexivity |].
  rewrite IH by auto. rewrite (H y) by auto.
  unfold Rmax. destruct (Rle_dec x x); reflexivity.
Qed.

Lemma constant_min_eq_max (ys : list R) : constant ys -> min_of ys = max_of ys.
Proof.
  destruct ys as [| x l]; [reflexivity |]. intros C. simpl.
  assert (H : forall a, In a l -> a = x).
  { intros a Ha. apply C; simpl; auto. }
  rewrite fold_min_constant, fold_max_constant by exact H. reflexivity.
Qed.

(** ** Target: normalization *)

Lemma not_constant_nonempty (ys : list R) : ~ constant ys -> ys <> [].
Proof.
  intros N E. apply N. subst ys. intros a b [].
Qed.

Lemma not_constant_range (ys : list R) : ~ constant ys -> max_of ys - min_of ys <> 0.
Proof.
  intros N E. apply N, min_eq_max_constant. lra.
Qed.

Lemma normalize_y_finite (ys : list R) :
  ys <> [] -> max_of ys - min_of ys <> 0 ->
  Target.normalize_y (map Finite ys) = Ok (map Finite (spec_normalize ys)).
Proof.
  intros Hne Hr. unfold Target.normalize_y.
  rewrite np_min_finite, np_max_finite by exact Hne. simpl.
  unfold spec_normalize. rewrite !map_map. f_equal.
  apply map_ext. intros v. simpl. rewrite fdiv_finite by exact Hr. reflexivity.
Qed.

Lemma unnormalize_y_finite (t : Target.t) (lo hi : R) (vs : list R) :
  Target.original_y_min t = Some (Finite lo) ->
  Target.original_y_max t = Some (Finite hi) ->
  Target.unnormalize_y t (map Finite vs)
  = Ok (map Finite (spec_unnormalize lo hi vs)).
Proof.
  intros Hlo Hhi. unfold Target.unnormalize_y. rewrite Hlo, Hhi. simpl.
  unfold spec_unnormalize. rewrite !map_map. f_equal.
  apply map_ext. intros v. simpl. f_equal. lra.
Qed.

Lemma spec_roundtrip (ys : list R) :
  max_of ys - min_of ys <> 0 ->
  spec_unnormalize (min_of ys) (max_of ys) (spec_normalize ys) = ys.
Proof.
  intros Hr. unfold spec_unnormalize, spec_normalize. rewrite map_map.
  transitivity (map (fun v : R => v) ys); [| apply map_id].
  apply map_ext. intros v. cbv beta.
  assert (E : (v - min_of ys) / (max_of ys - min_of ys) * (max_of ys - min_of ys)
              = v - min_of ys) by (field; exact Hr).
  lra.
Qed.

(** C2, as the code has it.  Read over the real numbers, for every finite
    vector [ys] that is not constant, [normalize_y] maps each value [v] to
    [-0.5 + (v - min) / (max - min)], a Target built with [normalize]
    stores the minimum and the maximum, [unnormalize_y] maps each value [v]
    to [min + (v + 0.5) * (max - min)], and un-normalizing the normalized
    values gives [ys] back.  On binary64 the docstring's vector [1, 2, 3]
    is normalized to [-0.5, 0, 0.5] and comes back as it was. *)
Theorem roundtrip_in_exact_arithmetic
    (ys : list R) (mask : list bool) (n : Z) (y_sum : option float64) :
  ~ constant ys ->
  Target.normalize_y (map Finite ys) = Ok (map Finite (spec_normalize ys))
  /\ (exists t,
       Target.init (map Finite ys) mask n true y_sum = Ok t
       /\ Target.values t = map Finite (spec_normalize ys)
       /\ (forall vs,
             Target.unnormalize_y t (map Finite vs)
             = Ok (map Finite (spec_unnormalize (min_of ys) (max_of ys) vs)))
       /\ Target.unnormalize_y t (Target.values t) = Ok (map Finite ys)
       /\ Target.unnormalized_y t = Ok (map Finite ys))
  /\ Binary64.normalize_y [1%float; 2%float; 3%float]
     = Ok [(-0.5)%float; 0%float; 0.5%float]
  /\ Binary64.unnormalized_y [1%float; 2%float; 3%float]
     = Ok [1%float; 2%float; 3%float].
Proof.
  intros N.
  pose proof (not_constant_nonempty ys N) as Hne.
  pose proof (not_constant_range ys N) as Hr.
  split; [apply normalize_y_finite; assumption |].
  split; [| split; reflexivity].
  unfold Target.init.
  rewrite np_min_finite, np_max_finite by exact Hne.
  rewrite normalize_y_finite by assumption. simpl.
  assert (RT : forall t,
             Target.original_y_min t = Some (Finite (min_of ys)) ->
             Target.original_y_max t = Some (Finite (max_of ys)) ->
             Target.unnormalize_y t (map Finite (spec_normalize ys)) = Ok (map Finite ys)).
  { intros t Hlo Hhi. rewrite (unnormalize_y_finite t _ _ _ Hlo Hhi).
    rewrite spec_roundtrip by exact Hr. reflexivity. }
  destruct y_sum as [s |]; eexists; (split; [reflexivity |]);
    (split; [reflexivity |]);
    (split; [intros vs; apply unnormalize_y_finite; reflexivity |]);
    (split; [apply RT; reflexivity | apply RT; reflexivity]).
Qed.

Lemma roundtrip_in_exact_arithmetic_witness :
  ~ constant [1; 2; 3]
  /\ exists t,
       Target.init (map Finite [1; 2; 3]) [false; false; false] 3 true None = Ok t
       /\ Target.unnormalized_y t = Ok (map Finite [1; 2; 3]).
Proof.
  assert (N : ~ constant [1; 2; 3]).
  { intros C. specialize (C 1 2). simpl in C. lra. }
  split; [exact N |].
  destruct (roundtrip_in_exact_arithmetic [1; 2; 3] [false; false; false] 3 None N)
    as [_ [[t [Hinit [_ [_ [_ Hu]]]]] _]].
  exists t. split; assumption.
Defined.

(** C2 as specified (the round trip returns every finite non-constant
    vector within floating tolerance) fails on binary64.  On
    [-1e308, 1e308], two finite values, [max - min] overflows to infinity,
    the normalized values are [-0.5, nan] and the round trip returns
    [nan, nan].  On [0, 1, 1e17] the normalized 1 is rounded to -0.5 and
    comes back as 0. *)
Lemma roundtrip_binary64_counterexample :
  Binary64.normalize_y [(-1e308)%float; 1e308%float]
  = Ok [(-0.5)%float; PrimFloat.nan]
  /\ Binary64.unnormalized_y [(-1e308)%float; 1e308%float]
     = Ok [PrimFloat.nan; PrimFloat.nan]
  /\ Binary64.normalize_y [0%float; 1%float; 1e17%float]
     = Ok [(-0.5)%float; (-0.5)%float; 0.5%float]
  /\ Binary64.unnormalized_y [0%float; 1%float; 1e17%float]
     = Ok [0%float; 0%float; 1e17%float].
Proof. repeat split; vm_compute; reflexivity. Qed.

Lemma constant_all_equal (ys : list R) (v : R) :
  constant ys -> In v ys -> v = min_of ys /\ max_of ys - min_of ys = 0.
Proof.
  intros C Hv.
  pose proof (constant_min_eq_max ys C) as E.
  pose proof (min_of_le ys v Hv). pose proof (max_of_ge ys v Hv).
  split; lra.
Qed.

Lemma normalize_y_constant (ys : list R) :
  ys <> [] -> constant ys ->
  Target.normalize_y (map Finite ys) = Ok (map (fun _ => NonFinite) ys).
Proof.
  intros Hne C. unfold Target.normalize_y.
  rewrite np_min_finite, np_max_finite by exact Hne. simpl.
  rewrite map_map. f_equal. apply map_ext_in. intros v Hv.
  destruct (constant_all_equal ys v C Hv) as [_ E].
  simpl. rewrite (fdiv_same_zero _ _ E). reflexivity.
Qed.

(** C7, as the code has it.  A constant target is not guarded: for every
    non-empty constant finite vector, [normalize_y] raises nothing and
    returns a vector of the same size whose every entry is non-finite
    (0/0), and a Target built with [normalize] stores these values next to
    [original_y_min = original_y_max]. *)
Theorem constant_target_normalizes_to_nan
    (ys : list R) (mask : list bool) (n : Z) (y_sum : option float64) :
  ys <> [] -> constant ys ->
  Target.normalize_y (map Finite ys) = Ok (map (fun _ => NonFinite) ys)
  /\ exists t,
       Target.init (map Finite ys) mask n true y_sum = Ok t
       /\ Target.values t = map (fun _ => NonFinite) ys
       /\ Target.original_y_min t = Some (Finite (min_of ys))
       /\ Target.original_y_max t = Some (Finite (min_of ys))
       /\ forall v, In v (Target.values t) -> ~ is_finite v.
Proof.
  intros Hne C. split; [apply normalize_y_constant; assumption |].
  unfold Target.init.
  rewrite np_min_finite, np_max_finite by exact Hne.
  rewrite normalize_y_constant by assumption.
  rewrite <- (constant_min_eq_max ys C). simpl.
  assert (NF : forall v, In v (map (fun _ : R => NonFinite) ys) -> ~ is_finite v).
  { intros v Hv. apply in_map_iff in Hv. destruct Hv as [x [<- _]]. simpl. tauto. }
  destruct y_sum as [s |]; eexists; repeat (split; [reflexivity |]); exact NF.
Qed.

Lemma constant_target_normalizes_to_nan_witness :
  [1; 1] <> [] /\ constant [1; 1]
  /\ Target.normalize_y (map Finite [1; 1]) = Ok (map (fun _ => NonFinite) [1; 1]).
Proof.
  assert (Hne : [1; 1] <> []) by discriminate.
  assert (C : constant [1; 1]).
  { intros a b Ha Hb. simpl in Ha, Hb.
    destruct Ha as [<- | [<- | []]]; destruct Hb as [<- | [<- | []]]; reflexivity. }
  split; [exact Hne |]. split; [exact C |].
  exact (proj1 (constant_target_normalizes_to_nan [1; 1] [false; false] 2 None Hne C)).
Defined.

(** C7 as specified (a constant target never yields non-finite values)
    fails on the constant vector [1, 1]: normalizing it raises nothing and
    yields non-finite values. *)
Lemma constant_target_counterexample :
  constant [1; 1]
  /\ Target.normalize_y [Finite 1; Finite 1] = Ok [NonFinite; NonFinite]
  /\ ~ Forall is_finite [NonFinite; NonFinite]
  /\ exists t,
       Target.init [Finite 1; Finite 1] [false; false] 2 true None = Ok t
       /\ Target.values t = [NonFinite; NonFinite].
Proof.
  assert (Hne : [1; 1] <> []) by discriminate.
  assert (C : constant [1; 1]).
  { intros a b Ha Hb. simpl in Ha, Hb.
    destruct Ha as [<- | [<- | []]]; destruct Hb as [<- | [<- | []]]; reflexivity. }
  split; [exact C |].
  split; [exact (normalize_y_constant [1; 1] Hne C) |].
  split.
  - intros F. inversion F as [| a l Ha _]. exact Ha.
  - unfold Target.init.
    change [Finite 1; Finite 1] with (map Finite [1; 1]).
    rewrite np_min_finite, np_max_finite by exact Hne.
    rewrite normalize_y_constant by assumption. simpl.
    eexists. split; reflexivity.
Qed.

(** ** Target: attributes of a Target that does not normalize *)

Lemma summed_y_keeps_min_max (t t' : Target.t) (v : option float64) :
  Target.summed_y t = Ok (v, t') ->
  Target.original_y_min t' = Target.original_y_min t
  /\ Target.original_y_max t' = Target.original_y_max t.
Proof.
  unfold Target.summed_y.
  destruct (Target.y_sum_cache_up_to_date t).
  - intros H. injection H as _ <-. split; reflexivity.
  - destruct (broadcast _ _ _) as [p | e]; simpl; [| discriminate].
    intros H. injection H as _ <-. split; reflexivity.
Qed.

Lemma after_calls_keeps_min_max (calls : list target_call) (t : Target.t) :
  Target.original_y_min (after_calls calls t) = Target.original_y_min t
  /\ Target.original_y_max (after_calls calls t) = Target.original_y_max t.
Proof.
  revert t. induction calls as [| c calls IH]; intros t; simpl; [split; reflexivity |].
  destruct c as [y |].
  - destruct (IH (Target.update_y t y)) as [-> ->]. split; reflexivity.
  - destruct (Target.summed_y t) as [[v t'] | e] eqn:E.
    + destruct (IH t') as [-> ->]. exact (summed_y_keeps_min_max t t' v E).
    + apply IH.
Qed.

(** C10.  A Target built with [normalize=False] has neither
    [original_y_min] nor [original_y_max], whatever is called on it
    afterwards; [unnormalize_y], [unnormalized_y] and [normalizing_scale]
    then raise AttributeError. *)
Theorem unnormalize_needs_normalizing_target
    (y : array) (mask : list bool) (n : Z) (y_sum : option float64) :
  exists t,
    Target.init y mask n false y_sum = Ok t
    /\ forall (calls : list target_call) (v : array),
         let t' := after_calls calls t in
         Target.original_y_min t' = None
         /\ Target.original_y_max t' = None
         /\ Target.unnormalize_y t' v = Raise AttributeError
         /\ Target.unnormalized_y t' = Raise AttributeError
         /\ Target.normalizing_scale t' = Raise AttributeError.
Proof.
  assert (K : forall t, Target.original_y_min t = None -> Target.original_y_max t = None ->
            forall calls v,
              let t' := after_calls calls t in
              Target.original_y_min t' = None
              /\ Target.original_y_max t' = None
              /\ Target.unnormalize_y t' v = Raise AttributeError
              /\ Target.unnormalized_y t' = Raise AttributeError
              /\ Target.normalizing_scale t' = Raise AttributeError).
  { intros t Hlo Hhi calls v t'.
    destruct (after_calls_keeps_min_max calls t) as [Elo Ehi].
    fold t' in Elo, Ehi. rewrite Hlo in Elo. rewrite Hhi in Ehi.
    unfold Target.unnormalized_y, Target.unnormalize_y, Target.normalizing_scale.
    rewrite Ehi. simpl. repeat split; assumption. }
  unfold Target.init. simpl.
  destruct y_sum as [s |]; eexists; (split; [reflexivity |]); apply K; reflexivity.
Qed.

(** ** Target: the cached sum *)

Lemma masked_product_sum (ys : list R) (mask : list bool) :
  np_sum (zip_with (fun v m => fmul v (of_int m)) (map Finite ys)
            (Target.inverse_mask_int mask))
  = Finite (masked_sum ys mask).
Proof.
  revert mask. induction ys as [| v ys IH]; intros mask; [reflexivity |].
  destruct mask as [| b mask]; [reflexivity |].
  unfold np_sum in *. simpl. rewrite IH. simpl. f_equal.
  destruct b; simpl; lra.
Qed.

Lemma summed_y_recomputes (t : Target.t) (ys : list R) :
  Target._inverse_mask_int t = Target.inverse_mask_int (Target._mask t) ->
  Target._y t = map Finite ys ->
  length ys = length (Target._mask t) ->
  Target.y_sum_cache_up_to_date t = false ->
  Target.summed_y t
  = Ok (Some (Finite (masked_sum ys (Target._mask t))),
        Target.set_cache t (Some (Finite (masked_sum ys (Target._mask t)))) true).
Proof.
  intros Hinv Hy Hlen Hstale. unfold Target.summed_y.
  rewrite Hstale, Hinv, Hy.
  rewrite broadcast_same.
  - simpl. rewrite masked_product_sum. reflexivity.
  - unfold Target.inverse_mask_int. rewrite !length_map. exact Hlen.
Qed.

Lemma summed_y_idempotent (t t1 : Target.t) (v : option float64) :
  Target.summed_y t = Ok (v, t1) -> Target.summed_y t1 = Ok (v, t1).
Proof.
  unfold Target.summed_y at 1.
  destruct (Target.y_sum_cache_up_to_date t) eqn:F.
  - intros H. injection H as <- <-. unfold Target.summed_y. rewrite F. reflexivity.
  - destruct (broadcast _ _ _) as [p | e]; simpl; [| discriminate].
    intros H. injection H as <- <-. reflexivity.
Qed.

(** C3.  For a Target whose values [ys] and mask have one size:
    when the cache is stale, [summed_y] returns the sum of the values whose
    mask entry is false, computed as [sum(values * inverse_mask)], and marks
    the cache valid; it returns that sum as well when the cache is valid and
    holds it; [update_y] replaces the values and clears the flag, whatever
    the flag was; [summed_y] right after [update_y] is the sum over the new
    values; and a second call, with nothing in between, returns what the
    first returned and leaves the Target as it is. *)
Theorem summed_y_cache (t : Target.t) (ys ys' : list R) :
  Target._inverse_mask_int t = Target.inverse_mask_int (Target._mask t) ->
  Target.values t = map Finite ys ->
  length ys = length (Target._mask t) ->
  length ys' = length (Target._mask t) ->
  let total := Some (Finite (masked_sum ys (Target._mask t))) in
  let total' := Some (Finite (masked_sum ys' (Target._mask t))) in
  let t' := Target.update_y t (map Finite ys') in
  (Target.y_sum_cache_up_to_date t = false ->
   Target.summed_y t = Ok (total, Target.set_cache t total true))
  /\ ((Target.y_sum_cache_up_to_date t = true -> Target._summed_y t = total) ->
      exists t1,
        Target.summed_y t = Ok (total, t1)
        /\ Target.y_sum_cache_up_to_date t1 = true
        /\ Target._summed_y t1 = total)
  /\ (Target.values t' = map Finite ys'
      /\ Target.y_sum_cache_up_to_date t' = false
      /\ Target._mask t' = Target._mask t)
  /\ (exists t1,
        Target.summed_y t' = Ok (total', t1)
        /\ Target.y_sum_cache_up_to_date t1 = true
        /\ Target.summed_y t1 = Ok (total', t1))
  /\ (forall v t1, Target.summed_y t = Ok (v, t1) -> Target.summed_y t1 = Ok (v, t1)).
Proof.
  intros Hinv Hy Hlen Hlen' total total' t'.
  unfold Target.values in Hy.
  split; [intros Hstale; apply summed_y_recomputes; assumption |].
  split.
  { intros Hcache. destruct (Target.y_sum_cache_up_to_date t) eqn:F.
    - exists t. unfold Target.summed_y. rewrite F, (Hcache eq_refl).
      repeat split; auto.
    - eexists. split; [apply summed_y_recomputes; assumption |].
      split; reflexivity. }
  split; [repeat split |].
  split; [| intros v t1; apply summed_y_idempotent].
  assert (E : Target.summed_y t' = Ok (total', Target.set_cache t' total' true)).
  { apply (summed_y_recomputes t' ys'); try reflexivity; assumption. }
  eexists. split; [exact E |]. split; [reflexivity |].
  exact (summed_y_idempotent _ _ _ E).
Qed.

Lemma summed_y_cache_witness :
  exists t1,
    Target.summed_y
      (Target.update_y
         (Target.mk None None [Finite 1; Finite 2] [true; false]
            (Target.inverse_mask_int [true; false]) 2 true (Some (Finite 7)))
         [Finite 3; Finite 4])
    = Ok (Some (Finite (masked_sum [3; 4] [true; false])), t1)
    /\ Target.y_sum_cache_up_to_date t1 = true
    /\ Target.summed_y t1 = Ok (Some (Finite (masked_sum [3; 4] [true; false])), t1).
Proof.
  exact (proj1 (proj2 (proj2 (proj2
    (summed_y_cache
       (Target.mk None None [Finite 1; Finite 2] [true; false]
          (Target.inverse_mask_int [true; false]) 2 true (Some (Finite 7)))
       [1; 2] [3; 4] eq_refl eq_refl eq_refl eq_refl))))).
Defined.

(** ** LeafNodeSampler: the posterior draw *)

Lemma fdiv_nonfinite_l (b : float64) : fdiv NonFinite b = NonFinite.
Proof. reflexivity. Qed.

Lemma fdiv_nonfinite_r (a : float64) : fdiv a NonFinite = NonFinite.
Proof. destruct a; reflexivity. Qed.

Lemma IZR_pos_neq (n : Z) : (1 <= n)%Z -> IZR n <> 0.
Proof. intros H. apply not_0_IZR. lia. Qed.

Lemma IZR_pos (n : Z) : (1 <= n)%Z -> 0 < IZR n.
Proof. intros H. apply (IZR_lt 0). lia. Qed.

(** [1 / (a / n)] and [n / a] agree, also when [a] is zero or non-finite. *)
Lemma inverse_of_quotient (a : float64) (n : Z) :
  (1 <= n)%Z -> fdiv (Finite 1) (fdiv a (of_int n)) = fdiv (of_int n) a.
Proof.
  intros Hn. pose proof (IZR_pos_neq n Hn) as Hz. unfold of_int.
  destruct a as [x |]; [| reflexivity].
  rewrite (fdiv_finite x _ Hz).
  destruct (Req_dec_T x 0) as [-> | Hx].
  - rewrite fdiv_zero. apply fdiv_same_zero. unfold Rdiv. apply Rmult_0_l.
  - rewrite !fdiv_finite.
    + f_equal. field. split; assumption.
    + exact Hx.
    + unfold Rdiv. apply Rmult_integral_contrapositive. split; [exact Hx |].
      apply Rinv_neq_0_compat. exact Hz.
Qed.

(** [a * (b / c)] and [(a * b) / c] agree. *)
Lemma fmul_fdiv (a b c : float64) : fmul a (fdiv b c) = fdiv (fmul a b) c.
Proof.
  destruct a as [x |], b as [y |], c as [z |]; try reflexivity.
  simpl fmul at 2.
  destruct (Req_dec_T z 0) as [-> | Hz].
  - rewrite !fdiv_zero. reflexivity.
  - rewrite !fdiv_finite by exact Hz. simpl. f_equal. field. exact Hz.
Qed.

(** The code's [sample] is the draw of section 4.3 applied to the next value
    of the scalar sampler, and fails exactly when the scalar sampler does. *)
Lemma sample_is_spec_draw
    (self : LeafNodeSampler.t) (model : Model.t) (node : LeafNode.t) (w : World) :
  (1 <= Data.n_obsv (LeafNode.data node))%Z ->
  LeafNodeSampler.sample self model node w
  = ('(eps, w') <- NormalScalarSampler_sample (LeafNodeSampler._scalar_sampler self) w ;;
     Ok (spec_leaf_draw (fmul (Model.sigma_m model) (Model.sigma_m model))
           (Sigma.current_value (Model.sigma model))
           (Data.n_obsv (LeafNode.data node))
           (np_mean (Data.y (LeafNode.data node))) eps (Model.n_trees model),
         w')).
Proof.
  intros Hn. unfold LeafNodeSampler.sample, spec_leaf_draw.
  rewrite (inverse_of_quotient _ _ Hn), fmul_fdiv. reflexivity.
Qed.

Lemma spec_leaf_draw_real (pv s lm e : R) (n nt : Z) :
  0 < pv -> s <> 0 -> (1 <= n)%Z -> (1 <= nt)%Z ->
  spec_leaf_draw (Finite pv) (Finite s) n (Finite lm) (Finite e) nt
  = Finite (real_leaf_draw pv s n lm e nt).
Proof.
  intros Hpv Hs Hn Hnt.
  pose proof (IZR_pos n Hn) as Pn. pose proof (IZR_pos nt Hnt) as Pnt.
  assert (Ps : 0 < s * s) by nra.
  assert (Plv : 0 < s * s / IZR n) by (apply Rdiv_lt_0_compat; assumption).
  assert (Pip : 0 < 1 / pv) by (apply Rdiv_lt_0_compat; lra).
  assert (Pil : 0 < IZR n / (s * s)) by (apply Rdiv_lt_0_compat; assumption).
  assert (Ppost : 0 < 1 / (1 / pv + IZR n / (s * s))) by (apply Rdiv_lt_0_compat; lra).
  assert (Pq : 0 < 1 / (1 / pv + IZR n / (s * s)) / IZR nt)
    by (apply Rdiv_lt_0_compat; assumption).
  unfold spec_leaf_draw, real_leaf_draw, of_int. simpl fmul.
  rewrite (fdiv_finite (s * s) (IZR n)) by lra.
  rewrite (fdiv_finite 1 pv) by lra.
  rewrite (fdiv_finite (IZR n) (s * s)) by lra.
  simpl fadd.
  rewrite (fdiv_finite 1 (1 / pv + IZR n / (s * s))) by lra.
  rewrite (fdiv_finite (lm * pv) (s * s / IZR n + pv)) by lra.
  rewrite (fdiv_finite _ (IZR nt)) by lra.
  rewrite fsqrt_finite by lra.
  reflexivity.
Qed.

(** C1.  For a leaf with [n >= 1] observations, a finite non-zero noise
    level [sigma] and a finite non-zero prior scale [sigma_m], [sample]
    returns [posterior_mean + eps * sqrt(posterior_variance / n_trees)]
    with [likelihood_var = sigma^2 / n],
    [posterior_variance = 1 / (1/prior_var + n/sigma^2)],
    [posterior_mean = likelihood_mean * prior_var / (likelihood_var + prior_var)],
    [prior_var = sigma_m^2], [likelihood_mean] the mean of the node's
    targets and [eps] the next draw of the scalar sampler; [step] returns
    the same value and sets the node's value to it.  With a finite mean,
    a finite draw and at least one tree the value is the real number
    [real_leaf_draw]. *)
Theorem leaf_sample_is_posterior_draw
    (self : LeafNodeSampler.t) (model : Model.t) (node : LeafNode.t)
    (w w' : World) (eps : float64) (sm s : R) :
  (1 <= Data.n_obsv (LeafNode.data node))%Z ->
  Model.sigma_m model = Finite sm -> sm <> 0 ->
  Sigma.current_value (Model.sigma model) = Finite s -> s <> 0 ->
  NormalScalarSampler_sample (LeafNodeSampler._scalar_sampler self) w = Ok (eps, w') ->
  let draw :=
    spec_leaf_draw (Finite (sm * sm)) (Finite s)
      (Data.n_obsv (LeafNode.data node))
      (np_mean (Data.y (LeafNode.data node))) eps (Model.n_trees model) in
  LeafNodeSampler.sample self model node w = Ok (draw, w')
  /\ LeafNodeSampler.step self model node w
     = Ok (draw, LeafNode.set_value node draw, w')
  /\ LeafNode.current_value (LeafNode.set_value node draw) = draw
  /\ LeafNode.data (LeafNode.set_value node draw) = LeafNode.data node
  /\ forall lm e : R,
       np_mean (Data.y (LeafNode.data node)) = Finite lm ->
       eps = Finite e ->
       (1 <= Model.n_trees model)%Z ->
       draw = Finite (real_leaf_draw (sm * sm) s (Data.n_obsv (LeafNode.data node))
                        lm e (Model.n_trees model)).
Proof.
  intros Hn Hsm Nsm Hs Ns Hdraw draw.
  assert (E : LeafNodeSampler.sample self model node w = Ok (draw, w')).
  { rewrite (sample_is_spec_draw self model node w Hn), Hdraw.
    unfold draw. rewrite Hsm, Hs. reflexivity. }
  split; [exact E |].
  split; [unfold LeafNodeSampler.step; rewrite E; reflexivity |].
  split; [reflexivity |]. split; [reflexivity |].
  intros lm e Hlm He Hnt. unfold draw.
  rewrite Hlm, He.
  apply spec_leaf_draw_real; try assumption; nra.
Qed.

Lemma leaf_sample_is_posterior_draw_witness :
  (1 <= Data.n_obsv (LeafNode.data example_node))%Z
  /\ exists w',
       LeafNodeSampler.sample (LeafNodeSampler.mk 0%nat) example_model example_node
         example_world
       = Ok (spec_leaf_draw (Finite (1 * 1)) (Finite 1) 2
               (np_mean [Finite 1; Finite 3]) (Finite 1) 1, w').
Proof.
  assert (Hn : (1 <= Data.n_obsv (LeafNode.data example_node))%Z)
    by (cbv; discriminate).
  split; [exact Hn |].
  eexists.
  exact (proj1 (leaf_sample_is_posterior_draw (LeafNodeSampler.mk 0%nat) example_model
                  example_node example_world _ (Finite 1) 1 1 Hn eq_refl
                  R1_neq_R0 eq_refl R1_neq_R0 eq_refl)).
Defined.

(** ** LeafNodeSampler: the default scalar sampler *)

Lemma nth_error_map_seq {A : Type} (f : nat -> A) (n i : nat) :
  (i < n)%nat -> nth_error (map f (seq 0 n)) i = Some (f i).
Proof.
  intros H. rewrite nth_error_map, nth_error_seq.
  destruct (Nat.ltb_spec i n); [reflexivity | lia].
Qed.

Lemma nth_error_app_last {A : Type} (l : list A) (a : A) :
  nth_error (l ++ [a]) (length l) = Some a.
Proof.
  rewrite nth_error_app2 by lia. rewrite Nat.sub_diag. reflexivity.
Qed.

Lemma set_nth_app_last {A : Type} (l : list A) (a b : A) :
  set_nth (l ++ [a]) (length l) b = l ++ [b].
Proof.
  induction l as [| x l IH]; simpl; [reflexivity | rewrite IH; reflexivity].
Qed.

(** A draw while the pool is not exhausted returns the value under the
    cursor and moves the cursor by one; nothing else changes. *)
Lemma sample_from_pool (l : loc) (w : World) (s : NormalScalarSampler.t) (v : float64) :
  nth_error (heap w) l = Some s ->
  nth_error (NormalScalarSampler.pool s) (NormalScalarSampler.cursor s) = Some v ->
  NormalScalarSampler_sample l w
  = Ok (v, store l (NormalScalarSampler.mk (NormalScalarSampler.cache_size s)
                      (NormalScalarSampler.pool s)
                      (S (NormalScalarSampler.cursor s))) w).
Proof.
  intros Hs Hv. unfold NormalScalarSampler_sample. rewrite Hs.
  assert (Hlt : (NormalScalarSampler.cursor s
                 < length (NormalScalarSampler.pool s))%nat).
  { apply nth_error_Some. rewrite Hv. discriminate. }
  destruct (Nat.ltb_spec (NormalScalarSampler.cursor s)
              (length (NormalScalarSampler.pool s))) as [_ | Hbad]; [| lia].
  rewrite Hv. reflexivity.
Qed.

(** A scalar sampler built with a pool of at least two values hands out the
    generator's next two values, in order, to whoever draws from its
    location. *)
Lemma init_then_two_draws (k : Z) (w : World) :
  (2 <= k)%Z ->
  exists w0 w1 w2,
    NormalScalarSampler_init k w = (length (heap w), w0)
    /\ NormalScalarSampler_sample (length (heap w)) w0
       = Ok (Finite (randn w (drawn w)), w1)
    /\ NormalScalarSampler_sample (length (heap w)) w1
       = Ok (Finite (randn w (S (drawn w))), w2).
Proof.
  intros Hk.
  assert (HN : (2 <= Z.to_nat k)%nat) by lia.
  unfold NormalScalarSampler_init, np_random_normal, alloc.
  remember (Z.to_nat k) as N eqn:EN. cbn [heap randn drawn].
  remember (map (fun i => Finite (randn w (drawn w + i))) (seq 0 N)) as batch eqn:EB.
  assert (B0 : nth_error batch 0 = Some (Finite (randn w (drawn w)))).
  { subst batch. rewrite nth_error_map_seq by lia. rewrite Nat.add_0_r. reflexivity. }
  assert (B1 : nth_error batch 1 = Some (Finite (randn w (S (drawn w))))).
  { subst batch. rewrite nth_error_map_seq by lia. rewrite Nat.add_1_r. reflexivity. }
  eexists. eexists. eexists. split; [reflexivity |].
  split.
  - rewrite (sample_from_pool _ _ (NormalScalarSampler.mk k batch 0)
               (Finite (randn w (drawn w)))).
    + reflexivity.
    + cbn [heap]. apply nth_error_app_last.
    + exact B0.
  - unfold store. cbn [heap randn drawn NormalScalarSampler.cursor
                       NormalScalarSampler.pool NormalScalarSampler.cache_size].
    rewrite set_nth_app_last.
    rewrite (sample_from_pool _ _ (NormalScalarSampler.mk k batch 1)
               (Finite (randn w (S (drawn w))))).
    + reflexivity.
    + cbn [heap]. apply nth_error_app_last.
    + exact B1.
Qed.

(** C4, on the code.  The default of [__init__] is one object, made when
    the module is executed: two samplers built without [scalar_sampler] hold
    the same location, and after one draw through the first the second
    receives the generator's second value where, undisturbed, it would have
    received the first; so does [sample] on a leaf. *)
Theorem default_scalar_sampler_is_shared (w : World) :
  exists d w0 w1 w2,
    LeafNodeSampler.import w = (d, w0)
    /\ LeafNodeSampler._scalar_sampler (LeafNodeSampler.init d None)
       = LeafNodeSampler._scalar_sampler (LeafNodeSampler.init d None)
    /\ LeafNodeSampler._scalar_sampler (LeafNodeSampler.init d None) = d
    /\ NormalScalarSampler_sample
         (LeafNodeSampler._scalar_sampler (LeafNodeSampler.init d None)) w0
       = Ok (Finite (randn w (drawn w)), w1)
    /\ NormalScalarSampler_sample
         (LeafNodeSampler._scalar_sampler (LeafNodeSampler.init d None)) w1
       = Ok (Finite (randn w (S (drawn w))), w2)
    /\ (let a := LeafNodeSampler.init d None in
        let b := LeafNodeSampler.init d None in
        let draw eps :=
          spec_leaf_draw (Finite (1 * 1)) (Finite 1) 2 (np_mean [Finite 1; Finite 3])
            (Finite eps) 1 in
        LeafNodeSampler.sample b example_model example_node w0
        = Ok (draw (randn w (drawn w)), w1)
        /\ LeafNodeSampler.sample a example_model example_node w0
           = Ok (draw (randn w (drawn w)), w1)
        /\ LeafNodeSampler.sample b example_model example_node w1
           = Ok (draw (randn w (S (drawn w))), w2)).
Proof.
  destruct (init_then_two_draws 50000 w ltac:(lia)) as [w0 [w1 [w2 [Hi [H1 H2]]]]].
  exists (length (heap w)), w0, w1, w2.
  split; [exact Hi |]. split; [reflexivity |]. split; [reflexivity |].
  split; [exact H1 |]. split; [exact H2 |].
  assert (Hn : (1 <= Data.n_obsv (LeafNode.data example_node))%Z)
    by (cbv; discriminate).
  cbv zeta.
  rewrite !(sample_is_spec_draw _ example_model example_node _ Hn).
  cbn [LeafNodeSampler.init LeafNodeSampler._scalar_sampler].
  rewrite H1, H2. repeat split; reflexivity.
Qed.

(** ** SklearnModel: point predictions *)

Lemma np_mean_finite (l : list R) :
  l <> [] -> np_mean (map Finite l) = Finite (Rsum l / INR (length l)).
Proof.
  intros Hne. unfold np_mean, of_int.
  rewrite np_sum_finite, length_map, <- INR_IZR_INZ.
  apply fdiv_finite. apply not_0_INR.
  destruct l; [congruence | discriminate].
Qed.

Lemma column_finite (j : nat) (rows : list (list R)) :
  Forall (fun r => (j < length r)%nat) rows ->
  column j (map (map Finite) rows) = map Finite (map (fun r => nth j r 0) rows).
Proof.
  unfold column. rewrite !map_map. intros F.
  apply map_ext_in. intros r Hr.
  rewrite Forall_forall in F. specialize (F r Hr).
  rewrite (nth_indep _ NonFinite (Finite 0)) by (rewrite length_map; exact F).
  apply (map_nth Finite).
Qed.

Lemma mean_axis0_finite (w : nat) (rows : list (list R)) :
  rows <> [] -> Forall (fun r => length r = w) rows ->
  mean_axis0 (Arr2 w (map (map Finite) rows))
  = Ok (Vector (map Finite (map (fun j => mean_at j rows) (seq 0 w)))).
Proof.
  intros Hne F. unfold mean_axis0. f_equal. f_equal.
  rewrite map_map. apply map_ext_in. intros j Hj.
  apply in_seq in Hj.
  rewrite column_finite.
  - rewrite np_mean_finite.
    + rewrite length_map. reflexivity.
    + destruct rows; [congruence | discriminate].
  - eapply Forall_impl; [| exact F]. intros r Hr. simpl in Hr. lia.
Qed.

Lemma unnormalize_vector (d : Data.t) (lo hi : R) (vs : list R) :
  Target.original_y_min (Data.target d) = Some (Finite lo) ->
  Target.original_y_max (Data.target d) = Some (Finite hi) ->
  SklearnModel.unnormalize d (Vector (map Finite vs))
  = Ok (Vector (map Finite (spec_unnormalize lo hi vs))).
Proof.
  intros Hlo Hhi. unfold SklearnModel.unnormalize, Data.unnormalize_y.
  rewrite (unnormalize_y_finite _ lo hi vs Hlo Hhi). reflexivity.
Qed.

Lemma spec_point_prediction_unfold (lo hi : R) (w : nat) (rows : list (list R)) :
  spec_unnormalize lo hi (map (fun j => mean_at j rows) (seq 0 w))
  = spec_point_prediction lo hi w rows.
Proof. unfold spec_unnormalize, spec_point_prediction. rewrite map_map. reflexivity. Qed.

Lemma rows_of_rows (rows : list array) : rows_of (map PRow rows) = Some rows.
Proof.
  induction rows as [| r rows IH]; simpl; [reflexivity |].
  rewrite IH. reflexivity.
Qed.

Lemma asarray_rows (w : nat) (rows : list array) :
  rows <> [] -> Forall (fun r => length r = w) rows ->
  asarray (map PRow rows) = Ok (Arr2 w rows).
Proof.
  intros Hne F. unfold asarray. rewrite rows_of_rows.
  destruct rows as [| r rs]; [congruence |].
  inversion F as [| r' rs' Hr Hrs]; subst.
  assert (E : forallb (fun r' => Nat.eqb (length r') (length r)) rs = true).
  { apply forallb_forall. intros x Hx. rewrite Forall_forall in Hrs.
    rewrite (Hrs x Hx). apply Nat.eqb_refl. }
  rewrite E. reflexivity.
Qed.

Lemma predict_in_sample (self : SklearnModel.t) (d : Data.t) (lo hi : R)
    (w : nat) (rows : list (list R)) :
  SklearnModel.store_in_sample_predictions (SklearnModel.hyper self) = true ->
  SklearnModel.data (SklearnModel.state self) = Some d ->
  Target.original_y_min (Data.target d) = Some (Finite lo) ->
  Target.original_y_max (Data.target d) = Some (Finite hi) ->
  rows <> [] -> Forall (fun r => length r = w) rows ->
  SklearnModel._prediction_samples (SklearnModel.state self)
  = Some (Arr2 w (map (map Finite) rows)) ->
  SklearnModel.predict self None
  = Ok (Vector (map Finite (spec_point_prediction lo hi w rows))).
Proof.
  intros Hstore Hd Hlo Hhi Hne F Hps.
  unfold SklearnModel.predict. rewrite Hstore, Hd, Hps. cbn [SklearnModel.attr bind].
  rewrite (mean_axis0_finite w rows Hne F). cbn [bind].
  rewrite (unnormalize_vector d lo hi _ Hlo Hhi), spec_point_prediction_unfold.
  reflexivity.
Qed.

Lemma predictions_on_models (ms : list Model.t) (X : Covariates) :
  SklearnModel.predictions_on (Some (Arr1 (map PModel ms))) X
  = Ok (map PRow (map (fun m => Model.predict m X) ms)).
Proof.
  unfold SklearnModel.predictions_on.
  induction ms as [| m ms IH]; simpl; [reflexivity |].
  rewrite IH. reflexivity.
Qed.

Lemma predict_out_of_sample (self : SklearnModel.t) (d : Data.t) (lo hi : R)
    (X : Covariates) (ms : list Model.t) (w : nat) (pr : Model.t -> list R) :
  SklearnModel.data (SklearnModel.state self) = Some d ->
  Target.original_y_min (Data.target d) = Some (Finite lo) ->
  Target.original_y_max (Data.target d) = Some (Finite hi) ->
  ms <> [] ->
  SklearnModel._model_samples (SklearnModel.state self) = Some (Arr1 (map PModel ms)) ->
  (forall m, In m ms -> Model.predict m X = map Finite (pr m) /\ length (pr m) = w) ->
  SklearnModel.predict self (Some X)
  = Ok (Vector (map Finite (spec_point_prediction lo hi w (map pr ms)))).
Proof.
  intros Hd Hlo Hhi Hne Hms Hpr.
  unfold SklearnModel.predict, SklearnModel._out_of_sample_predict.
  rewrite Hd, Hms, predictions_on_models. cbn [SklearnModel.attr bind].
  assert (E : map (fun m => Model.predict m X) ms = map (map Finite) (map pr ms)).
  { rewrite map_map. apply map_ext_in. intros m Hm. apply (Hpr m Hm). }
  rewrite E.
  assert (F : Forall (fun r => length r = w) (map pr ms)).
  { apply Forall_forall. intros r Hr. apply in_map_iff in Hr.
    destruct Hr as [m [<- Hm]]. apply (Hpr m Hm). }
  assert (Hne' : map pr ms <> []) by (destruct ms; [congruence | discriminate]).
  rewrite (asarray_rows w).
  - cbn [bind]. rewrite (mean_axis0_finite w _ Hne' F). cbn [bind].
    rewrite (unnormalize_vector d lo hi _ Hlo Hhi), spec_point_prediction_unfold.
    reflexivity.
  - destruct ms; [congruence | discriminate].
  - apply Forall_forall. intros r Hr. apply in_map_iff in Hr.
    destruct Hr as [r0 [<- Hr0]]. rewrite length_map.
    rewrite Forall_forall in F. exact (F r0 Hr0).
Qed.

(** C6.  On a fitted model that stores in-sample predictions, whose Target
    keeps the training minimum [lo] and maximum [hi]: [predict()] returns,
    entry by entry, the mean over all retained prediction samples,
    un-normalized as [lo + (mean + 0.5) * (hi - lo)]; and [predict(X)]
    returns the same un-normalized mean taken over the predictions on [X]
    of every retained model. *)
Theorem predict_is_unnormalized_mean (self : SklearnModel.t) (d : Data.t) (lo hi : R) :
  SklearnModel.store_in_sample_predictions (SklearnModel.hyper self) = true ->
  SklearnModel.data (SklearnModel.state self) = Some d ->
  Target.original_y_min (Data.target d) = Some (Finite lo) ->
  Target.original_y_max (Data.target d) = Some (Finite hi) ->
  (forall (w : nat) (rows : list (list R)),
     rows <> [] -> Forall (fun r => length r = w) rows ->
     SklearnModel._prediction_samples (SklearnModel.state self)
     = Some (Arr2 w (map (map Finite) rows)) ->
     SklearnModel.predict self None
     = Ok (Vector (map Finite (spec_point_prediction lo hi w rows))))
  /\ (forall (X : Covariates) (ms : list Model.t) (w : nat) (pr : Model.t -> list R),
        ms <> [] ->
        SklearnModel._model_samples (SklearnModel.state self)
        = Some (Arr1 (map PModel ms)) ->
        (forall m, In m ms -> Model.predict m X = map Finite (pr m) /\ length (pr m) = w) ->
        SklearnModel.predict self (Some X)
        = Ok (Vector (map Finite (spec_point_prediction lo hi w (map pr ms))))).
Proof.
  intros Hstore Hd Hlo Hhi. split.
  - intros w rows Hne F Hps. eapply predict_in_sample; eassumption.
  - intros X ms w pr Hne Hms Hpr. eapply predict_out_of_sample; eassumption.
Qed.

Lemma predict_is_unnormalized_mean_witness :
  SklearnModel.store_in_sample_predictions (SklearnModel.hyper example_fitted) = true
  /\ SklearnModel.data (SklearnModel.state example_fitted) = Some example_normalizing_data
  /\ SklearnModel.predict example_fitted None
     = Ok (Vector (map Finite (spec_point_prediction 0 2 2 [[0; 1]; [1; 0]]))).
Proof.
  split; [reflexivity |]. split; [reflexivity |].
  apply (proj1 (predict_is_unnormalized_mean example_fitted example_normalizing_data 0 2
                  eq_refl eq_refl eq_refl eq_refl)).
  - discriminate.
  - repeat constructor.
  - reflexivity.
Defined.

(** ** SklearnModel: the error measure *)

Lemma zip_with_finite (ys ps : list R) :
  zip_with fsub (map Finite ys) (map Finite ps) = map Finite (zip_with Rminus ys ps).
Proof.
  revert ps. induction ys as [| y ys IH]; intros [| p ps]; simpl; try reflexivity.
  rewrite IH. reflexivity.
Qed.

Lemma Rsum_squares_nonneg (l : list R) : 0 <= Rsum (map (fun e => e * e) l).
Proof.
  unfold Rsum. induction l as [| x l IH]; simpl; [lra |].
  pose proof (Rle_0_sqr x) as Hx. unfold Rsqr in Hx. lra.
Qed.

Lemma Rsum_squares_equal (l : list R) (e : R) :
  Forall (fun r => Rabs r = e) l ->
  Rsum (map (fun r => r * r) l) = INR (length l) * (e * e).
Proof.
  induction 1 as [| x l Hx _ IH].
  - unfold Rsum. simpl. lra.
  - change (Rsum (map (fun r => r * r) (x :: l)))
      with (x * x + Rsum (map (fun r => r * r) l)).
    rewrite IH. change (length (x :: l)) with (S (length l)). rewrite S_INR.
    assert (E : x * x = e * e).
    { rewrite <- Hx. unfold Rabs. destruct (Rcase_abs x); ring. }
    rewrite E. ring.
Qed.

Lemma rmse_given_prediction (self : SklearnModel.t) (X : option Covariates)
    (ys ps : list R) :
  SklearnModel.predict self X = Ok (Vector (map Finite ps)) ->
  length ys = length ps ->
  SklearnModel.rmse self X (Some (map Finite ys))
  = Ok (Finite (sqrt (Rsum (map (fun e => e * e) (zip_with Rminus ys ps))))).
Proof.
  intros Hp Hlen.
  unfold SklearnModel.rmse, SklearnModel.l2_error, SklearnModel.residuals.
  rewrite Hp. cbn [bind SklearnModel.minus].
  rewrite broadcast_same by (rewrite !length_map; exact Hlen).
  cbn [bind]. rewrite zip_with_finite, map_map.
  change (map (fun x => fmul (Finite x) (Finite x)) (zip_with Rminus ys ps))
    with (map (fun x => Finite (x * x)) (zip_with Rminus ys ps)).
  rewrite <- (map_map (fun x => x * x) Finite), np_sum_finite.
  rewrite fsqrt_finite by apply Rsum_squares_nonneg.
  reflexivity.
Qed.

(** C9.  With the predictions [ps] for [X] and targets [ys] of the same
    size, [rmse] is the square root of the sum of the squared residuals
    [ys - ps]; when every residual has magnitude [e] it is [sqrt(n) * e],
    which for two or more observations and [e > 0] is not [e], the root of
    their mean. *)
Theorem rmse_is_root_of_summed_squares (self : SklearnModel.t) (X : option Covariates)
    (ys ps : list R) :
  SklearnModel.predict self X = Ok (Vector (map Finite ps)) ->
  length ys = length ps ->
  let res := zip_with Rminus ys ps in
  let n := length ys in
  SklearnModel.l2_error self X (Some (map Finite ys))
  = Ok (map Finite (map (fun e => e * e) res))
  /\ SklearnModel.rmse self X (Some (map Finite ys))
     = Ok (Finite (sqrt (Rsum (map (fun e => e * e) res))))
  /\ forall e : R,
       0 <= e -> Forall (fun r => Rabs r = e) res ->
       SklearnModel.rmse self X (Some (map Finite ys)) = Ok (Finite (sqrt (INR n) * e))
       /\ ((1 <= n)%nat -> sqrt (Rsum (map (fun e => e * e) res) / INR n) = e)
       /\ ((2 <= n)%nat -> 0 < e -> sqrt (INR n) * e <> e).
Proof.
  intros Hp Hlen res n.
  assert (Hres : length res = n).
  { unfold res, n. apply zip_with_length. exact Hlen. }
  split.
  { unfold SklearnModel.l2_error, SklearnModel.residuals.
    rewrite Hp. cbn [bind SklearnModel.minus].
    rewrite broadcast_same by (rewrite !length_map; exact Hlen).
    cbn [bind]. rewrite zip_with_finite, !map_map. reflexivity. }
  split; [apply rmse_given_prediction; assumption |].
  intros e He Hall.
  pose proof (Rsum_squares_equal res e Hall) as Hsum. rewrite Hres in Hsum.
  split; [| split].
  - rewrite (rmse_given_prediction self X ys ps Hp Hlen). fold res.
    rewrite Hsum, sqrt_mult by (try apply pos_INR; nra).
    rewrite sqrt_square by exact He. reflexivity.
  - intros Hn. rewrite Hsum.
    assert (Pn : 0 < INR n) by (apply lt_0_INR; lia).
    replace (INR n * (e * e) / INR n) with (e * e) by (field; lra).
    apply sqrt_square. exact He.
  - intros Hn Pe.
    assert (H1 : 1 < INR n) by (apply (lt_INR 1); lia).
    assert (H2 : 1 < sqrt (INR n)).
    { rewrite <- sqrt_1 at 1. apply sqrt_lt_1_alt. lra. }
    nra.
Qed.

Lemma rmse_is_root_of_summed_squares_witness :
  exists ps,
    SklearnModel.predict example_fitted None = Ok (Vector (map Finite ps))
    /\ length [3; 3] = length ps
    /\ SklearnModel.rmse example_fitted None (Some (map Finite [3; 3]))
       = Ok (Finite (sqrt (Rsum (map (fun e => e * e) (zip_with Rminus [3; 3] ps))))).
Proof.
  exists (spec_point_prediction 0 2 2 [[0; 1]; [1; 0]]).
  assert (Hp : SklearnModel.predict example_fitted None
               = Ok (Vector (map Finite (spec_point_prediction 0 2 2 [[0; 1]; [1; 0]])))).
  { apply (predict_in_sample example_fitted example_normalizing_data 0 2 2);
      try reflexivity; [discriminate | repeat constructor]. }
  split; [exact Hp |]. split; [reflexivity |].
  exact (proj1 (proj2 (rmse_is_root_of_summed_squares example_fitted None [3; 3]
                         (spec_point_prediction 0 2 2 [[0; 1]; [1; 0]]) Hp eq_refl))).
Defined.

(** ** SklearnModel: combining the chains *)

Lemma mapM_Forall2 {A B : Type} (f : A -> result B) (l : list A) (bs : list B) :
  mapM f l = Ok bs -> Forall2 (fun a b => f a = Ok b) l bs.
Proof.
  revert bs. induction l as [| a l IH]; simpl; intros bs H.
  - injection H as <-. constructor.
  - destruct (f a) as [b | e] eqn:Ea; simpl in H; [| discriminate].
    destruct (mapM f l) as [bs' | e] eqn:El; simpl in H; [| discriminate].
    injection H as <-. constructor; auto.
Qed.

Lemma mapM_ok {A B : Type} (f : A -> result B) (g : A -> B) (l : list A) :
  (forall a, In a l -> f a = Ok (g a)) -> mapM f l = Ok (map g l).
Proof.
  induction l as [| a l IH]; simpl; intros H; [reflexivity |].
  rewrite (H a) by auto. simpl. rewrite IH by auto. reflexivity.
Qed.

Lemma rows_of_some (l : pylist) (rows : list array) :
  rows_of l = Some rows -> l = map PRow rows.
Proof.
  revert rows. induction l as [| o l IH]; simpl; intros rows H.
  - injection H as <-. reflexivity.
  - destruct o as [m | a | r]; try discriminate.
    destruct (rows_of l) as [rs |]; simpl in H; [| discriminate].
    injection H as <-. simpl. rewrite (IH rs eq_refl). reflexivity.
Qed.

Lemma asarray_items (l : pylist) (a : ndarray) : asarray l = Ok a -> items a = l.
Proof.
  unfold asarray. destruct (rows_of l) as [[| r rs] |] eqn:E.
  - intros H. injection H as <-. apply rows_of_some in E. subst l. reflexivity.
  - destruct (forallb (fun r' => Nat.eqb (length r') (length r)) rs); [| discriminate].
    intros H. injection H as <-. apply rows_of_some in E. subst l. reflexivity.
  - destruct (existsb is_row l); [discriminate |].
    intros H. injection H as <-. reflexivity.
Qed.

Lemma concat2_items (a b c : ndarray) :
  concat2 a b = Ok c -> items c = items a ++ items b.
Proof.
  destruct a as [x | w x], b as [y | w' y]; simpl; try discriminate.
  - intros H. injection H as <-. reflexivity.
  - destruct (Nat.eqb w w'); [| discriminate].
    intros H. injection H as <-. simpl. apply map_app.
Qed.

Lemma concat_from_items (rest : list ndarray) (acc a : ndarray) :
  concat_from acc rest = Ok a -> items a = items acc ++ concat (map items rest).
Proof.
  revert acc. induction rest as [| b rest IH]; simpl; intros acc H.
  - injection H as <-. rewrite app_nil_r. reflexivity.
  - destruct (concat2 acc b) as [ab | e] eqn:E; simpl in H; [| discriminate].
    rewrite (IH ab H), (concat2_items _ _ _ E), app_assoc. reflexivity.
Qed.

Lemma mapM_asarray_items (ls : list pylist) (arrs : list ndarray) :
  mapM asarray ls = Ok arrs -> map items arrs = ls.
Proof.
  intros H. apply mapM_Forall2 in H.
  induction H as [| l a ls arrs Ha _ IH]; simpl; [reflexivity |].
  rewrite (asarray_items l a Ha), IH. reflexivity.
Qed.

(** What [np.concatenate] returns holds the entries of its arguments, one
    argument after the other, each in its own order. *)
Lemma np_concatenate_items (parts : list pylist) (a : ndarray) :
  np_concatenate parts = Ok a -> items a = concat parts.
Proof.
  unfold np_concatenate.
  destruct (mapM asarray parts) as [arrs | e] eqn:E; simpl; [| discriminate].
  apply mapM_asarray_items in E. subst parts.
  destruct arrs as [| a0 rest]; [discriminate |].
  intros H. apply concat_from_items in H. exact H.
Qed.

Lemma len_items (a : ndarray) : len a = length (items a).
Proof. destruct a; simpl; [reflexivity | rewrite length_map; reflexivity]. Qed.

Lemma getitem_In {V : Type} (d : dict V) (key : string) (v : V) :
  getitem d key = Ok v -> In (key, v) d.
Proof.
  induction d as [| [k x] d IH]; simpl; [discriminate |].
  destruct (String.eqb k key) eqn:E.
  - intros H. injection H as <-. apply String.eqb_eq in E. subst k. auto.
  - auto.
Qed.

(** Every entry of the combined extract is the concatenation, in chain
    order, of what the chains hold under its key. *)
Lemma combine_chains_entries (extract : list ChainExtract) (combined : dict ndarray)
    (key : string) (a : ndarray) :
  SklearnModel._combine_chains extract = Ok combined ->
  getitem combined key = Ok a ->
  exists parts,
    mapM (fun chain => getitem chain key) extract = Ok parts
    /\ items a = concat parts.
Proof.
  unfold SklearnModel._combine_chains.
  destruct extract as [| first rest]; [discriminate |].
  remember (first :: rest) as extract eqn:Eex. clear Eex.
  intros H G. apply getitem_In in G. apply mapM_Forall2 in H.
  induction H as [| k kv ks combined Hk _ IH]; [contradiction |].
  destruct G as [-> | G]; [| auto].
  destruct (mapM (fun chain => getitem chain k) extract) as [parts | e] eqn:Ep;
    simpl in Hk; [| discriminate].
  destruct (np_concatenate parts) as [joined | e] eqn:Ej; simpl in Hk; [| discriminate].
  injection Hk as <- <-.
  exists parts. split; [exact Ep | exact (np_concatenate_items _ _ Ej)].
Qed.

Lemma mapM_map {A B C : Type} (f : B -> result C) (h : A -> B) (l : list A) :
  mapM f (map h l) = mapM (fun x => f (h x)) l.
Proof.
  induction l as [| a l IH]; simpl; [reflexivity | rewrite IH; reflexivity].
Qed.

Lemma asarray_models (ms : list Model.t) :
  asarray (map PModel ms) = Ok (Arr1 (map PModel ms)).
Proof. destruct ms as [| m ms]; [reflexivity |]. unfold asarray. simpl.
  assert (E : existsb is_row (map PModel ms) = false).
  { induction ms as [| m' ms IH]; simpl; auto. }
  rewrite E. reflexivity.
Qed.

Lemma asarray_accepts (accs : list (list (string * bool))) :
  asarray (map PAccept accs) = Ok (Arr1 (map PAccept accs)).
Proof. destruct accs as [| a accs]; [reflexivity |]. unfold asarray. simpl.
  assert (E : existsb is_row (map PAccept accs) = false).
  { induction accs as [| a' accs IH]; simpl; auto. }
  rewrite E. reflexivity.
Qed.

Lemma concat_from_arr1 (ls : list pylist) (x : pylist) :
  concat_from (Arr1 x) (map Arr1 ls) = Ok (Arr1 (x ++ concat ls)).
Proof.
  revert x. induction ls as [| l ls IH]; intros x; simpl.
  - rewrite app_nil_r. reflexivity.
  - rewrite IH, app_assoc. reflexivity.
Qed.

Lemma concat_from_arr2 (w : nat) (rs : list (list array)) (x : list array) :
  concat_from (Arr2 w x) (map (Arr2 w) rs) = Ok (Arr2 w (x ++ concat rs)).
Proof.
  revert x. induction rs as [| r rs IH]; intros x; simpl.
  - rewrite app_nil_r. reflexivity.
  - rewrite Nat.eqb_refl. simpl. rewrite IH, app_assoc. reflexivity.
Qed.

Lemma np_concatenate_arr1 (parts : list pylist) :
  parts <> [] -> (forall l, In l parts -> asarray l = Ok (Arr1 l)) ->
  np_concatenate parts = Ok (Arr1 (concat parts)).
Proof.
  intros Hne H. unfold np_concatenate.
  rewrite (mapM_ok asarray Arr1 parts H). simpl.
  destruct parts as [| l ls]; [congruence |]. simpl.
  apply concat_from_arr1.
Qed.

Lemma np_concatenate_arr2 (w : nat) (rowss : list (list array)) :
  rowss <> [] ->
  (forall rows, In rows rowss -> rows <> [] /\ Forall (fun r => length r = w) rows) ->
  np_concatenate (map (map PRow) rowss) = Ok (Arr2 w (concat rowss)).
Proof.
  intros Hne H. unfold np_concatenate.
  rewrite mapM_map.
  rewrite (mapM_ok (fun x => asarray (map PRow x)) (Arr2 w) rowss).
  - simpl. destruct rowss as [| r rs]; [congruence |]. simpl.
    apply concat_from_arr2.
  - intros rows Hr. destruct (H rows Hr) as [Hn Hw]. apply asarray_rows; assumption.
Qed.

(** Chains that each retained at least one row of predictions, all of one
    width: combining them succeeds and gives, per key, the concatenation in
    chain order. *)
Lemma combine_chains_of_retained (w : nat) (cs : list retained) :
  cs <> [] ->
  (forall c, In c cs ->
     rows_of_chain c <> [] /\ Forall (fun r => length r = w) (rows_of_chain c)) ->
  SklearnModel._combine_chains (map extract_of cs)
  = Ok [("model"%string, Arr1 (map PModel (concat (map models_of cs))));
        ("acceptance"%string, Arr1 (map PAccept (concat (map accepts_of cs))));
        ("in_sample_predictions"%string, Arr2 w (concat (map rows_of_chain cs)))].
Proof.
  intros Hne Hrows.
  unfold SklearnModel._combine_chains.
  destruct (map extract_of cs) as [| first rest] eqn:E;
    [destruct cs; [congruence | discriminate] |].
  assert (K : keys first = ["model"; "acceptance"; "in_sample_predictions"]%string).
  { destruct cs as [| c cs']; [congruence |]. simpl in E. injection E as <- _.
    reflexivity. }
  rewrite K, <- E. clear K E first rest.
  assert (Hne' : forall (B : Type) (g : retained -> B), map g cs <> []).
  { intros B g. destruct cs; [congruence | discriminate]. }
  cbn [mapM].
  rewrite !mapM_map.
  rewrite (mapM_ok _ (fun c => map PModel (models_of c)) cs) by (intros; reflexivity).
  rewrite (mapM_ok _ (fun c => map PAccept (accepts_of c)) cs) by (intros; reflexivity).
  rewrite (mapM_ok _ (fun c => map PRow (rows_of_chain c)) cs) by (intros; reflexivity).
  cbn [bind].
  rewrite np_concatenate_arr1;
    [| apply Hne'
     | intros l Hl; apply in_map_iff in Hl; destruct Hl as [c [<- _]];
       apply asarray_models].
  cbn [bind].
  rewrite np_concatenate_arr1;
    [| apply Hne'
     | intros l Hl; apply in_map_iff in Hl; destruct Hl as [c [<- _]];
       apply asarray_accepts].
  cbn [bind].
  rewrite <- (map_map rows_of_chain (map PRow)).
  rewrite (np_concatenate_arr2 w);
    [| apply Hne'
     | intros rows Hr; apply in_map_iff in Hr; destruct Hr as [c [<- Hc]];
       apply Hrows; exact Hc].
  cbn [bind].
  rewrite !concat_map, !map_map.
  reflexivity.
Qed.

(** ** SklearnModel: fitting with several chains *)

Lemma Parallel_all {A : Type} (P : A -> Prop)
    (tasks : list (World -> result (A * World))) :
  (forall task, In task tasks -> forall w, exists a w', task w = Ok (a, w') /\ P a) ->
  forall w, exists results w',
    SklearnModel.Parallel tasks w = Ok (results, w')
    /\ length results = length tasks /\ Forall P results.
Proof.
  induction tasks as [| task tasks IH]; intros H w.
  - exists [], w. repeat split. constructor.
  - destruct (H task (or_introl eq_refl) w) as [a [w1 [Ha Pa]]].
    destruct (IH (fun t Ht => H t (or_intror Ht)) w1) as [rest [w2 [Hr [Hl Hf]]]].
    exists (a :: rest), w2. simpl. rewrite Ha. simpl. rewrite Hr. simpl.
    repeat split; [congruence | constructor; assumption].
Qed.

Lemma Forall_images {A B : Type} (f : A -> B) (Q : A -> Prop) (bs : list B) :
  Forall (fun b => exists a, b = f a /\ Q a) bs ->
  exists l, bs = map f l /\ Forall Q l.
Proof.
  induction 1 as [| b bs [a [-> Qa]] _ [l [-> Ql]]].
  - exists []. split; constructor.
  - exists (a :: l). split; [reflexivity | constructor; assumption].
Qed.

Lemma length_concat_uniform {A B : Type} (f : A -> list B) (n : nat) (l : list A) :
  Forall (fun a => length (f a) = n) l ->
  length (concat (map f l)) = (length l * n)%nat.
Proof.
  induction 1 as [| a l Ha _ IH]; simpl; [reflexivity |].
  rewrite length_app, Ha, IH. reflexivity.
Qed.

Lemma np_min_ok (y : array) : y <> [] -> exists v, np_min y = Ok v.
Proof. destruct y; [congruence |]. intros _. eexists. reflexivity. Qed.

Lemma np_max_ok (y : array) : y <> [] -> exists v, np_max y = Ok v.
Proof. destruct y; [congruence |]. intros _. eexists. reflexivity. Qed.

Section Facade.

Variable Sigma_init : R -> R -> float64 -> Sigma.t.
Variable Model_init : Data.t -> Sigma.t -> Z -> R -> R -> Model.t.
Variable samples :
  ModelSampler.t -> Model.t -> Z -> Z -> R -> bool -> bool ->
  World -> result (ChainExtract * World).

(** With at least one target, building the model raises nothing and leaves
    the hyperparameters and the sampler of the facade as they are. *)
Lemma construct_model_ok (self : SklearnModel.t) (X : Covariates) (y : array) :
  y <> [] ->
  exists self1 m,
    SklearnModel._construct_model Sigma_init Model_init self X y = Ok (self1, m)
    /\ SklearnModel.hyper self1 = SklearnModel.hyper self
    /\ SklearnModel.sampler self1 = SklearnModel.sampler self.
Proof.
  intros Hne.
  destruct (np_min_ok y Hne) as [lo Hlo]. destruct (np_max_ok y Hne) as [hi Hhi].
  unfold SklearnModel._construct_model, SklearnModel._convert_covariates_to_data,
    Data.init, Target.init, Target.normalize_y.
  rewrite Hlo, Hhi. cbn [bind].
  unfold Data.normalizing_scale, Target.normalizing_scale.
  cbn [Data.target Target.original_y_max Target.original_y_min Target.getattr bind].
  eexists. eexists. split; [reflexivity |]. split; reflexivity.
Qed.

Lemma f_chains_length (self : SklearnModel.t) :
  length (SklearnModel.f_chains Sigma_init Model_init samples self)
  = Z.to_nat (SklearnModel.n_chains (SklearnModel.hyper self)).
Proof.
  unfold SklearnModel.f_chains, range. rewrite !length_map, length_seq. reflexivity.
Qed.

(** Fitting with chains that each retain [k] snapshots and [k] rows of width
    [wd]: the combined extract holds [n_chains * k] of each. *)
Lemma fit_retains (self : SklearnModel.t) (X : Covariates) (y : array) (w : World)
    (k wd : nat) :
  (1 <= SklearnModel.n_chains (SklearnModel.hyper self))%Z ->
  (1 <= k)%nat ->
  y <> [] ->
  (forall sampler m w0, exists c w1,
     samples sampler m (SklearnModel.n_samples (SklearnModel.hyper self))
       (SklearnModel.n_burn (SklearnModel.hyper self))
       (SklearnModel.thin (SklearnModel.hyper self))
       (SklearnModel.store_in_sample_predictions (SklearnModel.hyper self))
       (SklearnModel.store_acceptance_trace (SklearnModel.hyper self)) w0
     = Ok (extract_of c, w1)
     /\ length (models_of c) = k
     /\ length (rows_of_chain c) = k
     /\ Forall (fun r => length r = wd) (rows_of_chain c)) ->
  exists self' w' ms ps,
    SklearnModel.fit Sigma_init Model_init samples self X y w = Ok (self', w')
    /\ SklearnModel._model_samples (SklearnModel.state self') = Some ms
    /\ SklearnModel._prediction_samples (SklearnModel.state self') = Some ps
    /\ len ms = (Z.to_nat (SklearnModel.n_chains (SklearnModel.hyper self)) * k)%nat
    /\ len ps = (Z.to_nat (SklearnModel.n_chains (SklearnModel.hyper self)) * k)%nat.
Proof.
  intros Hch Hk Hne Hs.
  destruct (construct_model_ok self X y Hne) as [self1 [m [Hc [Hh Hsm]]]].
  set (P := fun e : ChainExtract =>
              exists c, e = extract_of c
                /\ (length (models_of c) = k
                    /\ length (rows_of_chain c) = k
                    /\ Forall (fun r => length r = wd) (rows_of_chain c))).
  assert (Htask : forall task,
             In task (SklearnModel.f_delayed_chains Sigma_init Model_init samples self1 X y) ->
             forall w0, exists a w1, task w0 = Ok (a, w1) /\ P a).
  { intros task Ht w0. unfold SklearnModel.f_delayed_chains, SklearnModel.f_chains in Ht.
    rewrite map_map in Ht. apply in_map_iff in Ht. destruct Ht as [i [<- _]].
    unfold SklearnModel.delayed_run_chain, SklearnModel.run_chain.
    destruct (construct_model_ok self1 X y Hne) as [self2 [m2 [Hc2 [Hh2 Hsm2]]]].
    rewrite Hc2. cbn [bind]. rewrite Hh2, Hh.
    destruct (Hs (SklearnModel.sampler self2) m2 w0) as [c [w1 [E Hc']]].
    exists (extract_of c), w1. split; [exact E |]. exists c. split; [reflexivity | exact Hc']. }
  destruct (Parallel_all P _ Htask w) as [ex [w' [Hpar [Hlen Hall]]]].
  destruct (Forall_images extract_of _ ex Hall) as [cs [-> Hcs]].
  assert (Hn : length cs = Z.to_nat (SklearnModel.n_chains (SklearnModel.hyper self))).
  { rewrite length_map in Hlen. rewrite Hlen.
    unfold SklearnModel.f_delayed_chains. rewrite length_map, f_chains_length, Hh.
    reflexivity. }
  assert (Hcomb := combine_chains_of_retained wd cs).
  rewrite Forall_forall in Hcs.
  unfold SklearnModel.fit. rewrite Hc. cbn [bind]. rewrite Hpar. cbn [bind].
  rewrite Hcomb.
  - cbn [bind getitem String.eqb Ascii.eqb Bool.eqb].
    eexists. eexists. eexists. eexists. split; [reflexivity |].
    cbn [SklearnModel.state SklearnModel.with_state SklearnModel._model_samples
         SklearnModel._prediction_samples].
    split; [reflexivity |]. split; [reflexivity |].
    cbn [len]. rewrite length_map, <- Hn.
    split; apply length_concat_uniform; apply Forall_forall; intros c Hc0;
      apply (Hcs c Hc0).
  - intros E. rewrite E in Hn. simpl in Hn. lia.
  - intros c Hc0. destruct (Hcs c Hc0) as [_ [Hr Hw]]. split; [| exact Hw].
    intros E. rewrite E in Hr. simpl in Hr. lia.
Qed.

End Facade.

(** C5.  Whatever [_combine_chains] returns holds, under every key, the
    entries of all chains under that key, chain after chain and each chain
    in its own order; for chains that retained rows of one width it returns
    the concatenated models, acceptance traces and prediction rows;
    [f_chains] returns [n_chains] runners; and fitting with [n_chains = 3],
    [n_samples = 4] and [thin = 1.0], each chain retaining its four samples,
    yields twelve retained models and a prediction matrix of twelve rows. *)
Theorem combined_extract_is_concatenation :
  (forall (extract : list ChainExtract) (combined : dict ndarray)
          (key : string) (a : ndarray),
     SklearnModel._combine_chains extract = Ok combined ->
     getitem combined key = Ok a ->
     exists parts,
       mapM (fun chain => getitem chain key) extract = Ok parts
       /\ items a = concat parts
       /\ len a = length (concat parts))
  /\ (forall (w : nat) (cs : list retained),
        cs <> [] ->
        (forall c, In c cs ->
           rows_of_chain c <> [] /\ Forall (fun r => length r = w) (rows_of_chain c)) ->
        SklearnModel._combine_chains (map extract_of cs)
        = Ok [("model"%string, Arr1 (map PModel (concat (map models_of cs))));
              ("acceptance"%string, Arr1 (map PAccept (concat (map accepts_of cs))));
              ("in_sample_predictions"%string, Arr2 w (concat (map rows_of_chain cs)))])
  /\ (forall Sigma_init Model_init samples (self : SklearnModel.t),
        length (SklearnModel.f_chains Sigma_init Model_init samples self)
        = Z.to_nat (SklearnModel.n_chains (SklearnModel.hyper self)))
  /\ (forall Sigma_init Model_init samples (self : SklearnModel.t)
             (X : Covariates) (y : array) (w : World) (wd : nat),
        SklearnModel.n_chains (SklearnModel.hyper self) = 3%Z ->
        SklearnModel.n_samples (SklearnModel.hyper self) = 4%Z ->
        SklearnModel.thin (SklearnModel.hyper self) = 1 ->
        y <> [] ->
        (forall sampler m w0, exists c w1,
           samples sampler m 4%Z (SklearnModel.n_burn (SklearnModel.hyper self)) 1
             (SklearnModel.store_in_sample_predictions (SklearnModel.hyper self))
             (SklearnModel.store_acceptance_trace (SklearnModel.hyper self)) w0
           = Ok (extract_of c, w1)
           /\ length (models_of c) = 4%nat
           /\ length (rows_of_chain c) = 4%nat
           /\ Forall (fun r => length r = wd) (rows_of_chain c)) ->
        exists self' w' ms ps,
          SklearnModel.fit Sigma_init Model_init samples self X y w = Ok (self', w')
          /\ SklearnModel._model_samples (SklearnModel.state self') = Some ms
          /\ SklearnModel._prediction_samples (SklearnModel.state self') = Some ps
          /\ len ms = 12%nat
          /\ len ps = 12%nat).
Proof.
  split; [| split; [| split]].
  - intros extract combined key a Hc Hg.
    destruct (combine_chains_entries extract combined key a Hc Hg) as [parts [Hp Hi]].
    exists parts. split; [exact Hp |]. split; [exact Hi |].
    rewrite len_items, Hi. reflexivity.
  - exact combine_chains_of_retained.
  - exact f_chains_length.
  - intros Sigma_init Model_init samples self X y w wd Hch Hns Hthin Hne Hs.
    destruct (fit_retains Sigma_init Model_init samples self X y w 4 wd)
      as [self' [w' [ms [ps [Hfit [Hms [Hps [Lm Lp]]]]]]]].
    + rewrite Hch. lia.
    + lia.
    + exact Hne.
    + rewrite Hns, Hthin. exact Hs.
    + rewrite Hch in Lm, Lp.
      exists self', w', ms, ps. repeat split; assumption.
Qed.

Lemma combined_extract_is_concatenation_witness :
  exists self' w' ms ps,
    SklearnModel.fit example_Sigma_init example_Model_init
      (retaining_samples example_model [Finite 0])
      (SklearnModel.new 0%nat three_chains_params) [] [Finite 1; Finite 2]
      example_world
    = Ok (self', w')
    /\ SklearnModel._model_samples (SklearnModel.state self') = Some ms
    /\ SklearnModel._prediction_samples (SklearnModel.state self') = Some ps
    /\ len ms = 12%nat
    /\ len ps = 12%nat.
Proof.
  apply (proj2 (proj2 (proj2 combined_extract_is_concatenation))) with (wd := 1%nat).
  - reflexivity.
  - reflexivity.
  - reflexivity.
  - discriminate.
  - intros sampler m w0.
    exists (repeat example_model 4, repeat [] 4, repeat [Finite 0] 4), w0.
    split; [reflexivity |]. split; [reflexivity |]. split; [reflexivity |].
    repeat constructor.
Defined.

(** ** SklearnModel: malformed hyperparameters *)

(** An exception of the chain sampler is the exception of [fit]. *)
Lemma fit_propagates_sampler_error
    (Sigma_init : R -> R -> float64 -> Sigma.t)
    (Model_init : Data.t -> Sigma.t -> Z -> R -> R -> Model.t)
    (samples : ModelSampler.t -> Model.t -> Z -> Z -> R -> bool -> bool ->
               World -> result (ChainExtract * World))
    (self : SklearnModel.t) (X : Covariates) (y : array) (w : World) (e : exn) :
  (1 <= SklearnModel.n_chains (SklearnModel.hyper self))%Z ->
  y <> [] ->
  (forall sampler m w0,
     samples sampler m (SklearnModel.n_samples (SklearnModel.hyper self))
       (SklearnModel.n_burn (SklearnModel.hyper self))
       (SklearnModel.thin (SklearnModel.hyper self))
       (SklearnModel.store_in_sample_predictions (SklearnModel.hyper self))
       (SklearnModel.store_acceptance_trace (SklearnModel.hyper self)) w0
     = Raise e) ->
  SklearnModel.fit Sigma_init Model_init samples self X y w = Raise e.
Proof.
  intros Hch Hne Hs.
  destruct (construct_model_ok Sigma_init Model_init self X y Hne)
    as [self1 [m [Hc [Hh Hsm]]]].
  unfold SklearnModel.fit. rewrite Hc. cbn [bind].
  unfold SklearnModel.f_delayed_chains, SklearnModel.f_chains, range.
  rewrite Hh.
  destruct (Z.to_nat (SklearnModel.n_chains (SklearnModel.hyper self))) as [| k] eqn:E;
    [lia |].
  cbn [seq map SklearnModel.Parallel].
  unfold SklearnModel.delayed_run_chain at 1. unfold SklearnModel.run_chain at 1.
  destruct (construct_model_ok Sigma_init Model_init self1 X y Hne)
    as [self2 [m2 [Hc2 [Hh2 Hsm2]]]].
  rewrite Hc2. cbn [bind]. rewrite Hh2, Hh, Hs. reflexivity.
Qed.

(** Probabilities that sum to 1 construct the instance [new]; others stop
    [__init__] in the proposer's constructor. *)
Lemma init_sums_to_one (leaf_defaults : loc) (p : SklearnModel.params) :
  SklearnModel.p_grow p + SklearnModel.p_prune p = 1 ->
  SklearnModel.init leaf_defaults p = Ok (SklearnModel.new leaf_defaults p).
Proof.
  intros H. unfold SklearnModel.init, UniformMutationProposer.init.
  cbn [fold_right].
  destruct (Req_dec_T (SklearnModel.p_grow p + (SklearnModel.p_prune p + 0)) 1)
    as [_ | N]; [reflexivity | exfalso; apply N; lra].
Qed.

Lemma init_not_summing_to_one (leaf_defaults : loc) (p : SklearnModel.params) :
  SklearnModel.p_grow p + SklearnModel.p_prune p <> 1 ->
  SklearnModel.init leaf_defaults p = Raise ConfigurationError.
Proof.
  intros H. unfold SklearnModel.init, UniformMutationProposer.init.
  cbn [fold_right].
  destruct (Req_dec_T (SklearnModel.p_grow p + (SklearnModel.p_prune p + 0)) 1)
    as [E | _]; [exfalso; apply H; lra | reflexivity].
Qed.

(** The chain sampler stops before its first sweep on a negative [n_burn]
    and on a [thin] outside (0, 1], whatever the sweep is. *)
Lemma samples_rejects_malformed
    (sweep : SampleSchedule.t -> Model.t -> World ->
             result (Model.t * list (string * bool) * World))
    (keep : R -> nat -> bool)
    (self : ModelSampler.t) (model : Model.t) (n_samples n_burn : Z) (thin : R)
    (store_in_sample_predictions store_acceptance : bool) (w : World) :
  (n_burn < 0)%Z \/ ~ (0 < thin <= 1) ->
  ModelSampler.samples sweep keep self model n_samples n_burn thin
    store_in_sample_predictions store_acceptance w
  = Raise ConfigurationError.
Proof.
  intros H. unfold ModelSampler.samples, ModelSampler.well_formed.
  destruct (Z.leb_spec 0 n_burn) as [Hb | Hb]; [| reflexivity].
  destruct (Rlt_dec 0 thin) as [H0 | H0]; [| reflexivity].
  destruct (Rle_dec thin 1) as [H1 | H1]; [| reflexivity].
  exfalso. destruct H as [H | H]; [lia | apply H; split; assumption].
Qed.

(** Well-formed hyperparameters are let through: the chain sampler burns
    in, samples and returns the extract of what it recorded. *)
Lemma samples_accepts_well_formed
    (sweep : SampleSchedule.t -> Model.t -> World ->
             result (Model.t * list (string * bool) * World))
    (keep : R -> nat -> bool)
    (self : ModelSampler.t) (model : Model.t) (n_samples n_burn : Z) (thin : R)
    (store_in_sample_predictions store_acceptance : bool) (w : World) :
  (0 <= n_burn)%Z -> 0 < thin <= 1 ->
  fold_right Rplus 0 (ModelSampler.probabilities self) = 1 ->
  ModelSampler.samples sweep keep self model n_samples n_burn thin
    store_in_sample_predictions store_acceptance w
  = ('(model1, w1) <- ModelSampler.burn_in sweep self (Z.to_nat n_burn) model w ;;
     '(ms, accs, rows, w2) <-
        ModelSampler.sampling sweep keep self (Z.to_nat n_samples) 0 model1 thin
          store_in_sample_predictions store_acceptance w1 ;;
     Ok (extract_of (ms, accs, rows), w2)).
Proof.
  intros Hb [H0 H1] Hp. unfold ModelSampler.samples, ModelSampler.well_formed.
  destruct (Z.leb_spec 0 n_burn) as [_ | Hb']; [| lia].
  destruct (Rlt_dec 0 thin) as [_ | N]; [| contradiction].
  destruct (Rle_dec thin 1) as [_ | N]; [| contradiction].
  destruct (Req_dec_T (fold_right Rplus 0 (ModelSampler.probabilities self)) 1)
    as [_ | N]; [| contradiction].
  reflexivity.
Qed.

(** C8.  Malformed hyperparameters ([n_burn < 0], [thin] outside (0, 1] or
    [p_grow + p_prune <> 1]) fail with a ConfigurationError before any
    sampling iteration.  When the probabilities do not sum to 1,
    [__init__] raises it, from the proposer's constructor.  Otherwise
    [__init__] returns the instance with the hyperparameters as given and
    [fit], on at least one chain and a non-empty target vector, raises it
    from the chain sampler, whatever the sweep and the thinning rule are:
    no sweep has been run. *)
Theorem malformed_hyperparameters_fail_before_sampling
    (leaf_defaults : loc) (p : SklearnModel.params)
    (Sigma_init : R -> R -> float64 -> Sigma.t)
    (Model_init : Data.t -> Sigma.t -> Z -> R -> R -> Model.t)
    (sweep : SampleSchedule.t -> Model.t -> World ->
             result (Model.t * list (string * bool) * World))
    (keep : R -> nat -> bool)
    (X : Covariates) (y : array) (w : World) :
  malformed p ->
  (1 <= SklearnModel.n_chains p)%Z ->
  y <> [] ->
  (SklearnModel.p_grow p + SklearnModel.p_prune p <> 1 ->
   SklearnModel.init leaf_defaults p = Raise ConfigurationError)
  /\ (SklearnModel.p_grow p + SklearnModel.p_prune p = 1 ->
      exists self,
        SklearnModel.init leaf_defaults p = Ok self
        /\ SklearnModel.hyper self = p
        /\ (forall sampler m w0,
              ModelSampler.samples sweep keep sampler m (SklearnModel.n_samples p)
                (SklearnModel.n_burn p) (SklearnModel.thin p)
                (SklearnModel.store_in_sample_predictions p)
                (SklearnModel.store_acceptance_trace p) w0
              = Raise ConfigurationError)
        /\ SklearnModel.fit Sigma_init Model_init (ModelSampler.samples sweep keep)
             self X y w
           = Raise ConfigurationError).
Proof.
  intros Hm Hch Hne. split.
  - apply init_not_summing_to_one.
  - intros Hp. exists (SklearnModel.new leaf_defaults p).
    split; [apply init_sums_to_one; exact Hp |].
    split; [reflexivity |].
    assert (Hbad : (SklearnModel.n_burn p < 0)%Z \/ ~ (0 < SklearnModel.thin p <= 1)).
    { destruct Hm as [H | [H | H]]; [left; exact H | right; exact H | contradiction]. }
    assert (Hs : forall sampler m w0,
               ModelSampler.samples sweep keep sampler m (SklearnModel.n_samples p)
                 (SklearnModel.n_burn p) (SklearnModel.thin p)
                 (SklearnModel.store_in_sample_predictions p)
                 (SklearnModel.store_acceptance_trace p) w0
               = Raise ConfigurationError).
    { intros sampler m w0. apply samples_rejects_malformed. exact Hbad. }
    split; [exact Hs |].
    apply fit_propagates_sampler_error; [exact Hch | exact Hne | exact Hs].
Qed.

Lemma malformed_hyperparameters_fail_before_sampling_witness :
  malformed malformed_params
  /\ exists self,
       SklearnModel.init 0%nat malformed_params = Ok self
       /\ SklearnModel.fit example_Sigma_init example_Model_init
            (ModelSampler.samples (fun _ m w => Ok (m, [], w)) (fun _ _ => true))
            self [] [Finite 1; Finite 2] example_world
          = Raise ConfigurationError.
Proof.
  assert (Hm : malformed malformed_params) by (left; simpl; lia).
  split; [exact Hm |].
  assert (Hch : (1 <= SklearnModel.n_chains malformed_params)%Z) by (simpl; lia).
  assert (Hne : [Finite 1; Finite 2] <> []) by discriminate.
  assert (Hp : SklearnModel.p_grow malformed_params + SklearnModel.p_prune malformed_params
               = 1) by (simpl; lra).
  destruct (proj2 (malformed_hyperparameters_fail_before_sampling 0%nat malformed_params
                     example_Sigma_init example_Model_init
                     (fun _ m w => Ok (m, [], w)) (fun _ _ => true)
                     [] [Finite 1; Finite 2] example_world Hm Hch Hne) Hp)
    as [self [Hi [_ [_ Hf]]]].
  exists self. split; assumption.
Defined.

(** * Further properties of the code *)

(** ** Target: when the construction raises *)

(** X2.  Constructing a Target raises exactly when an empty vector is to be
    normalized (ValueError, from the minimum of an empty array); without
    normalization every vector, the empty one included, is stored as it
    is. *)
Theorem target_init_raises_only_on_empty_normalized
    (y : array) (mask : list bool) (n : Z) (y_sum : option float64) :
  Target.normalize_y [] = Raise ValueError
  /\ Target.init [] mask n true y_sum = Raise ValueError
  /\ (exists t, Target.init y mask n false y_sum = Ok t /\ Target.values t = y)
  /\ (y <> [] ->
      exists t out,
        Target.init y mask n true y_sum = Ok t
        /\ Target.normalize_y y = Ok out
        /\ Target.values t = out
        /\ length out = length y).
Proof.
  split; [reflexivity |]. split; [reflexivity |]. split.
  - unfold Target.init. simpl. destruct y_sum; eexists; split; reflexivity.
  - intros Hne.
    destruct (np_min_ok y Hne) as [lo Hlo]. destruct (np_max_ok y Hne) as [hi Hhi].
    unfold Target.init, Target.normalize_y. rewrite Hlo, Hhi. cbn [bind].
    destruct y_sum; eexists; eexists; (split; [reflexivity |]);
      (split; [reflexivity |]); (split; [reflexivity |]); apply length_map.
Qed.

Lemma target_init_raises_only_on_empty_normalized_witness :
  [Finite 1] <> []
  /\ exists t out,
       Target.init [Finite 1] [false] 1 true None = Ok t
       /\ Target.normalize_y [Finite 1] = Ok out
       /\ Target.values t = out
       /\ length out = length [Finite 1].
Proof.
  assert (Hne : [Finite 1] <> []) by discriminate.
  split; [exact Hne |].
  exact (proj2 (proj2 (proj2
    (target_init_raises_only_on_empty_normalized [Finite 1] [false] 1 None))) Hne).
Defined.

(** ** Target: the cache over any sequence of calls *)

Lemma summed_y_result (t t1 : Target.t) (v : option float64) :
  cache_coherent t ->
  Target.summed_y t = Ok (v, t1) ->
  Target._y t1 = Target._y t
  /\ Target._inverse_mask_int t1 = Target._inverse_mask_int t
  /\ Target.y_sum_cache_up_to_date t1 = true
  /\ Target._summed_y t1 = v
  /\ exists products,
       broadcast (fun v m => fmul v (of_int m)) (Target._y t)
         (Target._inverse_mask_int t) = Ok products
       /\ v = Some (np_sum products).
Proof.
  intros Hc. unfold Target.summed_y.
  destruct (Target.y_sum_cache_up_to_date t) eqn:F.
  - intros H. injection H as <- <-. destruct (Hc F) as [products [Hb Hs]].
    split; [reflexivity |]. split; [reflexivity |]. split; [exact F |].
    split; [reflexivity |]. exists products. split; assumption.
  - destruct (broadcast _ (Target._y t) (Target._inverse_mask_int t))
      as [products | e] eqn:Hb; simpl; [| discriminate].
    intros H. injection H as <- <-.
    split; [reflexivity |]. split; [reflexivity |]. split; [reflexivity |].
    split; [reflexivity |]. exists products. split; reflexivity.
Qed.

Lemma after_calls_coherent (calls : list target_call) (t : Target.t) :
  cache_coherent t -> cache_coherent (after_calls calls t).
Proof.
  revert t. induction calls as [| c calls IH]; intros t Hc; simpl; [exact Hc |].
  destruct c as [y |].
  - apply IH. intros F. discriminate F.
  - destruct (Target.summed_y t) as [[v t1] | e] eqn:E; [| apply IH; exact Hc].
    apply IH.
    destruct (summed_y_result t t1 v Hc E) as [Ey [Ei [Ef [Es [products [Hb Hv]]]]]].
    intros _. exists products. rewrite Ey, Ei, Es. split; assumption.
Qed.

(** X3.  The cache never goes stale: on a Target built without [y_sum],
    after any sequence of [update_y] and [summed_y] calls, whatever
    [summed_y] returns is the sum of the current values times the inverse
    mask, and a set flag always sits next to that sum. *)
Theorem summed_y_never_stale
    (y : array) (mask : list bool) (n : Z) (normalize : bool) (t : Target.t)
    (calls : list target_call) :
  Target.init y mask n normalize None = Ok t ->
  let t' := after_calls calls t in
  cache_coherent t'
  /\ forall v t1,
       Target.summed_y t' = Ok (v, t1) ->
       exists products,
         broadcast (fun v m => fmul v (of_int m)) (Target.values t')
           (Target._inverse_mask_int t') = Ok products
         /\ v = Some (np_sum products).
Proof.
  intros Hinit t'.
  assert (H0 : cache_coherent t).
  { unfold Target.init in Hinit.
    destruct (if normalize then _ else _) as [[[omin omax] y'] | e]; simpl in Hinit;
      [| discriminate].
    injection Hinit as <-. intros F. discriminate F. }
  pose proof (after_calls_coherent calls t H0) as Hc. fold t' in Hc.
  split; [exact Hc |].
  intros v t1 E. exact (proj2 (proj2 (proj2 (proj2 (summed_y_result t' t1 v Hc E))))).
Qed.

Lemma summed_y_never_stale_witness :
  exists products,
    broadcast (fun v m => fmul v (of_int m))
      (Target.values
         (after_calls [Call_summed_y; Call_update_y [Finite 5; Finite 6]]
            (Target.mk None None [Finite 1; Finite 2] [true; false]
               (Target.inverse_mask_int [true; false]) 2 false None)))
      (Target._inverse_mask_int
         (after_calls [Call_summed_y; Call_update_y [Finite 5; Finite 6]]
            (Target.mk None None [Finite 1; Finite 2] [true; false]
               (Target.inverse_mask_int [true; false]) 2 false None)))
    = Ok products
    /\ Some (np_sum [fmul (Finite 5) (of_int 0); fmul (Finite 6) (of_int 1)])
       = Some (np_sum products).
Proof.
  exact (proj2 (summed_y_never_stale [Finite 1; Finite 2] [true; false] 2 false _
                  [Call_summed_y; Call_update_y [Finite 5; Finite 6]] eq_refl)
           _ _ eq_refl).
Defined.

Lemma broadcast_mismatch {A B C : Type} (f : A -> B -> C) (a : list A) (b : list B) :
  length a <> length b -> length a <> 1%nat -> length b <> 1%nat ->
  broadcast f a b = Raise ValueError.
Proof.
  intros Hab Ha Hb. unfold broadcast.
  destruct (Nat.eqb_spec (length a) (length b)) as [E | _]; [contradiction |].
  destruct a as [| x [| x' a]]; simpl in *; try congruence;
    destruct b as [| y0 [| y' b]]; simpl in *; congruence.
Qed.

(** X4.  [update_y] accepts a vector of any size; when its size differs
    from the mask's (and neither is one) the error only shows at the next
    [summed_y], which raises ValueError even if the cache was valid before
    the update. *)
Theorem summed_y_after_ill_sized_update (t : Target.t) (y : array) :
  length y <> length (Target._inverse_mask_int t) ->
  length y <> 1%nat ->
  length (Target._inverse_mask_int t) <> 1%nat ->
  Target.values (Target.update_y t y) = y
  /\ Target.summed_y (Target.update_y t y) = Raise ValueError.
Proof.
  intros Hl Hy Hm. split; [reflexivity |].
  unfold Target.summed_y. cbn [Target.update_y Target.y_sum_cache_up_to_date
    Target._y Target._inverse_mask_int].
  rewrite broadcast_mismatch by assumption. reflexivity.
Qed.

Lemma summed_y_after_ill_sized_update_witness :
  Target.summed_y
    (Target.update_y
       (Target.mk None None [Finite 1; Finite 2] [true; false]
          (Target.inverse_mask_int [true; false]) 2 true (Some (Finite 2)))
       [Finite 1; Finite 2; Finite 3])
  = Raise ValueError.
Proof.
  apply (summed_y_after_ill_sized_update
           (Target.mk None None [Finite 1; Finite 2] [true; false]
              (Target.inverse_mask_int [true; false]) 2 true (Some (Finite 2)))
           [Finite 1; Finite 2; Finite 3]); simpl; lia.
Defined.

Lemma np_sum_nonfinite (a : array) : In NonFinite a -> np_sum a = NonFinite.
Proof.
  unfold np_sum. induction a as [| x a IH]; simpl; [contradiction |].
  intros [-> | H]; [reflexivity |].
  rewrite (IH H). destruct x; reflexivity.
Qed.

Lemma zip_with_nonfinite (a : array) (m : list Z) :
  length a = length m -> In NonFinite a ->
  In NonFinite (zip_with (fun v k => fmul v (of_int k)) a m).
Proof.
  revert m. induction a as [| x a IH]; intros [| k m] Hl Hin; simpl in *;
    try contradiction; try discriminate.
  destruct Hin as [-> | H]; [left; reflexivity | right; apply IH; [lia | exact H]].
Qed.

(** X5.  The mask does not shield a non-finite value: the sum multiplies by
    the inverse mask instead of selecting, so one non-finite value, masked
    or not, makes the recomputed sum non-finite. *)
Theorem summed_y_poisoned_by_masked_nan (t : Target.t) :
  Target.y_sum_cache_up_to_date t = false ->
  length (Target.values t) = length (Target._inverse_mask_int t) ->
  In NonFinite (Target.values t) ->
  Target.summed_y t = Ok (Some NonFinite, Target.set_cache t (Some NonFinite) true).
Proof.
  unfold Target.values. intros Hf Hl Hin. unfold Target.summed_y.
  rewrite Hf, broadcast_same by exact Hl. cbn [bind].
  rewrite np_sum_nonfinite by (apply zip_with_nonfinite; assumption).
  reflexivity.
Qed.

Lemma summed_y_poisoned_by_masked_nan_witness :
  Target.summed_y
    (Target.mk None None [NonFinite; Finite 2] [true; false]
       (Target.inverse_mask_int [true; false]) 2 false None)
  = Ok (Some NonFinite,
        Target.set_cache
          (Target.mk None None [NonFinite; Finite 2] [true; false]
             (Target.inverse_mask_int [true; false]) 2 false None)
          (Some NonFinite) true).
Proof.
  apply summed_y_poisoned_by_masked_nan; [reflexivity | reflexivity | left; reflexivity].
Defined.

(** ** Target: what the calls leave alone *)

Lemma summed_y_keeps_frame (t t' : Target.t) (v : option float64) :
  Target.summed_y t = Ok (v, t') ->
  Target._mask t' = Target._mask t
  /\ Target._inverse_mask_int t' = Target._inverse_mask_int t
  /\ Target._n_obsv t' = Target._n_obsv t
  /\ Target._y t' = Target._y t.
Proof.
  unfold Target.summed_y.
  destruct (Target.y_sum_cache_up_to_date t).
  - intros H. injection H as _ <-. repeat split.
  - destruct (broadcast _ _ _) as [p | e]; simpl; [| discriminate].
    intros H. injection H as _ <-. repeat split.
Qed.

Lemma after_calls_keeps_frame (calls : list target_call) (t : Target.t) :
  Target._mask (after_calls calls t) = Target._mask t
  /\ Target._inverse_mask_int (after_calls calls t) = Target._inverse_mask_int t
  /\ Target._n_obsv (after_calls calls t) = Target._n_obsv t.
Proof.
  revert t. induction calls as [| c calls IH]; intros t; simpl; [repeat split |].
  destruct c as [y |].
  - destruct (IH (Target.update_y t y)) as [-> [-> ->]]. repeat split.
  - destruct (Target.summed_y t) as [[v t'] | e] eqn:E; [| apply IH].
    destruct (IH t') as [-> [-> ->]].
    destruct (summed_y_keeps_frame t t' v E) as [-> [-> [-> _]]]. repeat split.
Qed.

(** X6.  Only the values and the cache ever change.  After any sequence of
    [update_y] and [summed_y] calls on a Target built by [__init__], the
    mask, the count of observations and the stored minimum and maximum are
    those of the construction, the inverse mask is still the negation of the
    mask, and [unnormalize_y] and [normalizing_scale] answer as before:
    new values are neither re-normalized nor do they move the range. *)
Theorem target_frame_is_frozen
    (y : array) (mask : list bool) (n : Z) (normalize : bool)
    (y_sum : option float64) (t : Target.t) (calls : list target_call) :
  Target.init y mask n normalize y_sum = Ok t ->
  let t' := after_calls calls t in
  Target._mask t' = mask
  /\ Target._n_obsv t' = n
  /\ Target._inverse_mask_int t' = Target.inverse_mask_int (Target._mask t')
  /\ length (Target._inverse_mask_int t') = length mask
  /\ Target.original_y_min t' = Target.original_y_min t
  /\ Target.original_y_max t' = Target.original_y_max t
  /\ (forall v, Target.unnormalize_y t' v = Target.unnormalize_y t v)
  /\ Target.normalizing_scale t' = Target.normalizing_scale t.
Proof.
  intros Hinit t'.
  destruct (after_calls_keeps_frame calls t) as [Em [Ei En]].
  destruct (after_calls_keeps_min_max calls t) as [Elo Ehi].
  fold t' in Em, Ei, En, Elo, Ehi.
  assert (H0 : Target._mask t = mask /\ Target._n_obsv t = n
               /\ Target._inverse_mask_int t = Target.inverse_mask_int mask).
  { unfold Target.init in Hinit.
    destruct (if normalize then _ else _) as [[[omin omax] y'] | e]; simpl in Hinit;
      [| discriminate].
    injection Hinit as <-. destruct y_sum; repeat split. }
  destruct H0 as [Hm [Hn Hi]].
  rewrite Em, En, Ei, Hm, Hn, Hi.
  split; [reflexivity |]. split; [reflexivity |]. split; [reflexivity |].
  split; [unfold Target.inverse_mask_int; apply length_map |].
  split; [exact Elo |]. split; [exact Ehi |].
  split.
  - intros v. unfold Target.unnormalize_y. rewrite Elo, Ehi. reflexivity.
  - unfold Target.normalizing_scale. rewrite Elo, Ehi. reflexivity.
Qed.

Lemma target_frame_is_frozen_witness :
  exists t,
    Target.init [Finite 1; Finite 2] [true; false] 2 false None = Ok t
    /\ Target._mask (after_calls [Call_update_y [Finite 7]; Call_summed_y] t)
       = [true; false].
Proof.
  eexists. split; [reflexivity |].
  exact (proj1 (target_frame_is_frozen [Finite 1; Finite 2] [true; false] 2 false None _
                  [Call_update_y [Finite 7]; Call_summed_y] eq_refl)).
Defined.

(** ** LeafNodeSampler: a leaf without targets *)

(** X9.  A leaf without targets gets a non-finite value: the mean of no
    values is nan and spreads through the posterior mean, whatever the
    model's parameters; the scalar sampler is advanced all the same, and
    [step] stores the nan in the node. *)
Theorem empty_leaf_draws_nan
    (self : LeafNodeSampler.t) (model : Model.t) (node : LeafNode.t)
    (w w' : World) (eps : float64) :
  Data.y (LeafNode.data node) = [] ->
  NormalScalarSampler_sample (LeafNodeSampler._scalar_sampler self) w = Ok (eps, w') ->
  LeafNodeSampler.sample self model node w = Ok (NonFinite, w')
  /\ LeafNodeSampler.step self model node w
     = Ok (NonFinite, LeafNode.set_value node NonFinite, w').
Proof.
  intros Hy Hdraw.
  assert (E : LeafNodeSampler.sample self model node w = Ok (NonFinite, w')).
  { unfold LeafNodeSampler.sample. rewrite Hy, Hdraw. cbn [bind].
    unfold np_mean. simpl np_sum. simpl length.
    change (of_int (Z.of_nat 0)) with (Finite 0). rewrite fdiv_zero.
    reflexivity. }
  split; [exact E |].
  unfold LeafNodeSampler.step. rewrite E. reflexivity.
Qed.

Lemma empty_leaf_draws_nan_witness :
  exists w',
    LeafNodeSampler.sample (LeafNodeSampler.mk 0%nat) example_model
      (LeafNode.mk (Data.mk [] (Target.mk None None [] [] [] 0 false None)) (Finite 0))
      example_world
    = Ok (NonFinite, w').
Proof.
  eexists.
  exact (proj1 (empty_leaf_draws_nan (LeafNodeSampler.mk 0%nat) example_model
                  (LeafNode.mk (Data.mk [] (Target.mk None None [] [] [] 0 false None))
                     (Finite 0))
                  example_world _ (Finite 1) eq_refl eq_refl)).
Defined.

(** ** LeafNodeSampler: samplers given their own scalar sampler *)

Lemma nth_error_set_nth_other {A : Type} (l : list A) (i j : nat) (a : A) :
  i <> j -> nth_error (set_nth l i a) j = nth_error l j.
Proof.
  revert i j. induction l as [| x l IH]; intros i j Hij; [destruct i; reflexivity |].
  destruct i as [| i], j as [| j]; simpl; try reflexivity; try congruence.
  apply IH. congruence.
Qed.

Lemma scalar_sample_keeps_others (la lb : loc) (w w1 : World) (x : float64) :
  la <> lb ->
  NormalScalarSampler_sample la w = Ok (x, w1) ->
  nth_error (heap w1) lb = nth_error (heap w) lb.
Proof.
  intros Hab. unfold NormalScalarSampler_sample.
  destruct (nth_error (heap w) la) as [s |]; [| discriminate].
  destruct (Nat.ltb (NormalScalarSampler.cursor s)
              (length (NormalScalarSampler.pool s))).
  - destruct (nth_error (NormalScalarSampler.pool s) (NormalScalarSampler.cursor s));
      [| discriminate].
    intros H. injection H as _ <-. unfold store. cbn [heap].
    apply nth_error_set_nth_other. exact Hab.
  - unfold np_random_normal.
    cbn [NormalScalarSampler.pool NormalScalarSampler.cursor
         NormalScalarSampler.cache_size].
    destruct (nth_error _ 0); [| discriminate].
    intros H. injection H as _ <-. unfold store. cbn [heap].
    apply nth_error_set_nth_other. exact Hab.
Qed.

Lemma leaf_sample_draws (self : LeafNodeSampler.t) (model : Model.t)
    (node : LeafNode.t) (w w1 : World) (x : float64) :
  LeafNodeSampler.sample self model node w = Ok (x, w1) ->
  exists eps,
    NormalScalarSampler_sample (LeafNodeSampler._scalar_sampler self) w = Ok (eps, w1).
Proof.
  unfold LeafNodeSampler.sample.
  destruct (NormalScalarSampler_sample _ w) as [[eps w2] | e]; simpl; [| discriminate].
  intros H. injection H as _ <-. exists eps. reflexivity.
Qed.

(** X10.  Samplers built with scalar samplers of their own are independent
    as long as the pool lasts: a draw through [a] leaves the scalar sampler
    of [b] untouched, so [b] then returns for any leaf the very value it
    would have returned had [a] not drawn.  (The scalar sampler is the
    pooled sampler of section 4.2.) *)
Theorem explicit_scalar_samplers_are_independent
    (defaults la lb : loc) (w w1 : World) (sb : NormalScalarSampler.t) (v x : float64)
    (model_a model : Model.t) (node_a node : LeafNode.t) :
  la <> lb ->
  nth_error (heap w) lb = Some sb ->
  nth_error (NormalScalarSampler.pool sb) (NormalScalarSampler.cursor sb) = Some v ->
  let a := LeafNodeSampler.init defaults (Some la) in
  let b := LeafNodeSampler.init defaults (Some lb) in
  LeafNodeSampler.sample a model_a node_a w = Ok (x, w1) ->
  nth_error (heap w1) lb = Some sb
  /\ exists value w2 w2',
       LeafNodeSampler.sample b model node w = Ok (value, w2)
       /\ LeafNodeSampler.sample b model node w1 = Ok (value, w2').
Proof.
  intros Hab Hsb Hv a b Ha.
  destruct (leaf_sample_draws a model_a node_a w w1 x Ha) as [eps He].
  cbn [a LeafNodeSampler.init LeafNodeSampler._scalar_sampler] in He.
  pose proof (scalar_sample_keeps_others la lb w w1 eps Hab He) as Hk.
  rewrite Hsb in Hk.
  split; [exact Hk |].
  unfold LeafNodeSampler.sample.
  cbn [b LeafNodeSampler.init LeafNodeSampler._scalar_sampler].
  rewrite (sample_from_pool lb w sb v Hsb Hv), (sample_from_pool lb w1 sb v Hk Hv).
  cbn [bind]. eexists. eexists. eexists. split; reflexivity.
Qed.

Lemma explicit_scalar_samplers_are_independent_witness :
  exists value w2 w2',
    LeafNodeSampler.sample (LeafNodeSampler.init 0%nat (Some 1%nat)) example_model
      example_node
      (mkWorld INR 0 [NormalScalarSampler.mk 2 [Finite 1; Finite 2] 0;
                      NormalScalarSampler.mk 2 [Finite 3; Finite 4] 0])
    = Ok (value, w2)
    /\ LeafNodeSampler.sample (LeafNodeSampler.init 0%nat (Some 1%nat)) example_model
         example_node
         (store 0%nat (NormalScalarSampler.mk 2 [Finite 1; Finite 2] 1)
            (mkWorld INR 0 [NormalScalarSampler.mk 2 [Finite 1; Finite 2] 0;
                            NormalScalarSampler.mk 2 [Finite 3; Finite 4] 0]))
       = Ok (value, w2').
Proof.
  refine (proj2 (explicit_scalar_samplers_are_independent 0%nat 0%nat 1%nat
                   (mkWorld INR 0 [NormalScalarSampler.mk 2 [Finite 1; Finite 2] 0;
                                   NormalScalarSampler.mk 2 [Finite 3; Finite 4] 0])
                   _ (NormalScalarSampler.mk 2 [Finite 3; Finite 4] 0) (Finite 3) _
                   example_model example_model example_node example_node
                   _ eq_refl eq_refl eq_refl)).
  discriminate.
Defined.

(** ** SklearnModel: before the fit *)

(** X11.  A facade that was constructed but not fitted answers no query:
    [predict()] raises ValueError when in-sample predictions are not stored
    and AttributeError otherwise, [predict(X)] raises AttributeError, the
    error measures raise what [predict] raises when targets are given and
    AttributeError when they are not, [acceptance_trace] and
    [from_extract] raise AttributeError, and [model_samples] is [None]. *)
Theorem unfitted_facade_answers_nothing
    (leaf_defaults : loc) (p : SklearnModel.params) (X : Covariates)
    (oX : option Covariates) (y : array) (extract : list ChainExtract) :
  let self := SklearnModel.new leaf_defaults p in
  let predict_error :=
    match oX, SklearnModel.store_in_sample_predictions p with
    | None, false => ValueError
    | _, _ => AttributeError
    end in
  SklearnModel.predict self (Some X) = Raise AttributeError
  /\ SklearnModel.predict self oX = Raise predict_error
  /\ SklearnModel.residuals self oX (Some y) = Raise predict_error
  /\ SklearnModel.l2_error self oX (Some y) = Raise predict_error
  /\ SklearnModel.rmse self oX (Some y) = Raise predict_error
  /\ SklearnModel.residuals self oX None = Raise AttributeError
  /\ SklearnModel.rmse self oX None = Raise AttributeError
  /\ SklearnModel.acceptance_trace self = Raise AttributeError
  /\ SklearnModel.from_extract self extract X y = Raise AttributeError
  /\ SklearnModel.model_samples self = None.
Proof.
  intros self predict_error.
  assert (E : SklearnModel.predict self oX = Raise predict_error).
  { unfold predict_error, SklearnModel.predict, SklearnModel._out_of_sample_predict.
    destruct oX as [X0 |]; [reflexivity |].
    cbn [self SklearnModel.new SklearnModel.hyper].
    destruct (SklearnModel.store_in_sample_predictions p); reflexivity. }
  split; [reflexivity |]. split; [exact E |].
  unfold SklearnModel.rmse, SklearnModel.l2_error, SklearnModel.residuals.
  rewrite E. repeat split; reflexivity.
Qed.

(** ** SklearnModel: what [_combine_chains] requires of the chains *)

Lemma getitem_error {V : Type} (d : dict V) (key : string) (e : exn) :
  getitem d key = Raise e -> e = KeyError.
Proof.
  induction d as [| [k v] d IH]; simpl.
  - intros H. injection H as <-. reflexivity.
  - destruct (String.eqb k key); [discriminate | exact IH].
Qed.

Lemma getitem_keys {V : Type} (d : dict V) (key : string) (v : V) :
  getitem d key = Ok v -> In key (keys d).
Proof.
  intros H. apply getitem_In in H. unfold keys.
  apply in_map_iff. exists (key, v). split; [reflexivity | exact H].
Qed.

Lemma getitem_missing {V : Type} (d : dict V) (key : string) :
  ~ In key (keys d) -> getitem d key = Raise KeyError.
Proof.
  intros N. destruct (getitem d key) as [v | e] eqn:E.
  - exfalso. apply N. exact (getitem_keys d key v E).
  - rewrite (getitem_error d key e E). reflexivity.
Qed.

Lemma mapM_getitem_missing {V : Type} (extract : list (dict V)) (key : string)
    (chain : dict V) :
  In chain extract -> ~ In key (keys chain) ->
  mapM (fun c => getitem c key) extract = Raise KeyError.
Proof.
  induction extract as [| c extract IH]; [contradiction |].
  intros Hin N. simpl.
  destruct (getitem c key) as [v | e] eqn:E; simpl.
  - destruct Hin as [-> | Hin].
    + exfalso. apply N. exact (getitem_keys _ _ _ E).
    + rewrite (IH Hin N). reflexivity.
  - rewrite (getitem_error c key e E). reflexivity.
Qed.

Lemma mapM_keys {A : Type} (f : string -> result (string * A)) (ks : list string)
    (out : list (string * A)) :
  (forall k kv, f k = Ok kv -> fst kv = k) ->
  mapM f ks = Ok out -> keys out = ks.
Proof.
  intros Hf H. apply mapM_Forall2 in H. unfold keys.
  induction H as [| k kv ks out Hk _ IH]; simpl; [reflexivity |].
  rewrite (Hf k kv Hk), IH. reflexivity.
Qed.

Lemma mapM_In {A B : Type} (f : A -> result B) (l : list A) (bs : list B) (a : A) :
  mapM f l = Ok bs -> In a l -> exists b, f a = Ok b.
Proof.
  intros H. apply mapM_Forall2 in H.
  induction H as [| x b l bs Hx _ IH]; [contradiction |].
  intros [<- | Hin]; [exists b; exact Hx | auto].
Qed.

Lemma mapM_head_raises {A B : Type} (f : A -> result B) (a : A) (l : list A) (e : exn) :
  f a = Raise e -> mapM f (a :: l) = Raise e.
Proof. intros H. simpl. rewrite H. reflexivity. Qed.

(** X12.  [_combine_chains] takes its keys from the first chain alone: on
    no chain at all it raises IndexError; when some chain lacks the first
    key of the first chain it raises KeyError; and when it returns, the
    combined extract has exactly the keys of the first chain, in their
    order, every chain had each of them, and keys that only later chains
    hold are dropped. *)
Theorem combine_chains_follows_first_chain :
  SklearnModel._combine_chains [] = Raise IndexError
  /\ (forall (first : ChainExtract) (rest : list ChainExtract) (chain : ChainExtract)
             (key : string) (others : list string),
        keys first = key :: others ->
        In chain (first :: rest) -> ~ In key (keys chain) ->
        SklearnModel._combine_chains (first :: rest) = Raise KeyError)
  /\ (forall (first : ChainExtract) (rest : list ChainExtract) (combined : dict ndarray),
        SklearnModel._combine_chains (first :: rest) = Ok combined ->
        keys combined = keys first
        /\ (forall chain key, In chain (first :: rest) -> In key (keys first) ->
              In key (keys chain))
        /\ (forall key, ~ In key (keys first) -> getitem combined key = Raise KeyError)).
Proof.
  split; [reflexivity |]. split.
  - intros first rest chain key others Hk Hin N.
    unfold SklearnModel._combine_chains. rewrite Hk.
    apply mapM_head_raises.
    rewrite (mapM_getitem_missing (first :: rest) key chain Hin N). reflexivity.
  - intros first rest combined H.
    unfold SklearnModel._combine_chains in H.
    assert (K : keys combined = keys first).
    { pose proof H as H'. apply (mapM_keys _ _ _) in H'; [exact H' |].
      intros k kv. cbv beta.
      destruct (mapM (fun c => getitem c k) (first :: rest)) as [parts | e];
        simpl; [| discriminate].
      destruct (np_concatenate parts) as [joined | e]; simpl; [| discriminate].
      intros E. injection E as <-. reflexivity. }
    split; [exact K |]. split.
    + intros chain key Hin Hkey.
      destruct (mapM_In _ _ _ key H Hkey) as [kv G]. cbv beta in G.
      destruct (mapM (fun c => getitem c key) (first :: rest)) as [parts | e] eqn:Ep;
        simpl in G; [| discriminate].
      destruct (mapM_In _ _ _ chain Ep Hin) as [v Hv].
      exact (getitem_keys _ _ _ Hv).
    + intros key N. apply getitem_missing. rewrite K. exact N.
Qed.

(** ** SklearnModel: chains whose prediction rows do not fit together *)

Lemma asarray_error (l : pylist) (e : exn) : asarray l = Raise e -> e = ValueError.
Proof.
  unfold asarray. destruct (rows_of l) as [[| r rs] |].
  - discriminate.
  - destruct (forallb (fun r' => Nat.eqb (length r') (length r)) rs); [discriminate |].
    intros H. injection H as <-. reflexivity.
  - destruct (existsb is_row l); [| discriminate]. intros H. injection H as <-. reflexivity.
Qed.

Lemma mapM_error {A B : Type} (f : A -> result B) (l : list A) (e e0 : exn) :
  (forall a e', f a = Raise e' -> e' = e0) -> mapM f l = Raise e -> e = e0.
Proof.
  intros Hf. induction l as [| a l IH]; simpl; [discriminate |].
  destruct (f a) as [b | e'] eqn:Ea; simpl.
  - destruct (mapM f l) as [bs | e'']; simpl; [discriminate |].
    intros H. injection H as <-. apply IH. reflexivity.
  - intros H. injection H as <-. exact (Hf a e' Ea).
Qed.

Lemma concat2_error (a b : ndarray) (e : exn) : concat2 a b = Raise e -> e = ValueError.
Proof.
  destruct a as [x | w x], b as [y0 | w' y0]; simpl; try discriminate;
    try (intros H; injection H as <-; reflexivity).
  destruct (Nat.eqb w w'); [discriminate |]. intros H. injection H as <-. reflexivity.
Qed.

Lemma concat_from_error (rest : list ndarray) (acc : ndarray) (e : exn) :
  concat_from acc rest = Raise e -> e = ValueError.
Proof.
  revert acc. induction rest as [| b rest IH]; intros acc; simpl; [discriminate |].
  destruct (concat2 acc b) as [ab | e'] eqn:E; simpl.
  - apply IH.
  - intros H. injection H as <-. exact (concat2_error _ _ _ E).
Qed.

Lemma np_concatenate_error (parts : list pylist) (e : exn) :
  np_concatenate parts = Raise e -> e = ValueError.
Proof.
  unfold np_concatenate.
  destruct (mapM asarray parts) as [arrs | e'] eqn:E; simpl.
  - destruct arrs as [| a rest]; [intros H; injection H as <-; reflexivity |].
    apply concat_from_error.
  - intros H. injection H as <-. exact (mapM_error asarray parts e' ValueError asarray_error E).
Qed.

Lemma concat2_width (a b c : ndarray) :
  concat2 a b = Ok c -> width_of b = width_of a /\ width_of c = width_of a.
Proof.
  destruct a as [x | w x], b as [y0 | w' y0]; simpl; try discriminate.
  - intros H. injection H as <-. split; reflexivity.
  - destruct (Nat.eqb_spec w w') as [-> | _]; [| discriminate].
    intros H. injection H as <-. split; reflexivity.
Qed.

Lemma concat_from_width (rest : list ndarray) (acc a : ndarray) :
  concat_from acc rest = Ok a ->
  forall b, In b rest -> width_of b = width_of acc.
Proof.
  revert acc. induction rest as [| b0 rest IH]; intros acc H b Hb; [contradiction |].
  simpl in H. destruct (concat2 acc b0) as [ab | e] eqn:E; simpl in H; [| discriminate].
  destruct (concat2_width _ _ _ E) as [Wb Wab].
  destruct Hb as [<- | Hb]; [exact Wb |].
  rewrite <- Wab. exact (IH ab H b Hb).
Qed.

Lemma Forall2_pick {A B : Type} (P : A -> B -> Prop) (l : list A) (bs : list B) (a : A) :
  Forall2 P l bs -> In a l -> exists b, In b bs /\ P a b.
Proof.
  induction 1 as [| x b l bs Hx _ IH]; [contradiction |].
  intros [<- | Hin].
  - exists b. split; [left; reflexivity | exact Hx].
  - destruct (IH Hin) as [b' [Hb' Hp]]. exists b'. split; [right; exact Hb' | exact Hp].
Qed.

(** When [np.concatenate] returns, all its arguments became arrays of one
    width (or all one-dimensional). *)
Lemma np_concatenate_one_width (parts : list pylist) (a : ndarray) :
  np_concatenate parts = Ok a ->
  exists wopt, forall l, In l parts -> exists b, asarray l = Ok b /\ width_of b = wopt.
Proof.
  unfold np_concatenate.
  destruct (mapM asarray parts) as [arrs | e] eqn:E; simpl; [| discriminate].
  destruct arrs as [| a0 rest]; [discriminate |].
  intros H. exists (width_of a0). intros l Hl.
  apply mapM_Forall2 in E.
  pose proof (concat_from_width rest a0 a H) as W.
  destruct (Forall2_pick _ _ _ l E Hl) as [b [Hb Ha]].
  exists b. split; [exact Ha |].
  destruct Hb as [<- | Hb]; [reflexivity | exact (W b Hb)].
Qed.

Lemma asarray_rows_width (rows : list array) (b : ndarray) :
  asarray (map PRow rows) = Ok b ->
  (rows = [] /\ width_of b = None)
  \/ (exists w, width_of b = Some w /\ rows <> [] /\ forall r, In r rows -> length r = w).
Proof.
  unfold asarray. rewrite rows_of_rows.
  destruct rows as [| r rs].
  - intros H. injection H as <-. left. split; reflexivity.
  - destruct (forallb (fun r' => Nat.eqb (length r') (length r)) rs) eqn:F; [| discriminate].
    intros H. injection H as <-. right. exists (length r).
    split; [reflexivity |]. split; [discriminate |].
    intros r0 [<- | Hin]; [reflexivity |].
    rewrite forallb_forall in F. apply Nat.eqb_eq. exact (F r0 Hin).
Qed.

(** X13.  The chains must agree on their prediction rows: if one chain
    retained rows and another retained none, or two rows anywhere in the
    chains differ in size, [_combine_chains] raises ValueError. *)
Theorem combine_chains_rejects_uneven_rows (cs : list retained) (c1 c2 : retained) :
  In c1 cs -> In c2 cs ->
  (rows_of_chain c1 = [] /\ rows_of_chain c2 <> []
   \/ exists r1 r2, In r1 (rows_of_chain c1) /\ In r2 (rows_of_chain c2)
                    /\ length r1 <> length r2) ->
  SklearnModel._combine_chains (map extract_of cs) = Raise ValueError.
Proof.
  intros H1 H2 Hbad.
  assert (Hne : forall (B : Type) (g : retained -> B), map g cs <> []).
  { intros B g. destruct cs; [contradiction | discriminate]. }
  assert (Hrows : exists e,
             np_concatenate (map (fun c => map PRow (rows_of_chain c)) cs) = Raise e).
  { destruct (np_concatenate (map (fun c => map PRow (rows_of_chain c)) cs))
      as [a | e] eqn:E; [| exists e; reflexivity].
    exfalso.
    destruct (np_concatenate_one_width _ a E) as [wopt W].
    destruct (W (map PRow (rows_of_chain c1))) as [b1 [A1 W1]];
      [apply in_map_iff; exists c1; split; [reflexivity | exact H1] |].
    destruct (W (map PRow (rows_of_chain c2))) as [b2 [A2 W2]];
      [apply in_map_iff; exists c2; split; [reflexivity | exact H2] |].
    apply asarray_rows_width in A1. apply asarray_rows_width in A2.
    destruct Hbad as [[E1 N2] | [r1 [r2 [I1 [I2 Hd]]]]].
    - destruct A2 as [[E2 _] | [w2 [Hw2 _]]]; [contradiction |].
      destruct A1 as [[_ Hw1] | [w1 [_ [N1 _]]]]; [congruence | contradiction].
    - destruct A1 as [[E1 _] | [w1 [Hw1 [_ L1]]]]; [rewrite E1 in I1; contradiction |].
      destruct A2 as [[E2 _] | [w2 [Hw2 [_ L2]]]]; [rewrite E2 in I2; contradiction |].
      apply Hd. rewrite (L1 r1 I1), (L2 r2 I2). congruence. }
  destruct Hrows as [e He]. pose proof (np_concatenate_error _ e He) as ->.
  unfold SklearnModel._combine_chains.
  destruct (map extract_of cs) as [| first rest] eqn:E;
    [destruct cs; [contradiction | discriminate] |].
  assert (K : keys first = ["model"; "acceptance"; "in_sample_predictions"]%string).
  { destruct cs as [| c cs']; [contradiction |]. simpl in E. injection E as <- _.
    reflexivity. }
  rewrite K, <- E. clear K E first rest.
  cbn [mapM].
  rewrite !mapM_map.
  rewrite (mapM_ok _ (fun c => map PModel (models_of c)) cs) by (intros; reflexivity).
  rewrite (mapM_ok _ (fun c => map PAccept (accepts_of c)) cs) by (intros; reflexivity).
  rewrite (mapM_ok _ (fun c => map PRow (rows_of_chain c)) cs) by (intros; reflexivity).
  cbn [bind].
  rewrite np_concatenate_arr1;
    [| apply Hne
     | intros l Hl; apply in_map_iff in Hl; destruct Hl as [c [<- _]];
       apply asarray_models].
  cbn [bind].
  rewrite np_concatenate_arr1;
    [| apply Hne
     | intros l Hl; apply in_map_iff in Hl; destruct Hl as [c [<- _]];
       apply asarray_accepts].
  cbn [bind]. rewrite He. reflexivity.
Qed.

Lemma combine_chains_rejects_uneven_rows_witness :
  SklearnModel._combine_chains
    (map extract_of [([], [], [[Finite 1]]); ([], [], [[Finite 1; Finite 2]])])
  = Raise ValueError.
Proof.
  apply (combine_chains_rejects_uneven_rows _ ([], [], [[Finite 1]])
           ([], [], [[Finite 1; Finite 2]])).
  - left. reflexivity.
  - right. left. reflexivity.
  - right. exists [Finite 1], [Finite 1; Finite 2].
    split; [left; reflexivity |]. split; [left; reflexivity |]. simpl. lia.
Defined.

(** ** SklearnModel: fits that never reach a chain *)

(** X14.  Whatever the chain sampler is, fitting on no targets raises
    ValueError (from the normalization of an empty vector), and fitting
    with [n_chains <= 0] on some targets raises IndexError (from combining
    no chains). *)
Theorem fit_without_targets_or_chains
    (Sigma_init : R -> R -> float64 -> Sigma.t)
    (Model_init : Data.t -> Sigma.t -> Z -> R -> R -> Model.t)
    (samples : ModelSampler.t -> Model.t -> Z -> Z -> R -> bool -> bool ->
               World -> result (ChainExtract * World))
    (self : SklearnModel.t) (X : Covariates) (y : array) (w : World) :
  SklearnModel.fit Sigma_init Model_init samples self X [] w = Raise ValueError
  /\ (y <> [] -> (SklearnModel.n_chains (SklearnModel.hyper self) <= 0)%Z ->
      SklearnModel.fit Sigma_init Model_init samples self X y w = Raise IndexError).
Proof.
  split; [reflexivity |].
  intros Hne Hch.
  destruct (construct_model_ok Sigma_init Model_init self X y Hne)
    as [self1 [m [Hc [Hh Hsm]]]].
  unfold SklearnModel.fit. rewrite Hc. cbn [bind].
  unfold SklearnModel.f_delayed_chains, SklearnModel.f_chains, range.
  rewrite Hh.
  replace (Z.to_nat (SklearnModel.n_chains (SklearnModel.hyper self))) with 0%nat by lia.
  reflexivity.
Qed.

Lemma fit_without_targets_or_chains_witness :
  SklearnModel.fit example_Sigma_init example_Model_init
    (retaining_samples example_model [Finite 0])
    (SklearnModel.new 0%nat
       (SklearnModel.mk_params 50 0 0.001 0.001 200 200 0.1 0.5 0.5 0.95 2 true true (-1)))
    [] [Finite 1; Finite 2] example_world
  = Raise IndexError.
Proof.
  apply (proj2 (fit_without_targets_or_chains example_Sigma_init example_Model_init
                  (retaining_samples example_model [Finite 0])
                  (SklearnModel.new 0%nat
                     (SklearnModel.mk_params 50 0 0.001 0.001 200 200 0.1 0.5 0.5 0.95 2
                        true true (-1)))
                  [] [Finite 1; Finite 2] example_world)).
  - discriminate.
  - simpl. lia.
Defined.

(** ** SklearnModel: what the fit builds *)

Lemma data_init_finite (X : Covariates) (ys : list R) :
  ys <> [] ->
  exists d,
    Data.init X (map Finite ys) true = Ok d
    /\ Data.X d = X
    /\ Target.original_y_min (Data.target d) = Some (Finite (min_of ys))
    /\ Target.original_y_max (Data.target d) = Some (Finite (max_of ys))
    /\ Target.normalize_y (map Finite ys) = Ok (Data.y d)
    /\ Data.n_obsv d = Z.of_nat (length ys)
    /\ Target._mask (Data.target d) = repeat false (length ys)
    /\ Data.normalizing_scale d = Ok (Finite (max_of ys - min_of ys)).
Proof.
  intros Hne. unfold Data.init, Target.init.
  rewrite np_min_finite, np_max_finite by exact Hne.
  unfold Target.normalize_y.
  rewrite np_min_finite, np_max_finite by exact Hne.
  cbn [bind]. rewrite length_map.
  eexists. split; [reflexivity |].
  repeat (split; [reflexivity |]). reflexivity.
Qed.

Lemma construct_model_steps
    (Sigma_init : R -> R -> float64 -> Sigma.t)
    (Model_init : Data.t -> Sigma.t -> Z -> R -> R -> Model.t)
    (self : SklearnModel.t) (X : Covariates) (y : array) (d : Data.t) (scale : float64) :
  Data.init X y true = Ok d ->
  Data.normalizing_scale d = Ok scale ->
  let p := SklearnModel.hyper self in
  let sg := Sigma_init (SklearnModel.sigma_a p) (SklearnModel.sigma_b p) scale in
  let m := Model_init d sg (SklearnModel.n_trees p) (SklearnModel.alpha p)
             (SklearnModel.beta p) in
  let st := SklearnModel.state self in
  SklearnModel._construct_model Sigma_init Model_init self X y
  = Ok (SklearnModel.with_state self
          (SklearnModel.mk_fitted (Some sg) (Some d) (Some m)
             (SklearnModel._prediction_samples st) (SklearnModel._model_samples st)
             (SklearnModel.extract st) (SklearnModel.combined_chains st)
             (SklearnModel._acceptance_trace st)),
        m).
Proof.
  intros Hd Hs. cbv zeta.
  unfold SklearnModel._construct_model, SklearnModel._convert_covariates_to_data.
  rewrite Hd. cbn [bind]. rewrite Hs. reflexivity.
Qed.

(** X15.  What [_construct_model] hands on, for finite targets [ys]: the
    Data keeps [X] and holds what [normalize_y] makes of [ys]; Sigma
    receives the scale, the difference of the largest and the smallest
    target; the Model receives that Data and Sigma with [n_trees], [alpha]
    and [beta]; hyperparameters and sampler objects of the facade stay.
    For constant targets nothing is raised: the scale is zero and every
    target the Model sees is non-finite. *)
Theorem construct_model_normalizes_targets
    (Sigma_init : R -> R -> float64 -> Sigma.t)
    (Model_init : Data.t -> Sigma.t -> Z -> R -> R -> Model.t)
    (self : SklearnModel.t) (X : Covariates) (ys : list R) :
  ys <> [] ->
  let p := SklearnModel.hyper self in
  let scale := fsub (Finite (max_of ys)) (Finite (min_of ys)) in
  exists self1 d,
    let sg := Sigma_init (SklearnModel.sigma_a p) (SklearnModel.sigma_b p) scale in
    let m := Model_init d sg (SklearnModel.n_trees p) (SklearnModel.alpha p)
               (SklearnModel.beta p) in
    SklearnModel._construct_model Sigma_init Model_init self X (map Finite ys)
    = Ok (self1, m)
    /\ SklearnModel.hyper self1 = p
    /\ SklearnModel.sampler self1 = SklearnModel.sampler self
    /\ SklearnModel.data (SklearnModel.state self1) = Some d
    /\ SklearnModel.sigma (SklearnModel.state self1) = Some sg
    /\ SklearnModel.model (SklearnModel.state self1) = Some m
    /\ Data.X d = X
    /\ Data.n_obsv d = Z.of_nat (length ys)
    /\ Target.normalize_y (map Finite ys) = Ok (Data.y d)
    /\ Data.normalizing_scale d = Ok scale
    /\ (constant ys ->
        scale = Finite 0 /\ Data.y d = map (fun _ => NonFinite) ys).
Proof.
  intros Hne p scale.
  destruct (data_init_finite X ys Hne) as [d [Hd [HX [Hlo [Hhi [Hn [Hobs [_ Hs]]]]]]]].
  eexists. exists d. cbv zeta.
  split; [exact (construct_model_steps Sigma_init Model_init self X _ d _ Hd Hs) |].
  repeat (split; [reflexivity |]).
  split; [exact HX |]. split; [exact Hobs |].
  split; [exact Hn |]. split; [exact Hs |].
  intros C. split.
  - unfold scale. simpl. f_equal. rewrite (constant_min_eq_max ys C). lra.
  - rewrite (normalize_y_constant ys Hne C) in Hn. injection Hn as <-. reflexivity.
Qed.

Lemma construct_model_normalizes_targets_witness :
  exists self1 d m,
    SklearnModel._construct_model example_Sigma_init example_Model_init
      (SklearnModel.new 0%nat SklearnModel.default_params) [] (map Finite [1; 1])
    = Ok (self1, m)
    /\ SklearnModel.data (SklearnModel.state self1) = Some d.
Proof.
  destruct (construct_model_normalizes_targets example_Sigma_init example_Model_init
              (SklearnModel.new 0%nat SklearnModel.default_params) [] [1; 1])
    as [self1 [d [H1 [_ [_ [H4 _]]]]]].
  - discriminate.
  - exists self1, d. eexists. split; [exact H1 | exact H4].
Defined.

(** ** SklearnModel: fitting, then asking *)

Lemma finite_array (a : array) : Forall is_finite a -> exists l, a = map Finite l.
Proof.
  induction 1 as [| x a Hx _ [l ->]]; [exists []; reflexivity |].
  destruct x as [r |]; [| contradiction]. exists (r :: l). reflexivity.
Qed.

Lemma finite_rows (rows : list array) :
  Forall (Forall is_finite) rows -> exists rr, rows = map (map Finite) rr.
Proof.
  induction 1 as [| r rows Hr _ [rr ->]]; [exists []; reflexivity |].
  destruct (finite_array r Hr) as [l ->]. exists (l :: rr). reflexivity.
Qed.

Lemma Forall_concat {A : Type} (P : A -> Prop) (ls : list (list A)) :
  Forall (Forall P) ls -> Forall P (concat ls).
Proof.
  induction 1 as [| l ls Hl _ IH]; simpl; [constructor |].
  apply Forall_app. split; assumption.
Qed.

Section Fitting.

Variable Sigma_init : R -> R -> float64 -> Sigma.t.
Variable Model_init : Data.t -> Sigma.t -> Z -> R -> R -> Model.t.
Variable samples :
  ModelSampler.t -> Model.t -> Z -> Z -> R -> bool -> bool ->
  World -> result (ChainExtract * World).

(** The chains of a fit: every chain is run on a freshly built model with
    the hyperparameters of the facade, and the extracts come back in
    order. *)
Lemma fit_runs_chains (Q : retained -> Prop) (self self1 : SklearnModel.t)
    (X : Covariates) (y : array) (w : World) :
  y <> [] ->
  SklearnModel.hyper self1 = SklearnModel.hyper self ->
  (forall sampler m w0, exists c w1,
     samples sampler m (SklearnModel.n_samples (SklearnModel.hyper self))
       (SklearnModel.n_burn (SklearnModel.hyper self))
       (SklearnModel.thin (SklearnModel.hyper self))
       (SklearnModel.store_in_sample_predictions (SklearnModel.hyper self))
       (SklearnModel.store_acceptance_trace (SklearnModel.hyper self)) w0
     = Ok (extract_of c, w1) /\ Q c) ->
  exists cs w',
    SklearnModel.Parallel
      (SklearnModel.f_delayed_chains Sigma_init Model_init samples self1 X y) w
    = Ok (map extract_of cs, w')
    /\ length cs = Z.to_nat (SklearnModel.n_chains (SklearnModel.hyper self))
    /\ Forall Q cs.
Proof.
  intros Hne Hh Hs.
  set (P := fun e : ChainExtract => exists c, e = extract_of c /\ Q c).
  assert (Htask : forall task,
             In task (SklearnModel.f_delayed_chains Sigma_init Model_init samples self1 X y) ->
             forall w0, exists a w1, task w0 = Ok (a, w1) /\ P a).
  { intros task Ht w0. unfold SklearnModel.f_delayed_chains, SklearnModel.f_chains in Ht.
    rewrite map_map in Ht. apply in_map_iff in Ht. destruct Ht as [i [<- _]].
    unfold SklearnModel.delayed_run_chain, SklearnModel.run_chain.
    destruct (construct_model_ok Sigma_init Model_init self1 X y Hne)
      as [self2 [m2 [Hc2 [Hh2 Hsm2]]]].
    rewrite Hc2. cbn [bind]. rewrite Hh2, Hh.
    destruct (Hs (SklearnModel.sampler self2) m2 w0) as [c [w1 [E Hc']]].
    exists (extract_of c), w1. split; [exact E |]. exists c. split; [reflexivity | exact Hc']. }
  destruct (Parallel_all P _ Htask w) as [ex [w' [Hpar [Hlen Hall]]]].
  destruct (Forall_images extract_of _ ex Hall) as [cs [-> Hcs]].
  exists cs, w'. split; [exact Hpar |]. split; [| exact Hcs].
  rewrite length_map in Hlen. rewrite Hlen.
  unfold SklearnModel.f_delayed_chains. rewrite length_map, f_chains_length, Hh.
  reflexivity.
Qed.

(** The facade after a fit whose chains all retained rows of width [wd]. *)
Lemma fit_outcome (Q : retained -> Prop) (wd : nat) (self : SklearnModel.t)
    (X : Covariates) (y : array) (w : World) :
  (1 <= SklearnModel.n_chains (SklearnModel.hyper self))%Z ->
  y <> [] ->
  (forall c, Q c ->
     rows_of_chain c <> [] /\ Forall (fun r => length r = wd) (rows_of_chain c)) ->
  (forall sampler m w0, exists c w1,
     samples sampler m (SklearnModel.n_samples (SklearnModel.hyper self))
       (SklearnModel.n_burn (SklearnModel.hyper self))
       (SklearnModel.thin (SklearnModel.hyper self))
       (SklearnModel.store_in_sample_predictions (SklearnModel.hyper self))
       (SklearnModel.store_acceptance_trace (SklearnModel.hyper self)) w0
     = Ok (extract_of c, w1) /\ Q c) ->
  exists self1 m cs w',
    SklearnModel._construct_model Sigma_init Model_init self X y = Ok (self1, m)
    /\ length cs = Z.to_nat (SklearnModel.n_chains (SklearnModel.hyper self))
    /\ Forall Q cs
    /\ SklearnModel.fit Sigma_init Model_init samples self X y w
       = Ok (SklearnModel.with_state self1
               (SklearnModel.mk_fitted
                  (SklearnModel.sigma (SklearnModel.state self1))
                  (SklearnModel.data (SklearnModel.state self1))
                  (SklearnModel.model (SklearnModel.state self1))
                  (Some (Arr2 wd (concat (map rows_of_chain cs))))
                  (Some (Arr1 (map PModel (concat (map models_of cs)))))
                  (Some (map extract_of cs))
                  (Some [("model"%string,
                          Arr1 (map PModel (concat (map models_of cs))));
                         ("acceptance"%string,
                          Arr1 (map PAccept (concat (map accepts_of cs))));
                         ("in_sample_predictions"%string,
                          Arr2 wd (concat (map rows_of_chain cs)))])
                  (Some (Arr1 (map PAccept (concat (map accepts_of cs)))))),
             w').
Proof.
  intros Hch Hne HQ Hs.
  destruct (construct_model_ok Sigma_init Model_init self X y Hne)
    as [self1 [m [Hc [Hh Hsm]]]].
  destruct (fit_runs_chains Q self self1 X y w Hne Hh Hs) as [cs [w' [Hpar [Hlen Hcs]]]].
  exists self1, m, cs, w'.
  split; [exact Hc |]. split; [exact Hlen |]. split; [exact Hcs |].
  unfold SklearnModel.fit. rewrite Hc. cbn [bind]. rewrite Hpar. cbn [bind].
  rewrite (combine_chains_of_retained wd cs).
  - reflexivity.
  - intros E. rewrite E in Hlen. simpl in Hlen. lia.
  - intros c Hc0. rewrite Forall_forall in Hcs. apply HQ, Hcs, Hc0.
Qed.

End Fitting.

Lemma construct_model_finite
    (Sigma_init : R -> R -> float64 -> Sigma.t)
    (Model_init : Data.t -> Sigma.t -> Z -> R -> R -> Model.t)
    (self self1 : SklearnModel.t) (X : Covariates) (ys : list R) (m : Model.t) :
  ys <> [] ->
  SklearnModel._construct_model Sigma_init Model_init self X (map Finite ys)
  = Ok (self1, m) ->
  exists d sg,
    Data.init X (map Finite ys) true = Ok d
    /\ m = Model_init d sg (SklearnModel.n_trees (SklearnModel.hyper self))
             (SklearnModel.alpha (SklearnModel.hyper self))
             (SklearnModel.beta (SklearnModel.hyper self))
    /\ SklearnModel.hyper self1 = SklearnModel.hyper self
    /\ SklearnModel.data (SklearnModel.state self1) = Some d
    /\ SklearnModel.model (SklearnModel.state self1) = Some m
    /\ Target.original_y_min (Data.target d) = Some (Finite (min_of ys))
    /\ Target.original_y_max (Data.target d) = Some (Finite (max_of ys))
    /\ Target.normalize_y (map Finite ys) = Ok (Data.y d).
Proof.
  intros Hne Hc.
  destruct (data_init_finite X ys Hne) as [d [Hd [HX [Hlo [Hhi [Hn [Hobs [_ Hs]]]]]]]].
  rewrite (construct_model_steps Sigma_init Model_init self X _ d _ Hd Hs) in Hc.
  injection Hc as <- <-.
  exists d. eexists. split; [exact Hd |].
  repeat (split; [reflexivity |]).
  split; [exact Hlo |]. split; [exact Hhi | exact Hn].
Qed.

(** X16.  Fitting and predicting compose: when in-sample predictions are
    stored and every chain retains [k >= 1] finite rows of [wd] predictions,
    [fit_predict] on finite targets [ys] returns, entry by entry, the mean
    over the [n_chains * k] rows of all chains, un-normalized with the
    minimum and maximum of [ys]. *)
Theorem fit_predict_is_mean_over_all_chains
    (Sigma_init : R -> R -> float64 -> Sigma.t)
    (Model_init : Data.t -> Sigma.t -> Z -> R -> R -> Model.t)
    (samples : ModelSampler.t -> Model.t -> Z -> Z -> R -> bool -> bool ->
               World -> result (ChainExtract * World))
    (self : SklearnModel.t) (X : Covariates) (ys : list R) (w : World) (k wd : nat) :
  SklearnModel.store_in_sample_predictions (SklearnModel.hyper self) = true ->
  (1 <= SklearnModel.n_chains (SklearnModel.hyper self))%Z ->
  ys <> [] ->
  (1 <= k)%nat ->
  (forall sampler m w0, exists c w1,
     samples sampler m (SklearnModel.n_samples (SklearnModel.hyper self))
       (SklearnModel.n_burn (SklearnModel.hyper self))
       (SklearnModel.thin (SklearnModel.hyper self))
       (SklearnModel.store_in_sample_predictions (SklearnModel.hyper self))
       (SklearnModel.store_acceptance_trace (SklearnModel.hyper self)) w0
     = Ok (extract_of c, w1)
     /\ length (rows_of_chain c) = k
     /\ Forall (fun r => length r = wd) (rows_of_chain c)
     /\ Forall (Forall is_finite) (rows_of_chain c)) ->
  exists self' w' rr,
    SklearnModel.fit Sigma_init Model_init samples self X (map Finite ys) w
    = Ok (self', w')
    /\ SklearnModel._prediction_samples (SklearnModel.state self')
       = Some (Arr2 wd (map (map Finite) rr))
    /\ length rr = (Z.to_nat (SklearnModel.n_chains (SklearnModel.hyper self)) * k)%nat
    /\ SklearnModel.fit_predict Sigma_init Model_init samples self X (map Finite ys) w
       = Ok (Vector (map Finite
                       (spec_point_prediction (min_of ys) (max_of ys) wd rr)),
             self', w').
Proof.
  intros Hstore Hch Hne Hk Hs.
  assert (Hney : map Finite ys <> []) by (destruct ys; [congruence | discriminate]).
  set (Q := fun c : retained =>
              length (rows_of_chain c) = k
              /\ Forall (fun r => length r = wd) (rows_of_chain c)
              /\ Forall (Forall is_finite) (rows_of_chain c)).
  destruct (fit_outcome Sigma_init Model_init samples Q wd self X (map Finite ys) w
              Hch Hney)
    as [self1 [m [cs [w' [Hc [Hlen [Hcs Hfit]]]]]]].
  { intros c [Hl [Hw _]]. split; [| exact Hw].
    intros E. rewrite E in Hl. simpl in Hl. lia. }
  { exact Hs. }
  destruct (construct_model_finite Sigma_init Model_init self self1 X ys m Hne Hc)
    as [d [sg [_ [_ [Hh [Hd [_ [Hlo [Hhi _]]]]]]]]].
  assert (Hfin : Forall (Forall is_finite) (concat (map rows_of_chain cs))).
  { apply Forall_concat. apply Forall_forall. intros rows Hr.
    apply in_map_iff in Hr. destruct Hr as [c [<- Hc0]].
    rewrite Forall_forall in Hcs. apply (Hcs c Hc0). }
  destruct (finite_rows _ Hfin) as [rr Err].
  assert (Hwd : Forall (fun r => length r = wd) (concat (map rows_of_chain cs))).
  { apply Forall_concat. apply Forall_forall. intros rows Hr.
    apply in_map_iff in Hr. destruct Hr as [c [<- Hc0]].
    rewrite Forall_forall in Hcs. apply (Hcs c Hc0). }
  assert (Hlr : length rr
                = (Z.to_nat (SklearnModel.n_chains (SklearnModel.hyper self)) * k)%nat).
  { rewrite <- Hlen, <- (length_map (map Finite) rr), <- Err.
    apply length_concat_uniform. apply Forall_forall. intros c Hc0.
    rewrite Forall_forall in Hcs. apply (Hcs c Hc0). }
  rewrite Err in Hfit.
  eexists. exists w', rr.
  split; [exact Hfit |]. split; [reflexivity |]. split; [exact Hlr |].
  unfold SklearnModel.fit_predict. rewrite Hfit. cbn [bind].
  cbn [SklearnModel.hyper SklearnModel.with_state]. rewrite Hh, Hstore.
  rewrite (predict_in_sample _ d (min_of ys) (max_of ys) wd rr).
  - reflexivity.
  - cbn [SklearnModel.hyper SklearnModel.with_state]. rewrite Hh. exact Hstore.
  - exact Hd.
  - exact Hlo.
  - exact Hhi.
  - intros E. rewrite E in Hlr. simpl in Hlr.
    assert (1 <= Z.to_nat (SklearnModel.n_chains (SklearnModel.hyper self)))%nat by lia.
    nia.
  - rewrite Err in Hwd. apply Forall_forall. intros r Hr.
    rewrite Forall_forall in Hwd.
    rewrite <- (length_map Finite r). apply Hwd. apply in_map. exact Hr.
  - reflexivity.
Qed.

Lemma fit_predict_is_mean_over_all_chains_witness :
  exists self' w' rr,
    SklearnModel.fit_predict example_Sigma_init example_Model_init
      (retaining_samples example_model [Finite 0])
      (SklearnModel.new 0%nat three_chains_params) [] (map Finite [1; 2]) example_world
    = Ok (Vector (map Finite (spec_point_prediction (min_of [1; 2]) (max_of [1; 2]) 1 rr)),
          self', w').
Proof.
  destruct (fit_predict_is_mean_over_all_chains example_Sigma_init example_Model_init
              (retaining_samples example_model [Finite 0])
              (SklearnModel.new 0%nat three_chains_params) [] [1; 2] example_world 4 1)
    as [self' [w' [rr [_ [_ [_ H]]]]]].
  - reflexivity.
  - simpl. lia.
  - discriminate.
  - lia.
  - intros sampler m w0.
    exists (repeat example_model 4, repeat [] 4, repeat [Finite 0] 4), w0.
    split; [reflexivity |]. split; [reflexivity |].
    split; repeat constructor.
  - exists self', w', rr. exact H.
Defined.

Lemma normalize_y_length (y v : array) :
  Target.normalize_y y = Ok v -> length v = length y.
Proof.
  unfold Target.normalize_y.
  destruct (np_min y); [| discriminate]. destruct (np_max y); [| discriminate].
  cbn [bind]. intros [= <-]. apply length_map.
Qed.

Lemma unnormalize_y_length (t : Target.t) (y u : array) :
  Target.unnormalize_y t y = Ok u -> length u = length y.
Proof.
  unfold Target.unnormalize_y.
  destruct (Target.getattr (Target.original_y_max t)); [| discriminate].
  destruct (Target.getattr (Target.original_y_min t)); [| discriminate].
  cbn [bind]. intros [= <-]. rewrite !length_map. reflexivity.
Qed.

(** X17.  Without arguments the residuals are taken against the targets the
    model has stored, not against a vector of the caller: after a fit on
    finite targets [ys], with a Model that keeps the Data it was built on
    and chains whose rows have one prediction per target, [residuals()] is
    [u - predict()] where [u] is what [unnormalize_y] makes of the
    normalized targets kept in the Data, entry by entry; [l2_error()] and
    [rmse(None, None)] are those of [u]. *)
Theorem residuals_default_to_training_targets
    (Sigma_init : R -> R -> float64 -> Sigma.t)
    (Model_init : Data.t -> Sigma.t -> Z -> R -> R -> Model.t)
    (samples : ModelSampler.t -> Model.t -> Z -> Z -> R -> bool -> bool ->
               World -> result (ChainExtract * World))
    (self : SklearnModel.t) (X : Covariates) (ys : list R) (w : World) (k : nat) :
  (forall d sg n a b, Model.data (Model_init d sg n a b) = d) ->
  SklearnModel.store_in_sample_predictions (SklearnModel.hyper self) = true ->
  (1 <= SklearnModel.n_chains (SklearnModel.hyper self))%Z ->
  ys <> [] ->
  (1 <= k)%nat ->
  (forall sampler m w0, exists c w1,
     samples sampler m (SklearnModel.n_samples (SklearnModel.hyper self))
       (SklearnModel.n_burn (SklearnModel.hyper self))
       (SklearnModel.thin (SklearnModel.hyper self))
       (SklearnModel.store_in_sample_predictions (SklearnModel.hyper self))
       (SklearnModel.store_acceptance_trace (SklearnModel.hyper self)) w0
     = Ok (extract_of c, w1)
     /\ length (rows_of_chain c) = k
     /\ Forall (fun r => length r = length ys) (rows_of_chain c)
     /\ Forall (Forall is_finite) (rows_of_chain c)) ->
  exists self' w' d u p,
    SklearnModel.fit Sigma_init Model_init samples self X (map Finite ys) w
    = Ok (self', w')
    /\ SklearnModel.data (SklearnModel.state self') = Some d
    /\ Target.normalize_y (map Finite ys) = Ok (Data.y d)
    /\ Data.unnormalize_y d (Data.y d) = Ok u
    /\ SklearnModel.predict self' None = Ok (Vector p)
    /\ length u = length ys
    /\ length p = length ys
    /\ SklearnModel.residuals self' None None = Ok (zip_with fsub u p)
    /\ SklearnModel.residuals self' None None
       = SklearnModel.residuals self' None (Some u)
    /\ SklearnModel.l2_error self' None None
       = SklearnModel.l2_error self' None (Some u)
    /\ SklearnModel.rmse self' None None = SklearnModel.rmse self' None (Some u).
Proof.
  intros Hdata Hstore Hch Hne Hk Hs.
  assert (Hney : map Finite ys <> []) by (destruct ys; [congruence | discriminate]).
  set (Q := fun c : retained =>
              length (rows_of_chain c) = k
              /\ Forall (fun r => length r = length ys) (rows_of_chain c)
              /\ Forall (Forall is_finite) (rows_of_chain c)).
  destruct (fit_outcome Sigma_init Model_init samples Q (length ys) self X
              (map Finite ys) w Hch Hney)
    as [self1 [m [cs [w' [Hc [Hlen [Hcs Hfit]]]]]]].
  { intros c [Hl [Hw _]]. split; [| exact Hw].
    intros E. rewrite E in Hl. simpl in Hl. lia. }
  { exact Hs. }
  destruct (construct_model_finite Sigma_init Model_init self self1 X ys m Hne Hc)
    as [d [sg [_ [Hm [Hh [Hd [Hmod [Hlo [Hhi Hn]]]]]]]]].
  assert (Hfin : Forall (Forall is_finite) (concat (map rows_of_chain cs))).
  { apply Forall_concat. apply Forall_forall. intros rows Hr.
    apply in_map_iff in Hr. destruct Hr as [c [<- Hc0]].
    rewrite Forall_forall in Hcs. apply (Hcs c Hc0). }
  destruct (finite_rows _ Hfin) as [rr Err].
  assert (Hwd : Forall (fun r => length r = length ys) (concat (map rows_of_chain cs))).
  { apply Forall_concat. apply Forall_forall. intros rows Hr.
    apply in_map_iff in Hr. destruct Hr as [c [<- Hc0]].
    rewrite Forall_forall in Hcs. apply (Hcs c Hc0). }
  assert (Hlr : length rr
                = (Z.to_nat (SklearnModel.n_chains (SklearnModel.hyper self)) * k)%nat).
  { rewrite <- Hlen, <- (length_map (map Finite) rr), <- Err.
    apply length_concat_uniform. apply Forall_forall. intros c Hc0.
    rewrite Forall_forall in Hcs. apply (Hcs c Hc0). }
  rewrite Err in Hfit.
  set (ps := spec_point_prediction (min_of ys) (max_of ys) (length ys) rr).
  match type of Hfit with _ = Ok (?s, _) => set (self' := s) in * end.
  assert (Hp : SklearnModel.predict self' None = Ok (Vector (map Finite ps))).
  { apply (predict_in_sample self' d (min_of ys) (max_of ys) (length ys) rr).
    - cbn [self' SklearnModel.hyper SklearnModel.with_state]. rewrite Hh. exact Hstore.
    - exact Hd.
    - exact Hlo.
    - exact Hhi.
    - intros E. rewrite E in Hlr. simpl in Hlr.
      assert (1 <= Z.to_nat (SklearnModel.n_chains (SklearnModel.hyper self)))%nat by lia.
      nia.
    - rewrite Err in Hwd. apply Forall_forall. intros r Hr.
      rewrite Forall_forall in Hwd.
      rewrite <- (length_map Finite r). apply Hwd. apply in_map. exact Hr.
    - reflexivity. }
  assert (Hlp : length (map Finite ps) = length ys).
  { unfold ps, spec_point_prediction. rewrite !length_map, length_seq. reflexivity. }
  assert (Hu : exists u, Data.unnormalize_y d (Data.y d) = Ok u).
  { unfold Data.unnormalize_y, Target.unnormalize_y. rewrite Hlo, Hhi.
    cbn [Target.getattr bind]. eexists. reflexivity. }
  destruct Hu as [u Hu].
  assert (Hlu : length u = length ys).
  { rewrite (unnormalize_y_length _ _ _ Hu), (normalize_y_length _ _ Hn).
    apply length_map. }
  assert (Hr : SklearnModel.residuals self' None None
               = Ok (zip_with fsub u (map Finite ps))).
  { unfold SklearnModel.residuals.
    cbn [self' SklearnModel.state SklearnModel.with_state SklearnModel.model].
    rewrite Hmod. cbn [SklearnModel.attr bind]. rewrite Hm, Hdata.
    change (Data.unnormalized_y d) with (Data.unnormalize_y d (Data.y d)).
    rewrite Hu. cbn [bind].
    fold self'. rewrite Hp. cbn [bind SklearnModel.minus].
    apply broadcast_same. rewrite Hlu, Hlp. reflexivity. }
  assert (Hr' : SklearnModel.residuals self' None (Some u)
                = Ok (zip_with fsub u (map Finite ps))).
  { unfold SklearnModel.residuals. rewrite Hp. cbn [bind SklearnModel.minus].
    apply broadcast_same. rewrite Hlu, Hlp. reflexivity. }
  exists self', w', d, u, (map Finite ps).
  split; [exact Hfit |].
  split; [cbn [self' SklearnModel.state SklearnModel.with_state SklearnModel.data];
          exact Hd |].
  split; [exact Hn |]. split; [exact Hu |]. split; [exact Hp |].
  split; [exact Hlu |]. split; [exact Hlp |].
  split; [exact Hr |]. split; [rewrite Hr, Hr'; reflexivity |].
  unfold SklearnModel.rmse, SklearnModel.l2_error. rewrite Hr, Hr'.
  split; reflexivity.
Qed.

Lemma residuals_default_to_training_targets_witness :
  exists self' w' u p,
    SklearnModel.fit example_Sigma_init example_Model_init
      (retaining_samples example_model [Finite 0; Finite 0])
      (SklearnModel.new 0%nat three_chains_params) [] (map Finite [1; 2]) example_world
    = Ok (self', w')
    /\ SklearnModel.residuals self' None None = Ok (zip_with fsub u p).
Proof.
  destruct (residuals_default_to_training_targets example_Sigma_init example_Model_init
              (retaining_samples example_model [Finite 0; Finite 0])
              (SklearnModel.new 0%nat three_chains_params) [] [1; 2] example_world 4)
    as [self' [w' [d [u [p [H1 [_ [_ [_ [_ [_ [_ [H8 _]]]]]]]]]]]]].
  - reflexivity.
  - reflexivity.
  - simpl. lia.
  - discriminate.
  - lia.
  - intros sampler m w0.
    exists (repeat example_model 4, repeat [] 4, repeat [Finite 0; Finite 0] 4), w0.
    split; [reflexivity |]. split; [reflexivity |].
    split; repeat constructor.
  - exists self', w', u, p. split; assumption.
Defined.

(** X18.  [from_extract] does not read its [extract] argument.  On a fitted
    facade it leaves [self] as it is and returns a copy that differs from
    [self] only in its data, built from the [X] and [y] given and
    normalized anew; the samples of the copy are those of [self], whatever
    extract was passed.  On an empty [y] it raises ValueError. *)
Theorem from_extract_copies_self_with_new_data
    (Sigma_init : R -> R -> float64 -> Sigma.t)
    (Model_init : Data.t -> Sigma.t -> Z -> R -> R -> Model.t)
    (samples : ModelSampler.t -> Model.t -> Z -> Z -> R -> bool -> bool ->
               World -> result (ChainExtract * World))
    (self : SklearnModel.t) (X : Covariates) (y : array) (w : World) (k wd : nat)
    (extract : list ChainExtract) (X' : Covariates) (y' : array) :
  (1 <= SklearnModel.n_chains (SklearnModel.hyper self))%Z ->
  y <> [] ->
  (1 <= k)%nat ->
  (forall sampler m w0, exists c w1,
     samples sampler m (SklearnModel.n_samples (SklearnModel.hyper self))
       (SklearnModel.n_burn (SklearnModel.hyper self))
       (SklearnModel.thin (SklearnModel.hyper self))
       (SklearnModel.store_in_sample_predictions (SklearnModel.hyper self))
       (SklearnModel.store_acceptance_trace (SklearnModel.hyper self)) w0
     = Ok (extract_of c, w1)
     /\ length (rows_of_chain c) = k
     /\ Forall (fun r => length r = wd) (rows_of_chain c)) ->
  exists self' w',
    SklearnModel.fit Sigma_init Model_init samples self X y w = Ok (self', w')
    /\ SklearnModel.from_extract self' extract X' [] = Raise ValueError
    /\ (y' <> [] ->
        exists d st,
          Data.init X' y' true = Ok d
          /\ SklearnModel.from_extract self' extract X' y'
             = Ok (SklearnModel.with_state self' st, self')
          /\ SklearnModel.data st = Some d
          /\ SklearnModel.sigma st = SklearnModel.sigma (SklearnModel.state self')
          /\ SklearnModel.model st = SklearnModel.model (SklearnModel.state self')
          /\ SklearnModel._model_samples st
             = SklearnModel._model_samples (SklearnModel.state self')
          /\ SklearnModel._prediction_samples st
             = SklearnModel._prediction_samples (SklearnModel.state self')
          /\ SklearnModel._acceptance_trace st
             = SklearnModel._acceptance_trace (SklearnModel.state self')
          /\ SklearnModel.extract st = SklearnModel.extract (SklearnModel.state self')
          /\ SklearnModel.combined_chains st
             = SklearnModel.combined_chains (SklearnModel.state self')).
Proof.
  intros Hch Hne Hk Hs.
  set (Q := fun c : retained =>
              length (rows_of_chain c) = k
              /\ Forall (fun r => length r = wd) (rows_of_chain c)).
  destruct (fit_outcome Sigma_init Model_init samples Q wd self X y w Hch Hne)
    as [self1 [m [cs [w' [Hc [Hlen [Hcs Hfit]]]]]]].
  { intros c [Hl Hw]. split; [| exact Hw].
    intros E. rewrite E in Hl. simpl in Hl. lia. }
  { exact Hs. }
  eexists. exists w'. split; [exact Hfit |].
  split; [reflexivity |].
  intros Hne'.
  destruct (np_min_ok y' Hne') as [lo Hlo]. destruct (np_max_ok y' Hne') as [hi Hhi].
  assert (Hd : exists d, Data.init X' y' true = Ok d).
  { unfold Data.init, Target.init, Target.normalize_y. rewrite Hlo, Hhi. cbn [bind].
    eexists. reflexivity. }
  destruct Hd as [d Hd].
  exists d. eexists. split; [exact Hd |].
  split.
  { unfold SklearnModel.from_extract, SklearnModel._convert_covariates_to_data.
    cbn [SklearnModel.state SklearnModel.with_state SklearnModel.combined_chains
         SklearnModel.attr bind getitem String.eqb Ascii.eqb Bool.eqb].
    rewrite Hd. cbn [bind]. reflexivity. }
  repeat split.
Qed.

Lemma from_extract_copies_self_with_new_data_witness :
  exists self' w',
    SklearnModel.fit example_Sigma_init example_Model_init
      (retaining_samples example_model [Finite 0])
      (SklearnModel.new 0%nat three_chains_params) [] [Finite 1; Finite 2] example_world
    = Ok (self', w')
    /\ SklearnModel.from_extract self' [] [] [] = Raise ValueError.
Proof.
  destruct (from_extract_copies_self_with_new_data example_Sigma_init example_Model_init
              (retaining_samples example_model [Finite 0])
              (SklearnModel.new 0%nat three_chains_params) [] [Finite 1; Finite 2]
              example_world 4 1 [] [] [])
    as [self' [w' [H1 [H2 _]]]].
  - simpl. lia.
  - discriminate.
  - lia.
  - intros sampler m w0.
    exists (repeat example_model 4, repeat [] 4, repeat [Finite 0] 4), w0.
    split; [reflexivity |]. split; [reflexivity |]. repeat constructor.
  - exists self', w'. split; assumption.
Defined.

(** ** SklearnModel: chains that retain nothing *)

Lemma concat_of_nils {A B : Type} (f : A -> list B) (l : list A) :
  (forall a, In a l -> f a = []) -> concat (map f l) = [].
Proof.
  induction l as [| a l IH]; simpl; intros H; [reflexivity |].
  rewrite (H a) by auto. rewrite IH by auto. reflexivity.
Qed.

Lemma combine_chains_without_samples (cs : list retained) :
  cs <> [] ->
  (forall c, In c cs -> models_of c = [] /\ rows_of_chain c = []) ->
  SklearnModel._combine_chains (map extract_of cs)
  = Ok [("model"%string, Arr1 []);
        ("acceptance"%string, Arr1 (map PAccept (concat (map accepts_of cs))));
        ("in_sample_predictions"%string, Arr1 [])].
Proof.
  intros Hne Hempty.
  unfold SklearnModel._combine_chains.
  destruct (map extract_of cs) as [| first rest] eqn:E;
    [destruct cs; [congruence | discriminate] |].
  assert (K : keys first = ["model"; "acceptance"; "in_sample_predictions"]%string).
  { destruct cs as [| c cs']; [congruence |]. simpl in E. injection E as <- _.
    reflexivity. }
  rewrite K, <- E. clear K E first rest.
  assert (Hne' : forall (B : Type) (g : retained -> B), map g cs <> []).
  { intros B g. destruct cs; [congruence | discriminate]. }
  cbn [mapM].
  rewrite !mapM_map.
  rewrite (mapM_ok _ (fun c => map PModel (models_of c)) cs) by (intros; reflexivity).
  rewrite (mapM_ok _ (fun c => map PAccept (accepts_of c)) cs) by (intros; reflexivity).
  rewrite (mapM_ok _ (fun c => map PRow (rows_of_chain c)) cs) by (intros; reflexivity).
  cbn [bind].
  rewrite np_concatenate_arr1;
    [| apply Hne'
     | intros l Hl; apply in_map_iff in Hl; destruct Hl as [c [<- _]];
       apply asarray_models].
  cbn [bind].
  rewrite np_concatenate_arr1;
    [| apply Hne'
     | intros l Hl; apply in_map_iff in Hl; destruct Hl as [c [<- _]];
       apply asarray_accepts].
  cbn [bind].
  rewrite np_concatenate_arr1;
    [| apply Hne'
     | intros l Hl; apply in_map_iff in Hl; destruct Hl as [c [<- Hc]];
       rewrite (proj2 (Hempty c Hc)); reflexivity].
  cbn [bind].
  rewrite (concat_of_nils (fun c => map PModel (models_of c)))
    by (intros c Hc; rewrite (proj1 (Hempty c Hc)); reflexivity).
  rewrite (concat_of_nils (fun c => map PRow (rows_of_chain c)))
    by (intros c Hc; rewrite (proj2 (Hempty c Hc)); reflexivity).
  rewrite <- (map_map accepts_of (map PAccept)), <- concat_map.
  reflexivity.
Qed.

Lemma unnormalize_nan (d : Data.t) (lo hi : float64) :
  Target.original_y_min (Data.target d) = Some lo ->
  Target.original_y_max (Data.target d) = Some hi ->
  SklearnModel.unnormalize d (Scalar0 NonFinite) = Ok (Scalar0 NonFinite).
Proof.
  intros Hlo Hhi.
  unfold SklearnModel.unnormalize, Data.unnormalize_y, Target.unnormalize_y.
  rewrite Hlo, Hhi. cbn [Target.getattr bind map hd fsub fmul].
  destruct lo; reflexivity.
Qed.

(** X19.  A fit whose chains retain no sample does not fail, and the
    fitted facade then answers with nan: the combined arrays are empty,
    and [predict()], [predict(X)] and [fit_predict] return a single
    non-finite number instead of a vector or an error. *)
Theorem fit_without_retained_samples_predicts_nan
    (Sigma_init : R -> R -> float64 -> Sigma.t)
    (Model_init : Data.t -> Sigma.t -> Z -> R -> R -> Model.t)
    (samples : ModelSampler.t -> Model.t -> Z -> Z -> R -> bool -> bool ->
               World -> result (ChainExtract * World))
    (self : SklearnModel.t) (X X' : Covariates) (y : array) (w : World) :
  (1 <= SklearnModel.n_chains (SklearnModel.hyper self))%Z ->
  y <> [] ->
  (forall sampler m w0, exists c w1,
     samples sampler m (SklearnModel.n_samples (SklearnModel.hyper self))
       (SklearnModel.n_burn (SklearnModel.hyper self))
       (SklearnModel.thin (SklearnModel.hyper self))
       (SklearnModel.store_in_sample_predictions (SklearnModel.hyper self))
       (SklearnModel.store_acceptance_trace (SklearnModel.hyper self)) w0
     = Ok (extract_of c, w1)
     /\ models_of c = [] /\ rows_of_chain c = []) ->
  exists self' w',
    SklearnModel.fit Sigma_init Model_init samples self X y w = Ok (self', w')
    /\ SklearnModel.model_samples self' = Some (Arr1 [])
    /\ SklearnModel._prediction_samples (SklearnModel.state self') = Some (Arr1 [])
    /\ SklearnModel.predict self' (Some X') = Ok (Scalar0 NonFinite)
    /\ (SklearnModel.store_in_sample_predictions (SklearnModel.hyper self) = true ->
        SklearnModel.predict self' None = Ok (Scalar0 NonFinite))
    /\ SklearnModel.fit_predict Sigma_init Model_init samples self X y w
       = Ok (Scalar0 NonFinite, self', w').
Proof.
  intros Hch Hne Hs.
  destruct (construct_model_ok Sigma_init Model_init self X y Hne)
    as [self1 [m [Hc [Hh Hsm]]]].
  set (Q := fun c : retained => models_of c = [] /\ rows_of_chain c = []).
  destruct (fit_runs_chains Sigma_init Model_init samples Q self self1 X y w Hne Hh Hs)
    as [cs [w' [Hpar [Hlen Hcs]]]].
  rewrite Forall_forall in Hcs.
  assert (Hcne : cs <> []).
  { intros E. rewrite E in Hlen. simpl in Hlen. lia. }
  (* the data of the fitted facade *)
  destruct (np_min_ok y Hne) as [lo Hlo]. destruct (np_max_ok y Hne) as [hi Hhi].
  assert (Hd : exists d,
             SklearnModel.data (SklearnModel.state self1) = Some d
             /\ Target.original_y_min (Data.target d) = Some lo
             /\ Target.original_y_max (Data.target d) = Some hi).
  { revert Hc.
    unfold SklearnModel._construct_model, SklearnModel._convert_covariates_to_data,
      Data.init, Target.init, Target.normalize_y.
    rewrite Hlo, Hhi. cbn [bind].
    unfold Data.normalizing_scale, Target.normalizing_scale.
    cbn [Data.target Target.original_y_max Target.original_y_min Target.getattr bind].
    intros H. injection H as <- _. eexists. repeat split. }
  destruct Hd as [d [Hd [Dlo Dhi]]].
  assert (Hfit : SklearnModel.fit Sigma_init Model_init samples self X y w
                 = Ok (SklearnModel.with_state self1
                         (SklearnModel.mk_fitted
                            (SklearnModel.sigma (SklearnModel.state self1))
                            (SklearnModel.data (SklearnModel.state self1))
                            (SklearnModel.model (SklearnModel.state self1))
                            (Some (Arr1 [])) (Some (Arr1 []))
                            (Some (map extract_of cs))
                            (Some [("model"%string, Arr1 []);
                                   ("acceptance"%string,
                                    Arr1 (map PAccept (concat (map accepts_of cs))));
                                   ("in_sample_predictions"%string, Arr1 [])])
                            (Some (Arr1 (map PAccept (concat (map accepts_of cs)))))),
                       w')).
  { unfold SklearnModel.fit. rewrite Hc. cbn [bind]. rewrite Hpar. cbn [bind].
    rewrite (combine_chains_without_samples cs Hcne Hcs). reflexivity. }
  match type of Hfit with _ = Ok (?s, _) => set (self' := s) in * end.
  assert (Hout : forall X0, SklearnModel.predict self' (Some X0) = Ok (Scalar0 NonFinite)).
  { intros X0. unfold SklearnModel.predict, SklearnModel._out_of_sample_predict.
    cbn [self' SklearnModel.state SklearnModel.with_state SklearnModel.data
         SklearnModel._model_samples].
    rewrite Hd. cbn [SklearnModel.attr bind SklearnModel.predictions_on mapM asarray
                     rows_of mean_axis0].
    exact (unnormalize_nan d lo hi Dlo Dhi). }
  assert (Hin : SklearnModel.store_in_sample_predictions (SklearnModel.hyper self) = true ->
                SklearnModel.predict self' None = Ok (Scalar0 NonFinite)).
  { intros Hstore. unfold SklearnModel.predict.
    cbn [self' SklearnModel.hyper SklearnModel.state SklearnModel.with_state
         SklearnModel.data SklearnModel._prediction_samples].
    rewrite Hh, Hstore, Hd. cbn [SklearnModel.attr bind mean_axis0].
    exact (unnormalize_nan d lo hi Dlo Dhi). }
  exists self', w'.
  split; [exact Hfit |]. split; [reflexivity |]. split; [reflexivity |].
  split; [apply Hout |]. split; [exact Hin |].
  unfold SklearnModel.fit_predict. rewrite Hfit. cbn [bind].
  replace (SklearnModel.hyper self') with (SklearnModel.hyper self)
    by (symmetry; exact Hh).
  destruct (SklearnModel.store_in_sample_predictions (SklearnModel.hyper self)) eqn:St.
  - rewrite (Hin eq_refl). reflexivity.
  - rewrite Hout. reflexivity.
Qed.

Lemma fit_without_retained_samples_predicts_nan_witness :
  exists self' w',
    SklearnModel.fit_predict example_Sigma_init example_Model_init
      (retaining_samples example_model [Finite 0])
      (SklearnModel.new 0%nat
         (SklearnModel.mk_params 50 2 0.001 0.001 0 200 0.1 0.5 0.5 0.95 2 true true (-1)))
      [] [Finite 1; Finite 2] example_world
    = Ok (Scalar0 NonFinite, self', w').
Proof.
  destruct (fit_without_retained_samples_predicts_nan example_Sigma_init
              example_Model_init (retaining_samples example_model [Finite 0])
              (SklearnModel.new 0%nat
                 (SklearnModel.mk_params 50 2 0.001 0.001 0 200 0.1 0.5 0.5 0.95 2
                    true true (-1)))
              [] [] [Finite 1; Finite 2] example_world)
    as [self' [w' [_ [_ [_ [_ [_ H]]]]]]].
  - simpl. lia.
  - discriminate.
  - intros sampler m w0. exists ([], [], []), w0.
    split; [reflexivity |]. split; reflexivity.
  - exists self', w'. exact H.
Defined.

(** ** SklearnModel: the error measure, further *)

Lemma zip_minus_self (ps : list R) :
  zip_with Rminus ps ps = map (fun _ => 0) ps.
Proof.
  induction ps as [| p ps IH]; simpl; [reflexivity |].
  rewrite IH. f_equal. lra.
Qed.

Lemma Rsum_zeros {A : Type} (l : list A) : Rsum (map (fun _ => 0) l) = 0.
Proof.
  unfold Rsum. induction l as [| x l IH]; simpl; [reflexivity |].
  rewrite IH. lra.
Qed.

(** X20.  Targets equal to the predictions give an error of exactly zero:
    when [predict] returns finite values and the same values are passed as
    targets, every residual and every squared error is 0 and [rmse]
    is 0. *)
Theorem rmse_of_exact_targets_is_zero (self : SklearnModel.t) (X : option Covariates)
    (ps : list R) :
  SklearnModel.predict self X = Ok (Vector (map Finite ps)) ->
  SklearnModel.residuals self X (Some (map Finite ps))
  = Ok (map (fun _ => Finite 0) ps)
  /\ SklearnModel.l2_error self X (Some (map Finite ps))
     = Ok (map (fun _ => Finite 0) ps)
  /\ SklearnModel.rmse self X (Some (map Finite ps)) = Ok (Finite 0).
Proof.
  intros Hp.
  assert (Hr : SklearnModel.residuals self X (Some (map Finite ps))
               = Ok (map (fun _ => Finite 0) ps)).
  { unfold SklearnModel.residuals. rewrite Hp. cbn [bind SklearnModel.minus].
    rewrite broadcast_same by reflexivity.
    rewrite zip_with_finite, zip_minus_self, map_map. reflexivity. }
  assert (Hl : SklearnModel.l2_error self X (Some (map Finite ps))
               = Ok (map (fun _ => Finite 0) ps)).
  { unfold SklearnModel.l2_error. rewrite Hr. cbn [bind]. rewrite map_map.
    f_equal. apply map_ext. intros _. simpl. f_equal. lra. }
  split; [exact Hr |]. split; [exact Hl |].
  rewrite (rmse_given_prediction self X ps ps Hp eq_refl).
  rewrite zip_minus_self, map_map.
  replace (map (fun _ : R => 0 * 0) ps) with (map (fun _ : R => 0) ps)
    by (apply map_ext; intros _; lra).
  rewrite Rsum_zeros, sqrt_0. reflexivity.
Qed.

Lemma rmse_of_exact_targets_is_zero_witness :
  SklearnModel.rmse example_fitted None
    (Some (map Finite (spec_point_prediction 0 2 2 [[0; 1]; [1; 0]])))
  = Ok (Finite 0).
Proof.
  apply (rmse_of_exact_targets_is_zero example_fitted None
           (spec_point_prediction 0 2 2 [[0; 1]; [1; 0]])).
  apply (predict_in_sample example_fitted example_normalizing_data 0 2 2);
    try reflexivity; [discriminate | repeat constructor].
Defined.

(** X21.  Targets whose size differs from that of the predictions: when
    neither size is one, [residuals], [l2_error] and [rmse] raise
    ValueError; a single target, however, is accepted and compared with
    every prediction. *)
Theorem residuals_size_rules (self : SklearnModel.t) (X : option Covariates)
    (ps : list R) :
  SklearnModel.predict self X = Ok (Vector (map Finite ps)) ->
  length ps <> 1%nat ->
  (forall y : array,
     length y <> length ps -> length y <> 1%nat ->
     SklearnModel.residuals self X (Some y) = Raise ValueError
     /\ SklearnModel.l2_error self X (Some y) = Raise ValueError
     /\ SklearnModel.rmse self X (Some y) = Raise ValueError)
  /\ (forall y0 : R,
        SklearnModel.residuals self X (Some [Finite y0])
        = Ok (map Finite (map (fun p => y0 - p) ps))
        /\ SklearnModel.rmse self X (Some [Finite y0])
           = Ok (Finite (sqrt (Rsum (map (fun e => e * e)
                                        (map (fun p => y0 - p) ps)))))).
Proof.
  intros Hp Hps. split.
  - intros y Hl Hy.
    assert (E : SklearnModel.residuals self X (Some y) = Raise ValueError).
    { unfold SklearnModel.residuals. rewrite Hp. cbn [bind SklearnModel.minus].
      apply broadcast_mismatch; [rewrite length_map; exact Hl | exact Hy
                                | rewrite length_map; exact Hps]. }
    split; [exact E |].
    unfold SklearnModel.rmse, SklearnModel.l2_error. rewrite E. split; reflexivity.
  - intros y0.
    assert (E : SklearnModel.residuals self X (Some [Finite y0])
                = Ok (map Finite (map (fun p => y0 - p) ps))).
    { unfold SklearnModel.residuals. rewrite Hp. cbn [bind SklearnModel.minus].
      unfold broadcast. rewrite length_map.
      destruct (Nat.eqb_spec (length [Finite y0]) (length ps)) as [E1 | _];
        [simpl in E1; congruence |].
      rewrite !map_map. reflexivity. }
    split; [exact E |].
    unfold SklearnModel.rmse, SklearnModel.l2_error. rewrite E. cbn [bind].
    rewrite map_map.
    change (map (fun x => fmul (Finite x) (Finite x)) (map (fun p => y0 - p) ps))
      with (map (fun x => Finite (x * x)) (map (fun p => y0 - p) ps)).
    rewrite <- (map_map (fun x => x * x) Finite), np_sum_finite.
    rewrite fsqrt_finite by apply Rsum_squares_nonneg.
    reflexivity.
Qed.

Lemma residuals_size_rules_witness :
  SklearnModel.residuals example_fitted None
    (Some [Finite 1; Finite 2; Finite 3])
  = Raise ValueError.
Proof.
  refine (proj1 (proj1 (residuals_size_rules example_fitted None
                          (spec_point_prediction 0 2 2 [[0; 1]; [1; 0]]) _ _)
                   [Finite 1; Finite 2; Finite 3] _ _)).
  - apply (predict_in_sample example_fitted example_normalizing_data 0 2 2);
      try reflexivity; [discriminate | repeat constructor].
  - simpl. lia.
  - simpl. lia.
  - simpl. lia.
Defined.

(** ** SklearnModel: the accessors *)

(** X22.  The property [prediction_samples] can never be read: it returns
    itself, so every access, before or after a fit and with any number of
    frames left, ends in RecursionError; the stored samples are only
    reachable as [_prediction_samples]. *)
Theorem prediction_samples_never_returns (frames : nat) (self : SklearnModel.t) :
  SklearnModel.prediction_samples frames self = SklearnModel.RecursionError.
Proof.
  induction frames as [| frames IH]; [reflexivity | exact IH].
Qed.

Lemma combine_chains_follows_first_chain_witness :
  SklearnModel._combine_chains [[("model"%string, [])]; []] = Raise KeyError.
Proof.
  apply (proj1 (proj2 combine_chains_follows_first_chain)
           [("model"%string, [])] [[]] [] "model"%string []).
  - reflexivity.
  - right. left. reflexivity.
  - intros H. exact H.
Defined.
